(** * CodeLLM_Bridge: the scanner, its ignore filter, the watchdog and the
      fallback selection, embedded from [src/CodeLLM_Bridge.py].

    Conventions of the embedding.
    - A Python [str] is a [string]; a character is a code point below 256.
    - [os.path] is [posixpath]: the separator is [/], [os.path.normcase] is
      the identity, so [fnmatch.fnmatch] is [fnmatch.fnmatchcase].
    - The Tk widgets ([self.tree], [self.tree_ids_map], labels, buttons) are
      left out: no function below reads them back into the data it computes.
    - The file system is the record [FS] of the [os] calls the code makes. *)

From Stdlib Require Import Ascii String QArith Lqa.
From stdpp Require Import gmap strings list fin_maps sorting.

Local Open Scope string_scope.
Local Open Scope list_scope.
Local Open Scope Z_scope.
Local Open Scope nat_scope.

(* ===================================================================== *)
(** ** Python string operations used by the source                        *)
(* ===================================================================== *)

Module PyStr.

Definition chars (s : string) : list ascii := list_ascii_of_string s.
Definition of_chars (l : list ascii) : string := string_of_list_ascii l.

(** [s.startswith(p)] *)
Definition startswith (s p : string) : bool := String.prefix p s.

(** [str.isspace] on one code point below 256. *)
Definition is_space (c : ascii) : bool :=
  let n := nat_of_ascii c in
  ((9 <=? n) && (n <=? 13)) || ((28 <=? n) && (n <=? 32))
  || (n =? 133) || (n =? 160).

Fixpoint lstrip (l : list ascii) : list ascii :=
  match l with
  | c :: l' => if is_space c then lstrip l' else l
  | [] => []
  end.

(** [s.strip()] *)
Definition strip (s : string) : string :=
  of_chars (rev (lstrip (rev (lstrip (chars s))))).

(** [s.lower()] on the ASCII letters; lowering a code point in 128..255
    never yields an ASCII character, so the prefix tests that use it are
    unaffected. *)
Definition lower_char (c : ascii) : ascii :=
  let n := nat_of_ascii c in
  if (65 <=? n) && (n <=? 90) then ascii_of_nat (n + 32) else c.

Definition lower (s : string) : string := of_chars (map lower_char (chars s)).

(** [s.replace(a, b)] for single characters [a] and [b]. *)
Definition replace_char (a b : ascii) (s : string) : string :=
  of_chars (map (fun c => if Ascii.eqb c a then b else c) (chars s)).

Definition slash : ascii := "/"%char.
Definition backslash : ascii := "\"%char.

(** Text after the last [/] of [l], scanning with the text collected
    since the last [/] seen. *)
Fixpoint after_last_slash (acc l : list ascii) : list ascii :=
  match l with
  | [] => rev acc
  | c :: l' => if Ascii.eqb c slash then after_last_slash [] l'
               else after_last_slash (c :: acc) l'
  end.

(** [posixpath.basename(p)]: [p\[p.rfind('/') + 1:\]]. *)
Definition basename (p : string) : string :=
  of_chars (after_last_slash [] (chars p)).

Fixpoint drop_slashes (l : list ascii) : list ascii :=
  match l with
  | c :: l' => if Ascii.eqb c slash then drop_slashes l' else l
  | [] => []
  end.

(** The reversed text up to and including the last [/] of the reversed
    path [r] (empty when there is none). *)
Fixpoint upto_last_slash_rev (r : list ascii) : list ascii :=
  match r with
  | [] => []
  | c :: r' => if Ascii.eqb c slash then r else upto_last_slash_rev r'
  end.

(** [posixpath.dirname(p)]: [head = p\[:p.rfind('/') + 1\]], and
    [head.rstrip('/')] unless [head] is made of [/] only. *)
Definition dirname (p : string) : string :=
  let head_rev := upto_last_slash_rev (rev (chars p)) in
  if forallb (fun c => Ascii.eqb c slash) head_rev then of_chars (rev head_rev)
  else of_chars (rev (drop_slashes head_rev)).

Definition endswith_slash (s : string) : bool :=
  match rev (chars s) with
  | c :: _ => Ascii.eqb c slash
  | [] => false
  end.

(** [posixpath.join(a, b)] *)
Definition join (a b : string) : string :=
  if startswith b "/" then b
  else if (String.eqb a "") || endswith_slash a then a +:+ b
  else a +:+ "/" +:+ b.

End PyStr.


(* ===================================================================== *)
(** ** [fnmatch.fnmatchcase]: shell globs                                 *)
(* ===================================================================== *)

(** Python's library is not part of the repository; this is the matcher
    that [fnmatch.translate] (Python 3.11) compiles a pattern to: [*] any
    text, [?] any one character, [\[seq\]] one character of [seq],
    [\[!seq\]] one character not in [seq], a [\[] with no closing [\]] is
    literal, and the whole name must match. *)
Module Fnmatch.

Inductive gtok : Type :=
| GStar
| GAny
| GLit (c : ascii)
| GSet (negated : bool) (ranges : list (ascii * ascii)).

Definition rbracket : ascii := "]"%char.
Definition lbracket : ascii := "["%char.
Definition bang : ascii := "!"%char.
Definition hyphen : ascii := "-"%char.
Definition star : ascii := "*"%char.
Definition qmark : ascii := "?"%char.

(** Split at the first []]: the text before it and the text after it. *)
Fixpoint until_rbracket (l : list ascii) : option (list ascii * list ascii) :=
  match l with
  | [] => None
  | c :: l' =>
      if Ascii.eqb c rbracket then Some ([], l')
      else match until_rbracket l' with
           | Some (body, rest) => Some (c :: body, rest)
           | None => None
           end
  end.

(** The body of a bracket expression starting right after the [\[]: an
    optional [!], then an optional []] that counts as a member, then
    everything up to the next []]. *)
Definition bracket_body (l : list ascii)
  : option (bool * list ascii * list ascii) :=
  let '(neg, l1) :=
    match l with
    | c :: l' => if Ascii.eqb c bang then (true, l') else (false, l)
    | [] => (false, l)
    end in
  match l1 with
  | c :: l2 =>
      if Ascii.eqb c rbracket then
        match until_rbracket l2 with
        | Some (body, rest) => Some (neg, c :: body, rest)
        | None => None
        end
      else
        match until_rbracket l1 with
        | Some (body, rest) => Some (neg, body, rest)
        | None => None
        end
  | [] => None
  end.

(** A member of a bracket expression: a character, or a range
    [lo-hi]. *)
Inductive member : Type :=
| MChar (c : ascii)
| MRange (lo hi : ascii).

(** Members of a bracket body: [lo-hi] is a range when the hyphen stands
    between two characters, any other character stands for itself; a
    range with [lo > hi] is empty and is dropped. *)
Fixpoint set_members (body : list ascii) : list member :=
  match body with
  | [] => []
  | lo :: rest =>
      match rest with
      | h :: hi :: rest' =>
          if Ascii.eqb h hyphen then
            if (nat_of_ascii lo <=? nat_of_ascii hi)
            then MRange lo hi :: set_members rest'
            else set_members rest'
          else MChar lo :: set_members rest
      | _ => MChar lo :: set_members rest
      end
  end.

Definition member_range (m : member) : ascii * ascii :=
  match m with
  | MChar c => (c, c)
  | MRange lo hi => (lo, hi)
  end.

Definition set_ranges (body : list ascii) : list (ascii * ascii) :=
  map member_range (set_members body).

(** The token of a bracket expression.  [fnmatch.translate] settles the
    negation once the empty ranges are gone, on the text that is left:
    a [!] that has come to stand first negates the set although the
    expression does not start with it, and what follows it is read as
    [re] reads a set, where a hyphen that comes first is a member. *)
Definition bracket_token (neg : bool) (body : list ascii) : gtok :=
  if neg then GSet true (set_ranges body)
  else
    match set_members body with
    | MChar c :: members =>
        if Ascii.eqb c bang then GSet true (map member_range members)
        else GSet false (set_ranges body)
    | MRange lo hi :: members =>
        if Ascii.eqb lo bang
        then GSet true ((hyphen, hyphen) :: (hi, hi) :: map member_range members)
        else GSet false (set_ranges body)
    | [] => GSet false []
    end.

(** [fnmatch.translate], to tokens; the fuel is the pattern's length. *)
Fixpoint translate_fuel (fuel : nat) (pat : list ascii) : list gtok :=
  match fuel with
  | O => []
  | S fuel' =>
      match pat with
      | [] => []
      | c :: pat' =>
          if Ascii.eqb c star then GStar :: translate_fuel fuel' pat'
          else if Ascii.eqb c qmark then GAny :: translate_fuel fuel' pat'
          else if Ascii.eqb c lbracket then
            match bracket_body pat' with
            | None => GLit c :: translate_fuel fuel' pat'
            | Some (neg, body, rest) =>
                bracket_token neg body :: translate_fuel fuel' rest
            end
          else GLit c :: translate_fuel fuel' pat'
      end
  end.

Definition translate (pat : string) : list gtok :=
  translate_fuel (String.length pat) (PyStr.chars pat).

Definition in_ranges (c : ascii) (ranges : list (ascii * ascii)) : bool :=
  existsb (fun r => (nat_of_ascii (fst r) <=? nat_of_ascii c)
                    && (nat_of_ascii c <=? nat_of_ascii (snd r))) ranges.

(** One character against a token that consumes exactly one. *)
Definition tok_accepts (t : gtok) (c : ascii) : bool :=
  match t with
  | GStar => true
  | GAny => true
  | GLit d => Ascii.eqb c d
  | GSet neg ranges => xorb neg (in_ranges c ranges)
  end.

(** The whole of [s] against the tokens ([re.match] of the translated
    expression, which ends in [\Z]). *)
Fixpoint gmatch (toks : list gtok) (s : list ascii) : bool :=
  match toks with
  | [] => match s with [] => true | _ => false end
  | GStar :: toks' =>
      (fix star_from (s : list ascii) : bool :=
         gmatch toks' s
         || match s with
            | [] => false
            | _ :: s' => star_from s'
            end) s
  | t :: toks' =>
      match s with
      | [] => false
      | c :: s' => tok_accepts t c && gmatch toks' s'
      end
  end.

(** [fnmatch.fnmatch(name, pat)] under [posixpath]. *)
Definition fnmatch (name pat : string) : bool :=
  gmatch (translate pat) (PyStr.chars name).

End Fnmatch.

(* ===================================================================== *)
(** ** The file system, as the [os] calls of the source see it            *)
(* ===================================================================== *)

(** [sorted(names)]: Python orders [str] by code point. *)
Definition str_le (a b : string) : Prop := String.leb a b = true.

#[global] Instance str_le_dec (a b : string) : Decision (str_le a b).
Proof. unfold str_le. apply _. Defined.

Definition sorted (names : list string) : list string := merge_sort str_le names.

Record FS : Type := {
  (** [os.path.exists(p)] *)
  fs_exists : string -> bool;
  (** [os.path.isdir(p)] *)
  fs_isdir : string -> bool;
  (** [os.listdir(p)]; [None] when it raises [OSError] *)
  fs_listdir : string -> option (list string);
  (** [os.path.realpath(p)] *)
  fs_realpath : string -> string;
  (** [os.path.samefile(a, b)]; [None] when it raises [OSError] *)
  fs_samefile : string -> string -> option bool;
  (** the access probe on [p] does not answer within
      [FOLDER_ACCESS_TIMEOUT] *)
  fs_probe_times_out : string -> bool;
  (** [os.walk(top)], top-down, links not followed: the triples
      [(root, dirs, files)] in the order they are yielded *)
  fs_walk : string -> list (string * list string * list string)
}.

(* ===================================================================== *)
(** ** [FolderMonitorApp]: the attributes the scanner works on            *)
(* ===================================================================== *)

(** A value of [folder_tree_data]: [{'checked': ..., 'is_dir': ...}]. *)
Record node : Type := Node { checked : bool; is_dir : bool }.

#[global] Instance node_eq_dec : EqDecision node.
Proof. solve_decision. Defined.

Definition set_checked (b : bool) (n : node) : node := Node b (is_dir n).

Record App : Type := {
  root_folders : list string;
  ignore_patterns : list string;
  filter_system_folders : bool;
  folder_tree_data : gmap string node;
  visited_dirs : gset string;
  saved_folder_checks : gmap string bool;
  enable_timeouts : bool;
  copy_entire_tree_var : bool;
  current_profile : string;
  (** Not in the source: the canonical path of every directory that
      [add_directory_contents] was called on since [visited_dirs] was last
      reset, oldest first.  Nothing reads it. *)
  expanded : list string;
  (** Not in the source: the directories, by the path they were called
      with, whose [for item in items] loop has run to its end since
      [visited_dirs] was last reset.  Nothing reads it. *)
  listed : list string
}.

Definition with_tree (t : gmap string node) (a : App) : App :=
  {| root_folders := root_folders a; ignore_patterns := ignore_patterns a;
     filter_system_folders := filter_system_folders a;
     folder_tree_data := t; visited_dirs := visited_dirs a;
     saved_folder_checks := saved_folder_checks a;
     enable_timeouts := enable_timeouts a;
     copy_entire_tree_var := copy_entire_tree_var a;
     current_profile := current_profile a; expanded := expanded a;
     listed := listed a |}.

Definition with_visited (v : gset string) (a : App) : App :=
  {| root_folders := root_folders a; ignore_patterns := ignore_patterns a;
     filter_system_folders := filter_system_folders a;
     folder_tree_data := folder_tree_data a; visited_dirs := v;
     saved_folder_checks := saved_folder_checks a;
     enable_timeouts := enable_timeouts a;
     copy_entire_tree_var := copy_entire_tree_var a;
     current_profile := current_profile a; expanded := expanded a;
     listed := listed a |}.

Definition with_expanded (e : list string) (a : App) : App :=
  {| root_folders := root_folders a; ignore_patterns := ignore_patterns a;
     filter_system_folders := filter_system_folders a;
     folder_tree_data := folder_tree_data a; visited_dirs := visited_dirs a;
     saved_folder_checks := saved_folder_checks a;
     enable_timeouts := enable_timeouts a;
     copy_entire_tree_var := copy_entire_tree_var a;
     current_profile := current_profile a; expanded := e;
     listed := listed a |}.

Definition with_listed (l : list string) (a : App) : App :=
  {| root_folders := root_folders a; ignore_patterns := ignore_patterns a;
     filter_system_folders := filter_system_folders a;
     folder_tree_data := folder_tree_data a; visited_dirs := visited_dirs a;
     saved_folder_checks := saved_folder_checks a;
     enable_timeouts := enable_timeouts a;
     copy_entire_tree_var := copy_entire_tree_var a;
     current_profile := current_profile a; expanded := expanded a;
     listed := l |}.

Definition with_saved_checks (s : gmap string bool) (a : App) : App :=
  {| root_folders := root_folders a; ignore_patterns := ignore_patterns a;
     filter_system_folders := filter_system_folders a;
     folder_tree_data := folder_tree_data a; visited_dirs := visited_dirs a;
     saved_folder_checks := s;
     enable_timeouts := enable_timeouts a;
     copy_entire_tree_var := copy_entire_tree_var a;
     current_profile := current_profile a; expanded := expanded a;
     listed := listed a |}.

Definition with_enable_timeouts (b : bool) (a : App) : App :=
  {| root_folders := root_folders a; ignore_patterns := ignore_patterns a;
     filter_system_folders := filter_system_folders a;
     folder_tree_data := folder_tree_data a; visited_dirs := visited_dirs a;
     saved_folder_checks := saved_folder_checks a;
     enable_timeouts := b;
     copy_entire_tree_var := copy_entire_tree_var a;
     current_profile := current_profile a; expanded := expanded a;
     listed := listed a |}.

(** [p in self.folder_tree_data] *)
Definition in_tree (p : string) (a : App) : bool :=
  bool_decide (is_Some (folder_tree_data a !! p)).

(** [p in self.visited_dirs] *)
Definition in_visited (p : string) (a : App) : bool :=
  bool_decide (p ∈ visited_dirs a).

(* ===================================================================== *)
(** ** IGNORE PATTERNS: [filters_match]                                   *)
(* ===================================================================== *)

(** [self.default_ignore_patterns] *)
Definition default_ignore_patterns : list string :=
  [ "*/.git/*"; "*/.venv/*"; "*/__pycache__/*"; "*/.vs/*"; "*/.vscode/*";
    "*/.idea/*"; "*/node_modules/*"; "*/build/*"; "*/dist/*"; "*/.svn/*";
    "*/.DS_Store" ].

(** One round of [for pat in pats: pclean = pat.strip(); if pclean and
    fnmatch.fnmatch(fpath, pclean): return True]. *)
Fixpoint any_pattern_matches (fpath : string) (pats : list string) : bool :=
  match pats with
  | [] => false
  | pat :: pats' =>
      let pclean := PyStr.strip pat in
      if negb (String.eqb pclean "") && Fnmatch.fnmatch fpath pclean then true
      else any_pattern_matches fpath pats'
  end.

(** [basename.startswith('.') and len(basename) > 1] *)
Definition hidden_basename (basename : string) : bool :=
  PyStr.startswith basename "." && (1 <? String.length basename).

Definition filters_match (a : App) (path : string) : bool :=
  let fpath := PyStr.replace_char PyStr.backslash PyStr.slash path in
  if any_pattern_matches fpath (ignore_patterns a) then true
  else if filter_system_folders a then
    if any_pattern_matches fpath default_ignore_patterns then true
    else if hidden_basename (PyStr.basename path) then true
    else false
  else false.

(* ===================================================================== *)
(** ** [is_potentially_problematic_path] and the access probe             *)
(* ===================================================================== *)

Definition FOLDER_LOADING_TIMEOUT : Q := 60.
Definition FOLDER_ACCESS_TIMEOUT : Q := 10.

Section Scanner.

Variable fs : FS.

Definition is_potentially_problematic_path (path : string) : bool :=
  if PyStr.startswith path "\\" || PyStr.startswith path "//" then true
  else if existsb (PyStr.startswith (PyStr.lower path))
                  ["ftp://"; "sftp://"; "ftps://"] then true
  else if 200 <? String.length path then true
  else if negb (fs_exists fs path) then true
  else false.

(** For a path that is not flagged, existence and [isdir]; for a flagged
    one, the probe: [False] when it times out, else whether the path
    exists (the capped listing inside the probe swallows its errors). *)
Definition check_folder_access_with_timeout (folder_path : string) : bool :=
  if negb (is_potentially_problematic_path folder_path)
  then fs_exists fs folder_path && fs_isdir fs folder_path
  else if fs_probe_times_out fs folder_path then false
  else fs_exists fs folder_path.

(* =================================================================== *)
(** ** BUILDING/REFRESHING TREE                                         *)
(* =================================================================== *)

(** A [for] loop whose body may run out of fuel. *)
Fixpoint for_each {A : Type} (body : App -> A -> option App)
         (l : list A) (a : App) : option App :=
  match l with
  | [] => Some a
  | x :: l' =>
      match body a x with
      | Some a' => for_each body l' a'
      | None => None
      end
  end.

(** The body of [for item in items] in [add_directory_contents];
    [recurse] is the recursive call. *)
Definition add_item (recurse : string -> App -> option App)
           (directory_path : string) (a : App) (item : string) : option App :=
  let path := PyStr.join directory_path item in
  if filters_match a path then Some a
  else
    match fs_samefile fs directory_path path with
    | None => Some a
    | Some true => Some a
    | Some false =>
        let child_real := fs_realpath fs path in
        if in_visited child_real a && fs_isdir fs path then Some a
        else
          let is_dir := fs_isdir fs path in
          let a1 := with_tree (<[path := Node false is_dir]> (folder_tree_data a)) a in
          if is_dir then
            let a2 := with_visited ({[child_real]} ∪ visited_dirs a1) a1 in
            if negb (is_potentially_problematic_path path)
            then recurse path a2
            else Some a2
          else Some a1
    end.

(** [None] only when the fuel runs out.  The updates of [expanded] (on
    entry) and of [listed] (after the loop) keep the two logs; they are
    not in the source. *)
Fixpoint add_directory_contents (fuel : nat) (directory_path : string)
         (a : App) : option App :=
  match fuel with
  | O => None
  | S fuel' =>
      let a := with_expanded (expanded a ++ [fs_realpath fs directory_path]) a in
      let accessible :=
        if is_potentially_problematic_path directory_path
        then check_folder_access_with_timeout directory_path
        else fs_exists fs directory_path && fs_isdir fs directory_path in
      if negb accessible then Some a
      else
        match fs_listdir fs directory_path with
        | None => Some a
        | Some items =>
            match for_each (add_item (add_directory_contents fuel') directory_path)
                           (sorted items) a with
            | Some a' => Some (with_listed (listed a' ++ [directory_path]) a')
            | None => None
            end
        end
  end.

(** The [except Exception] branch of the source is not reachable here:
    every [os] call that can raise is handled inside
    [add_directory_contents]. *)
Definition build_tree_for (fuel : nat) (a : App) (folder : string) : option App :=
  if negb (check_folder_access_with_timeout folder) then Some a
  else
    let realp := fs_realpath fs folder in
    if in_visited realp a then Some a
    else
      let a1 := with_visited ({[realp]} ∪ visited_dirs a) a in
      let a2 := if in_tree folder a1 then a1
                else with_tree (<[folder := Node false true]> (folder_tree_data a1)) a1 in
      add_directory_contents fuel folder a2.

(** [for path, checked in self.saved_folder_checks.items(): ...] *)
Definition apply_saved_checks (a : App) : App :=
  with_tree
    (map_fold (fun path chk t =>
                 if bool_decide (is_Some (t !! path)) && negb (filters_match a path)
                 then alter (set_checked chk) path t
                 else t)
              (folder_tree_data a) (saved_folder_checks a))
    a.

(** [_delayed_apply_remaining_checks], run by a timer 500 ms after
    [apply_saved_checks]: a saved path that has an entry whose check mark
    differs from the saved one gets the saved one, unless the filters
    match it.  (The paths without entry are only counted.) *)
Definition _delayed_apply_remaining_checks (a : App) : App :=
  with_tree
    (map_fold (fun path chk t =>
                 match t !! path with
                 | None => t
                 | Some n =>
                     if negb (Bool.eqb (checked n) chk)
                        && negb (filters_match a path)
                     then alter (set_checked chk) path t
                     else t
                 end)
              (folder_tree_data a) (saved_folder_checks a))
    a.

(** [_clear_saved_checks], run by a timer after 2 s. *)
Definition _clear_saved_checks (a : App) : App := with_saved_checks ∅ a.

Definition build_all_trees (fuel : nat) (a : App) : option App :=
  let a0 := with_listed [] (with_expanded [] (with_visited ∅ (with_tree ∅ a))) in
  match for_each (fun a folder =>
                    if negb (fs_exists fs folder) then Some a
                    else build_tree_for fuel a folder)
                 (root_folders a0) a0 with
  | Some a1 => Some (apply_saved_checks a1)
  | None => None
  end.

(* =================================================================== *)
(** ** POLLING                                                          *)
(* =================================================================== *)

(** How a pass of [poll_folder] ends: normally, or with the [OSError] of
    an unguarded [os.path.samefile]; the state written so far stays. *)
Inductive outcome : Type :=
| Finished (a : App)
| Raised (a : App).

Definition state_of (o : outcome) : App :=
  match o with Finished a => a | Raised a => a end.

Fixpoint for_each_raising {A : Type} (body : App -> A -> outcome)
         (l : list A) (a : App) : outcome :=
  match l with
  | [] => Finished a
  | x :: l' =>
      match body a x with
      | Finished a' => for_each_raising body l' a'
      | Raised a' => Raised a'
      end
  end.

(** The body of [for d in dirs] ([as_dir = true]) and of [for f in files]
    ([as_dir = false]). *)
Definition poll_entry (as_dir : bool) (root : string) (a : App)
           (name : string) : outcome :=
  let p := PyStr.join root name in
  let real := fs_realpath fs p in
  if filters_match a p || in_visited real a then Finished a
  else
    match fs_samefile fs root p with
    | None => Raised a
    | Some true => Finished a
    | Some false =>
        if in_tree p a then Finished a
        else
          let a1 := with_tree (<[p := Node false as_dir]> (folder_tree_data a)) a in
          Finished (with_visited ({[real]} ∪ visited_dirs a1) a1)
    end.

(** The body of [for root, dirs, files in os.walk(folder)]. *)
Definition poll_triple (a : App)
           (t : string * list string * list string) : outcome :=
  let '(root, dirs, files) := t in
  let root_real := fs_realpath fs root in
  if filters_match a root || in_visited root_real a then Finished a
  else
    let a1 :=
      if in_tree root a then a
      else
        let a' := with_tree (<[root := Node false true]> (folder_tree_data a)) a in
        with_visited ({[root_real]} ∪ visited_dirs a') a' in
    match for_each_raising (poll_entry true root) dirs a1 with
    | Finished a2 => for_each_raising (poll_entry false root) files a2
    | Raised a2 => Raised a2
    end.

Definition poll_folder (a : App) : outcome :=
  for_each_raising
    (fun a folder =>
       if negb (fs_exists fs folder) then Finished a
       else for_each_raising poll_triple (fs_walk fs folder) a)
    (root_folders a) a.

(** [schedule_folder_poll], [n] timer ticks: a pass that raises is not
    followed by [self.master.after], so polling stops there. *)
Fixpoint schedule_folder_poll (n : nat) (a : App) : App :=
  match n with
  | O => a
  | S n' =>
      match poll_folder a with
      | Finished a' => schedule_folder_poll n' a'
      | Raised a' => a'
      end
  end.

(* =================================================================== *)
(** ** COPY TO CLIPBOARD: [validate_checked_items] and the exports      *)
(* =================================================================== *)

(** [for path in self.folder_tree_data], in the order the dict yields
    its keys. *)
Definition tree_keys (a : App) : list string := (map_to_list (folder_tree_data a)).*1.

Definition is_checked (t : gmap string node) (path : string) : bool :=
  match t !! path with
  | Some n => checked n
  | None => false
  end.

(** First loop: uncheck what the filters match, collect the rest. *)
Definition validate_visible (a : App) (st : gmap string node * gset string)
           (path : string) : gmap string node * gset string :=
  let '(t, visible_paths) := st in
  if filters_match a path then
    if is_checked t path then (alter (set_checked false) path t, visible_paths)
    else (t, visible_paths)
  else (t, {[path]} ∪ visible_paths).

(** Second loop: uncheck what is not visible. *)
Definition validate_uncheck (visible_paths : gset string)
           (t : gmap string node) (path : string) : gmap string node :=
  if negb (bool_decide (path ∈ visible_paths)) && is_checked t path
  then alter (set_checked false) path t
  else t.

Definition validate_checked_items (a : App) : App :=
  let '(t1, visible_paths) :=
    foldl (validate_visible a) (folder_tree_data a, ∅) (tree_keys a) in
  with_tree (foldl (validate_uncheck visible_paths) t1 (tree_keys a)) a.

(** [\[path for path, info in self.folder_tree_data.items() if keep(info)\]],
    then [.sort()]. *)
Definition sorted_paths_where (keep : node -> bool) (a : App) : list string :=
  sorted (map fst (List.filter (fun kv => keep (snd kv))
                               (map_to_list (folder_tree_data a)))).

Definition is_dir_in (a : App) (path : string) : bool :=
  match folder_tree_data a !! path with
  | Some n => is_dir n
  | None => false
  end.

(** [l.remove(x)]: the first occurrence goes. *)
Fixpoint remove_first (x : string) (l : list string) : list string :=
  match l with
  | [] => []
  | y :: l' => if String.eqb x y then l' else y :: remove_first x l'
  end.

(** The lines for the checked files directly inside one checked
    directory; every one but the last is drawn with a tee. *)
Fixpoint child_lines (child_files : list string) : list string :=
  match child_files with
  | [] => []
  | [child] => ["    └── " +:+ PyStr.basename child]
  | child :: rest => ("    ├── " +:+ PyStr.basename child) :: child_lines rest
  end.

(** The body of [for dir_path in checked_dirs]; the state is [lines] and
    the shrinking [checked_files]. *)
Definition checked_dir_step (st : list string * list string)
           (dir_path : string) : list string * list string :=
  let '(lines, checked_files) := st in
  let child_files :=
    sorted (List.filter (fun f => String.eqb (PyStr.dirname f) dir_path)
                        checked_files) in
  (lines ++ [dir_path] ++ child_lines child_files,
   foldl (fun cf child => remove_first child cf) checked_files child_files).

(** [build_checked_file_tree_text], as the list that is joined with
    newlines. *)
Definition build_checked_file_tree_text (a : App) : list string :=
  match root_folders a with
  | [] => ["No folders selected."]
  | _ :: _ =>
      let checked_paths := sorted_paths_where checked a in
      match checked_paths with
      | [] => ["(No items selected)"]
      | _ :: _ =>
          let checked_dirs := List.filter (is_dir_in a) checked_paths in
          let checked_files :=
            List.filter (fun p => negb (is_dir_in a p)) checked_paths in
          let '(lines, remaining) :=
            foldl checked_dir_step ([], checked_files) checked_dirs in
          lines ++ remaining
      end
  end.

(** [recurse(path, prefix)] of [build_full_file_tree_text]; [None] only
    when the fuel runs out. *)
Fixpoint full_tree_recurse (fuel : nat) (a : App) (path prefix : string)
  : option (list string) :=
  match fuel with
  | O => None
  | S fuel' =>
      let basename := if String.eqb (PyStr.basename path) "" then path
                      else PyStr.basename path in
      let first := if String.eqb prefix "" then path else prefix +:+ basename in
      let children :=
        List.filter (fun p => String.eqb (PyStr.dirname p) path) (tree_keys a) in
      let subdirs := sorted (List.filter (is_dir_in a) children) in
      let subfiles := sorted (List.filter (fun c => negb (is_dir_in a c)) children) in
      let all_items := subdirs ++ subfiles in
      let below :=
        (fix each (items : list string) : option (list string) :=
           match items with
           | [] => Some []
           | child :: rest =>
               let branch := match rest with [] => "└── " | _ :: _ => "├── " end in
               let here :=
                 if is_dir_in a child
                 then full_tree_recurse fuel' a child (prefix +:+ branch)
                 else Some [prefix +:+ branch +:+ PyStr.basename child] in
               match here, each rest with
               | Some l1, Some l2 => Some (l1 ++ l2)
               | _, _ => None
               end
           end) all_items in
      match below with
      | Some l => Some (first :: l)
      | None => None
      end
  end.

Fixpoint full_tree_roots (fuel : nat) (a : App) (roots : list string)
  : option (list string) :=
  match roots with
  | [] => Some []
  | rf :: roots' =>
      let here := if fs_exists fs rf && in_tree rf a
                  then full_tree_recurse fuel a rf ""
                  else Some [] in
      match here, full_tree_roots fuel a roots' with
      | Some l1, Some l2 => Some (l1 ++ l2)
      | _, _ => None
      end
  end.

Definition build_full_file_tree_text (fuel : nat) (a : App) : option (list string) :=
  match root_folders a with
  | [] => Some ["No folders selected."]
  | _ :: _ => full_tree_roots fuel a (root_folders a)
  end.

Section FileContents.

(** What the source computes per file and this development leaves
    open: the fence label ([splitext], [lstrip('.')], default [txt])
    and the text that goes between the fences (the file as read, with
    comments stripped on request, or the error notice). *)
Variable fence_label : string -> string.
Variable fence_text : string -> string.

Definition file_block (path : string) : list string :=
  [ "File: " +:+ path; "```" +:+ fence_label path; fence_text path; "```"; "" ].

(** The checked files, sorted. *)
Definition checked_files (a : App) : list string :=
  sorted_paths_where (fun n => checked n && negb (is_dir n)) a.

Definition build_file_contents_text (a : App) : list string :=
  concat (map file_block (checked_files a)).

(** The [<file_tree>] and [<file_contents>] blocks that
    [on_copy_to_clipboard] and [on_copy_to_temp_file] assemble, and the
    state they leave. *)
Definition on_copy_to_clipboard (fuel : nat) (a : App)
  : option (list string * list string * App) :=
  let a' := validate_checked_items a in
  let file_tree_block :=
    if copy_entire_tree_var a' then build_full_file_tree_text fuel a'
    else Some (build_checked_file_tree_text a') in
  match file_tree_block with
  | Some tree => Some (tree, build_file_contents_text a', a')
  | None => None
  end.

End FileContents.

End Scanner.

(* ===================================================================== *)
(** ** SAVE / LOAD                                                        *)
(* ===================================================================== *)

(** The keys of the settings file that the scanner reads back.  A JSON
    object of strings to booleans is read back as it was written. *)
Record Settings : Type := {
  s_root_folders : list string;
  s_folder_checks : gmap string bool;
  s_ignore_patterns : list string;
  s_copy_entire_tree : bool;
  s_filter_system_folders : bool;
  s_enable_timeouts : bool
}.

(** [save_settings] / [save_profile]: the [data] that is dumped. *)
Definition save_settings (a : App) : Settings :=
  {| s_root_folders := root_folders a;
     s_folder_checks :=
       map_fold (fun path info fc => <[path := checked info]> fc) ∅
                (folder_tree_data a);
     s_ignore_patterns := ignore_patterns a;
     s_copy_entire_tree := copy_entire_tree_var a;
     s_filter_system_folders := filter_system_folders a;
     s_enable_timeouts := enable_timeouts a |}.

(** [load_settings] when the file exists and parses: clear, read the keys,
    then [build_all_trees]. *)
Definition load_settings (fs : FS) (fuel : nat) (data : Settings) (a : App)
  : option App :=
  build_all_trees fs fuel
    {| root_folders := s_root_folders data;
       ignore_patterns := s_ignore_patterns data;
       filter_system_folders := s_filter_system_folders data;
       folder_tree_data := ∅;
       visited_dirs := ∅;
       saved_folder_checks := s_folder_checks data;
       enable_timeouts := s_enable_timeouts data;
       copy_entire_tree_var := s_copy_entire_tree data;
       current_profile := current_profile a;
       expanded := expanded a;
       listed := listed a |}.

(* ===================================================================== *)
(** ** [LoadingDialog]: the cancellation flag                             *)
(* ===================================================================== *)

(** The values of [self.cancelled]: [False], ["skip"], ["cancel"],
    ["disable_timeouts"]. *)
Inductive cancel_value : Type :=
| NotCancelled
| CSkip
| CCancel
| CDisableTimeouts.

#[global] Instance cancel_value_eq_dec : EqDecision cancel_value.
Proof. solve_decision. Defined.

Record LoadingDialog : Type := {
  cancelled : cancel_value;
  (** [disable_timeout_button] is still packed *)
  disable_button_shown : bool
}.

(** [LoadingDialog.__init__] *)
Definition new_dialog : LoadingDialog :=
  {| cancelled := NotCancelled; disable_button_shown := true |}.

Definition on_skip (d : LoadingDialog) : LoadingDialog :=
  {| cancelled := CSkip; disable_button_shown := disable_button_shown d |}.

(** Also bound to [WM_DELETE_WINDOW]. *)
Definition on_cancel (d : LoadingDialog) : LoadingDialog :=
  {| cancelled := CCancel; disable_button_shown := disable_button_shown d |}.

(** Sets the flag and [pack_forget]s its own button; the two other buttons
    are relabelled and stay. *)
Definition on_disable_timeouts (d : LoadingDialog) : LoadingDialog :=
  {| cancelled := CDisableTimeouts; disable_button_shown := false |}.

Definition is_cancelled (d : LoadingDialog) : bool :=
  negb (bool_decide (cancelled d = NotCancelled)).

Definition get_cancel_type (d : LoadingDialog) : cancel_value := cancelled d.

(** What the operator can do to the dialog. *)
Inductive button : Type :=
| SkipButton
| CancelButton
| DisableTimeoutsButton.

(** One click; a button that is not shown cannot be clicked. *)
Definition click (d : LoadingDialog) (b : button) : LoadingDialog :=
  match b with
  | SkipButton => on_skip d
  | CancelButton => on_cancel d
  | DisableTimeoutsButton =>
      if disable_button_shown d then on_disable_timeouts d else d
  end.

Definition clicks (d : LoadingDialog) (bs : list button) : LoadingDialog :=
  foldl click d bs.

(** The number of clicks in [bs] that change [cancelled]. *)
Fixpoint writer_transitions (d : LoadingDialog) (bs : list button) : nat :=
  match bs with
  | [] => 0
  | b :: bs' =>
      (if bool_decide (cancelled (click d b) = cancelled d) then 0 else 1)
      + writer_transitions (click d b) bs'
  end.

(* ===================================================================== *)
(** ** The thread-based watchdog                                          *)
(* ===================================================================== *)

(** How a watched load ends. *)
Inductive watch_result : Type :=
| Completed          (** returns normally *)
| WorkerFailed       (** re-raises what the worker put on [exception_queue] *)
| UserCancelled      (** [TimeoutError("User cancelled loading")] *)
| TimedOut           (** [TimeoutError("... timed out after ...")] *)
| Blocked            (** [thread.join()] with no timeout on a worker that
                         never ends *)
| StillWatching.     (** the observations end while the loop is running *)

#[global] Instance watch_result_eq_dec : EqDecision watch_result.
Proof. solve_decision. Defined.

(** What the controller observes in one turn of [while thread.is_alive()]. *)
Record tick : Type := {
  (** [self.enable_timeouts.set(...)] done by the worker since the last
      turn, if any *)
  t_worker_sets_enable : option bool;
  (** [thread.is_alive()] *)
  t_alive : bool;
  (** [self.master.update()] returns; [false]: it raises *)
  t_update_ok : bool;
  (** the buttons clicked, handled inside [self.master.update()] *)
  t_clicks : list button;
  (** [time.time() - start_time] at the timeout check *)
  t_elapsed : Q
}.

(** What is observed after the loop. *)
Record after_loop : Type := {
  (** the worker is still alive once [thread.join(timeout=wait_time)] has
      waited *)
  j_alive_after_wait : bool;
  (** [exception_queue] is not empty *)
  j_worker_raised : bool
}.

Record watch_state : Type := {
  w_app : App;
  w_dialog : LoadingDialog;
  w_timeouts_disabled : bool;
  (** [cancel_flag.is_set()] *)
  w_cancel_flag : bool
}.

Definition worker_write (o : option bool) (a : App) : App :=
  match o with
  | Some b => with_enable_timeouts b a
  | None => a
  end.

(** [x > y] and [x < y] on clock readings. *)
Definition Qgtb (x y : Q) : bool := negb (Qle_bool x y).

Inductive loop_exit : Type :=
| LoopTimedOut (st : watch_state)
| LoopLeft (st : watch_state)
| LoopRunning (st : watch_state).

(** One turn of the loop of [load_settings_windows_timeout_with_dialog]:
    [inl] to go on (after [time.sleep(0.1)]), [inr] when the loop is left. *)
Definition watch_turn (t : tick) (st : watch_state) : watch_state + loop_exit :=
  let app := worker_write (t_worker_sets_enable t) (w_app st) in
  let st := {| w_app := app; w_dialog := w_dialog st;
               w_timeouts_disabled := w_timeouts_disabled st;
               w_cancel_flag := w_cancel_flag st |} in
  if negb (t_alive t) then inr (LoopLeft st)
  else if negb (t_update_ok t) then inr (LoopLeft st)
  else
    let d := clicks (w_dialog st) (t_clicks t) in
    let st := {| w_app := w_app st; w_dialog := d;
                 w_timeouts_disabled := w_timeouts_disabled st;
                 w_cancel_flag := w_cancel_flag st |} in
    let checked_timeouts (st : watch_state) : watch_state + loop_exit :=
      if negb (w_timeouts_disabled st) && enable_timeouts (w_app st) then
        if Qgtb (t_elapsed t) FOLDER_LOADING_TIMEOUT then
          inr (LoopTimedOut {| w_app := w_app st; w_dialog := w_dialog st;
                               w_timeouts_disabled := w_timeouts_disabled st;
                               w_cancel_flag := true |})
        else inl st
      else inl st in
    if is_cancelled d then
      match get_cancel_type d with
      | CDisableTimeouts =>
          checked_timeouts
            {| w_app := with_enable_timeouts false (w_app st); w_dialog := d;
               w_timeouts_disabled := true;
               w_cancel_flag := w_cancel_flag st |}
      | CSkip | CCancel =>
          inr (LoopLeft {| w_app := w_app st; w_dialog := d;
                           w_timeouts_disabled := w_timeouts_disabled st;
                           w_cancel_flag := true |})
      | NotCancelled => checked_timeouts st
      end
    else checked_timeouts st.

Fixpoint watch_loop (ticks : list tick) (st : watch_state) : loop_exit :=
  match ticks with
  | [] => LoopRunning st
  | t :: ticks' =>
      match watch_turn t st with
      | inl st' => watch_loop ticks' st'
      | inr e => e
      end
  end.

(** The code after the loop. *)
Definition watch_finish (j : after_loop) (st : watch_state)
  : watch_result * watch_state :=
  let bounded_wait := enable_timeouts (w_app st) && negb (w_timeouts_disabled st) in
  if negb bounded_wait && j_alive_after_wait j then (Blocked, st)
  else if is_cancelled (w_dialog st)
          && negb (bool_decide (get_cancel_type (w_dialog st) = CDisableTimeouts))
  then (UserCancelled, st)
  else if j_alive_after_wait j && enable_timeouts (w_app st)
          && negb (w_timeouts_disabled st)
  then (TimedOut, {| w_app := w_app st; w_dialog := w_dialog st;
                     w_timeouts_disabled := w_timeouts_disabled st;
                     w_cancel_flag := true |})
  else if j_worker_raised j then (WorkerFailed, st)
  else (Completed, st).

(** [load_settings_windows_timeout_with_dialog], on the observations
    [ticks] and [j]; [timeouts_disabled] and [cancel_flag] start cleared. *)
Definition load_settings_windows_timeout_with_dialog
           (ticks : list tick) (j : after_loop) (a : App) (d : LoadingDialog)
  : watch_result * watch_state :=
  let st0 := {| w_app := a; w_dialog := d;
                w_timeouts_disabled := false; w_cancel_flag := false |} in
  match watch_loop ticks st0 with
  | LoopTimedOut st => (TimedOut, st)
  | LoopLeft st => watch_finish j st
  | LoopRunning st => (StillWatching, st)
  end.




(* ===================================================================== *)
(** ** [find_working_fallback_profile]                                    *)
(* ===================================================================== *)

(** What opening a profile's settings file gives. *)
Inductive profile_file : Type :=
| Missing                               (** the file does not exist *)
| Unreadable                            (** reading it raises *)
| Readable (root_folders : list string) (** its [root_folders] *).

Section Fallback.

Variable fs : FS.

(** The settings file of a profile, by profile name ([CONFIG_FILE] for
    ["default"]). *)
Variable read_profile : string -> profile_file.

(** [\["default"\] + \[p for p in available_profiles if p != "default"\]] *)
Definition fallback_candidates (available_profiles : list string) : list string :=
  "default" :: List.filter (fun p => negb (String.eqb p "default")) available_profiles.

(** The [for profile_name in ...] loop, with [return "default"] after
    it. *)
Fixpoint fallback_loop (current_profile : string) (names : list string) : string :=
  match names with
  | [] => "default"
  | profile_name :: names' =>
      if String.eqb profile_name current_profile
      then fallback_loop current_profile names'
      else
        match read_profile profile_name with
        | Missing =>
            if String.eqb profile_name "default" then "default"
            else fallback_loop current_profile names'
        | Unreadable => fallback_loop current_profile names'
        | Readable root_folders =>
            if existsb (is_potentially_problematic_path fs) root_folders
            then fallback_loop current_profile names'
            else profile_name
        end
  end.

(** [available_profiles] is what [get_available_profiles()] returned. *)
Definition find_working_fallback_profile (a : App)
           (available_profiles : list string) : string :=
  fallback_loop (current_profile a) (fallback_candidates available_profiles).

(** The reading of "a profile that can be fallen back to", in the words
    of the design: the default profile when it has no settings file
    yet, or a profile whose settings can be read and list no flagged
    root folder. *)
Definition fallback_qualifies (profile_name : string) : bool :=
  match read_profile profile_name with
  | Missing => String.eqb profile_name "default"
  | Unreadable => false
  | Readable root_folders =>
      negb (existsb (is_potentially_problematic_path fs) root_folders)
  end.

(** The first candidate, in preference order and the failed profile left
    out, that qualifies; ["default"] when there is none. *)
Definition first_qualifying (current_profile : string)
           (available_profiles : list string) : string :=
  match List.find fallback_qualifies
                  (List.filter (fun p => negb (String.eqb p current_profile))
                               (fallback_candidates available_profiles)) with
  | Some p => p
  | None => "default"
  end.

End Fallback.

(* ===================================================================== *)
(** ** A finite file system with links                                    *)
(* ===================================================================== *)

(** A concrete [FS]: finitely many files and directories, and directory
    entries that may be symbolic links to any of them, so that a directory
    can be reached under many names and cycles are possible.  Paths are
    resolved from [/], which is also the working directory; [.] and [..]
    are not entries of any directory. *)
Module GraphFS.

Inductive kind : Type := KDir | KFile.

Record entry : Type := Entry {
  e_name : string;
  e_target : nat;
  e_is_link : bool
}.

Record gnode : Type := GNode {
  g_canon : string;
  g_kind : kind;
  g_entries : list entry
}.

(** Node [0] is the root directory [/]. *)
Definition graph : Type := list gnode.

(** The components of a path: the text between slashes, empty ones
    dropped. *)
Fixpoint components (acc : list ascii) (l : list ascii) : list string :=
  match l with
  | [] => match acc with [] => [] | _ => [PyStr.of_chars (rev acc)] end
  | c :: l' =>
      if Ascii.eqb c PyStr.slash then
        match acc with
        | [] => components [] l'
        | _ => PyStr.of_chars (rev acc) :: components [] l'
        end
      else components (c :: acc) l'
  end.

Definition split_path (p : string) : list string := components [] (PyStr.chars p).

Definition is_dir_node (g : graph) (n : nat) : bool :=
  match g !! n with
  | Some (GNode _ KDir _) => true
  | _ => false
  end.

Definition find_entry (name : string) (es : list entry) : option nat :=
  match List.find (fun e => String.eqb (e_name e) name) es with
  | Some e => Some (e_target e)
  | None => None
  end.

Fixpoint resolve_from (g : graph) (cur : nat) (comps : list string) : option nat :=
  match comps with
  | [] => match g !! cur with Some _ => Some cur | None => None end
  | c :: comps' =>
      match g !! cur with
      | Some (GNode _ KDir es) =>
          match find_entry c es with
          | Some n => resolve_from g n comps'
          | None => None
          end
      | _ => None
      end
  end.

Definition resolve (g : graph) (p : string) : option nat :=
  resolve_from g 0 (split_path p).

Definition g_exists (g : graph) (p : string) : bool :=
  match resolve g p with Some _ => true | None => false end.

Definition g_isdir (g : graph) (p : string) : bool :=
  match resolve g p with Some n => is_dir_node g n | None => false end.

Definition g_listdir (g : graph) (p : string) : option (list string) :=
  match resolve g p with
  | Some n =>
      match g !! n with
      | Some (GNode _ KDir es) => Some (map e_name es)
      | _ => None
      end
  | None => None
  end.

Definition g_realpath (g : graph) (p : string) : string :=
  match resolve g p with
  | Some n => match g !! n with Some nd => g_canon nd | None => p end
  | None => p
  end.

Definition g_samefile (g : graph) (p q : string) : option bool :=
  match resolve g p, resolve g q with
  | Some n, Some m => Some (Nat.eqb n m)
  | _, _ => None
  end.

(** [os.walk] from the directory node [n] named [top]; a linked
    directory is listed among [dirs] and not entered.  The fuel bounds
    the depth. *)
Fixpoint walk_from (fuel : nat) (g : graph) (top : string) (n : nat)
  : list (string * list string * list string) :=
  match fuel with
  | O => []
  | S fuel' =>
      match g !! n with
      | Some (GNode _ KDir es) =>
          let dirs := List.filter (fun e => is_dir_node g (e_target e)) es in
          let files := List.filter (fun e => negb (is_dir_node g (e_target e))) es in
          (top, map e_name dirs, map e_name files)
            :: concat (map (fun e =>
                              if e_is_link e then []
                              else walk_from fuel' g (PyStr.join top (e_name e))
                                             (e_target e))
                           dirs)
      | _ => []
      end
  end.

Definition g_walk (g : graph) (top : string)
  : list (string * list string * list string) :=
  match resolve g top with
  | Some n => walk_from (length g) g top n
  | None => []
  end.

Definition to_fs (g : graph) : FS :=
  {| fs_exists := g_exists g;
     fs_isdir := g_isdir g;
     fs_listdir := g_listdir g;
     fs_realpath := g_realpath g;
     fs_samefile := g_samefile g;
     fs_probe_times_out := fun _ => false;
     fs_walk := g_walk g |}.

(** The canonical paths of the directories of [g]. *)
Definition canonical_dirs (g : graph) : gset string :=
  list_to_set (map g_canon (List.filter
                 (fun nd => match g_kind nd with KDir => true | KFile => false end) g)).

End GraphFS.

(** A freshly constructed application: no roots, no patterns, system
    folders filtered, timeouts enabled, the default profile. *)
Definition initial_app : App :=
  {| root_folders := []; ignore_patterns := [];
     filter_system_folders := true;
     folder_tree_data := ∅; visited_dirs := ∅; saved_folder_checks := ∅;
     enable_timeouts := true; copy_entire_tree_var := false;
     current_profile := "default"; expanded := [];
     listed := [] |}.

Definition configure (roots patterns : list string) (filter_system : bool)
           (a : App) : App :=
  {| root_folders := roots; ignore_patterns := patterns;
     filter_system_folders := filter_system;
     folder_tree_data := folder_tree_data a; visited_dirs := visited_dirs a;
     saved_folder_checks := saved_folder_checks a;
     enable_timeouts := enable_timeouts a;
     copy_entire_tree_var := copy_entire_tree_var a;
     current_profile := current_profile a; expanded := expanded a;
     listed := listed a |}.

(** The tree of the scenario: [/proj/.git/config], [/proj/src/a.py],
    [/proj/src/a.py~]. *)
Definition proj_graph : GraphFS.graph :=
  [ GraphFS.GNode "/" GraphFS.KDir [GraphFS.Entry "proj" 1 false];
    GraphFS.GNode "/proj" GraphFS.KDir
      [GraphFS.Entry "src" 4 false; GraphFS.Entry ".git" 2 false];
    GraphFS.GNode "/proj/.git" GraphFS.KDir [GraphFS.Entry "config" 3 false];
    GraphFS.GNode "/proj/.git/config" GraphFS.KFile [];
    GraphFS.GNode "/proj/src" GraphFS.KDir
      [GraphFS.Entry "a.py~" 6 false; GraphFS.Entry "a.py" 5 false];
    GraphFS.GNode "/proj/src/a.py" GraphFS.KFile [];
    GraphFS.GNode "/proj/src/a.py~" GraphFS.KFile [] ].

Definition proj_app (filter_system : bool) : App :=
  configure ["/proj"] ["*/.git/*"; "*~"] filter_system initial_app.

(* ===================================================================== *)
(** ** What the scan maintains                                            *)
(* ===================================================================== *)

(** The attributes that neither a scan nor a poll writes. *)
Definition same_settings (a a' : App) : Prop :=
  root_folders a = root_folders a'
  /\ ignore_patterns a = ignore_patterns a'
  /\ filter_system_folders a = filter_system_folders a'
  /\ saved_folder_checks a = saved_folder_checks a'
  /\ enable_timeouts a = enable_timeouts a'
  /\ copy_entire_tree_var a = copy_entire_tree_var a'
  /\ current_profile a = current_profile a'.

(** [p] has an entry in [folder_tree_data]. *)
Definition has_entry (a : App) (p : string) : Prop :=
  is_Some (folder_tree_data a !! p).

(** No directory was expanded twice, and every expanded directory is in
    [visited_dirs]. *)
Definition expansions_ok (a : App) : Prop :=
  NoDup (expanded a) /\ forall x, x ∈ expanded a -> x ∈ visited_dirs a.

(** Every entry is a root folder or is not matched by the filters. *)
Definition entries_unfiltered (a : App) : Prop :=
  forall p, has_entry a p -> p ∈ root_folders a \/ filters_match a p = false.

(** Every entry is a root folder or was listed in a directory that has an
    entry itself. *)
Definition entries_enumerated (fs : FS) (a : App) : Prop :=
  forall p, has_entry a p ->
    p ∈ root_folders a
    \/ exists d item items,
         p = PyStr.join d item /\ fs_listdir fs d = Some items
         /\ item ∈ items /\ has_entry a d.

(** The name [item] of the directory [d] has been dealt with: its path is
    matched by the filters, or it is not known to be a file other than
    [d], or it has an entry, or it is a directory whose canonical path is
    in [visited_dirs]. *)
Definition item_settled (fs : FS) (a : App) (d item : string) : Prop :=
  let p := PyStr.join d item in
  filters_match a p = true
  \/ fs_samefile fs d p <> Some false
  \/ has_entry a p
  \/ (fs_isdir fs p = true /\ fs_realpath fs p ∈ visited_dirs a).

(** Every name listed in a directory whose loop has run is dealt with. *)
Definition listings_settled (fs : FS) (a : App) : Prop :=
  forall d items item,
    d ∈ listed a -> fs_listdir fs d = Some items -> item ∈ items ->
    item_settled fs a d item.

Definition scan_invariant (fs : FS) (a : App) : Prop :=
  expansions_ok a /\ entries_unfiltered a /\ entries_enumerated fs a
  /\ listings_settled fs a.

(** From [a] to [a']: the settings are the same, and nothing was taken
    out of [visited_dirs] or [folder_tree_data]. *)
Definition grown (a a' : App) : Prop :=
  same_settings a a'
  /\ visited_dirs a ⊆ visited_dirs a'
  /\ forall p, has_entry a p -> has_entry a' p.

(** What [apply_saved_checks] does to one entry: the saved value replaces
    the check mark unless the filters match the path. *)
Definition restored (a : App) (path : string) (n : node) : node :=
  match saved_folder_checks a !! path with
  | Some chk => if filters_match a path then n else set_checked chk n
  | None => n
  end.

(** What a call of [add_directory_contents] needs and gives, as a
    property of the calls made with [fuel]; [all_dirs] holds the canonical
    paths of all directories. *)
Definition expands_well (fs : FS) (all_dirs : gset string) (fuel : nat) : Prop :=
  forall d a,
    scan_invariant fs a -> has_entry a d ->
    fs_realpath fs d ∈ visited_dirs a -> fs_realpath fs d ∉ expanded a ->
    size (all_dirs ∖ visited_dirs a) < fuel ->
    exists a', add_directory_contents fs fuel d a = Some a'
               /\ scan_invariant fs a' /\ grown a a'.


(** A directory [/a] with a subdirectory [/a/b] and a file, where [/a/self]
    is a link to [/a] itself, [/a/b/up] a link back to the ancestor [/a],
    and [/a/b2] a second name for [/a/b]. *)
Definition cyclic_graph : GraphFS.graph :=
  [ GraphFS.GNode "/" GraphFS.KDir [GraphFS.Entry "a" 1 false];
    GraphFS.GNode "/a" GraphFS.KDir
      [GraphFS.Entry "self" 1 true; GraphFS.Entry "b2" 2 true;
       GraphFS.Entry "b" 2 false];
    GraphFS.GNode "/a/b" GraphFS.KDir
      [GraphFS.Entry "up" 1 true; GraphFS.Entry "f.txt" 3 false];
    GraphFS.GNode "/a/b/f.txt" GraphFS.KFile [] ].

(** A build directory chosen as root folder. *)
Definition build_graph : GraphFS.graph :=
  [ GraphFS.GNode "/" GraphFS.KDir [GraphFS.Entry "proj" 1 false];
    GraphFS.GNode "/proj" GraphFS.KDir [GraphFS.Entry "build" 2 false];
    GraphFS.GNode "/proj/build" GraphFS.KDir [GraphFS.Entry "out.o" 3 false];
    GraphFS.GNode "/proj/build/out.o" GraphFS.KFile [] ].

(** A hidden directory with a subdirectory that is not hidden. *)
Definition cache_graph : GraphFS.graph :=
  [ GraphFS.GNode "/" GraphFS.KDir [GraphFS.Entry "proj" 1 false];
    GraphFS.GNode "/proj" GraphFS.KDir [GraphFS.Entry ".cache" 2 false];
    GraphFS.GNode "/proj/.cache" GraphFS.KDir [GraphFS.Entry "sub" 3 false];
    GraphFS.GNode "/proj/.cache/sub" GraphFS.KDir [GraphFS.Entry "f.txt" 4 false];
    GraphFS.GNode "/proj/.cache/sub/f.txt" GraphFS.KFile [] ].

(** No entry carries a check mark. *)
Definition all_unchecked (a : App) : Prop :=
  forall p n, folder_tree_data a !! p = Some n -> checked n = false.

(** The settings file of the scenario's profile after some use: the file
    [a.py] was checked, its directory was not, and a checked file has
    since been deleted from the disk. *)
Definition proj_settings : Settings :=
  {| s_root_folders := ["/proj"];
     s_folder_checks :=
       <["/proj/src/a.py" := true]>
         (<["/proj/src" := false]> (<["/proj/gone.txt" := true]> ∅));
     s_ignore_patterns := ["*/.git/*"; "*~"];
     s_copy_entire_tree := false;
     s_filter_system_folders := true;
     s_enable_timeouts := true |}.

(** The scenario's application in use: [a.py] is checked, and there is a
    checked entry left for a file that is no longer on the disk. *)
Definition proj_in_use : App :=
  with_tree
    (<["/proj/gone.txt" := Node true false]>
       (<["/proj/src/a.py" := Node true false]>
          (<["/proj/src" := Node false true]>
             (<["/proj" := Node false true]> ∅))))
    (proj_app true).

(** What [validate_checked_items] does to one entry. *)
Definition validated (a : App) (path : string) (n : node) : node :=
  if filters_match a path then set_checked false n else n.

(** The lines that the checked-tree text can draw for the paths [paths]:
    a path itself, or the base name of one behind a tee or an elbow. *)
Definition line_for (paths : list string) (line : string) : Prop :=
  exists p, p ∈ paths
            /\ (line = p
                \/ line = "    ├── " +:+ PyStr.basename p
                \/ line = "    └── " +:+ PyStr.basename p).

(** The build directory as root folder, with the pattern [*/build] that
    matches it, the system-folder filter off (so that its file is
    entered) and "copy entire tree" ticked. *)
Definition build_root_app : App :=
  {| root_folders := ["/proj/build"]; ignore_patterns := ["*/build"];
     filter_system_folders := false;
     folder_tree_data := ∅; visited_dirs := ∅; saved_folder_checks := ∅;
     enable_timeouts := true; copy_entire_tree_var := true;
     current_profile := "default"; expanded := [];
     listed := [] |}.

(** The scenario's tree with a backup file that was entered and checked
    before the pattern [*~] was in force. *)
Definition proj_stale_app : App :=
  with_tree
    (<["/proj/src/a.py~" := Node true false]>
       (<["/proj/src/a.py" := Node true false]>
          (<["/proj/src" := Node false true]>
             (<["/proj" := Node false true]> ∅))))
    (proj_app true).

(* ===================================================================== *)
(** ** Sample observations of the watchdog                                *)
(* ===================================================================== *)

(** A quiet turn read at [elapsed] seconds. *)
Definition quiet_at (elapsed : Q) : tick :=
  {| t_worker_sets_enable := None; t_alive := true; t_update_ok := true;
     t_clicks := []; t_elapsed := elapsed |}.

(** After the loop: the worker is still alive. *)
Definition worker_never_returns : after_loop :=
  {| j_alive_after_wait := true; j_worker_raised := false |}.

(** A turn in which the operator clicks Disable Timeouts. *)
Definition disable_clicked_at (elapsed : Q) : tick :=
  {| t_worker_sets_enable := None; t_alive := true; t_update_ok := true;
     t_clicks := [DisableTimeoutsButton]; t_elapsed := elapsed |}.

(** The turn that finds the worker finished. *)
Definition worker_finished_at (elapsed : Q) : tick :=
  {| t_worker_sets_enable := None; t_alive := false; t_update_ok := true;
     t_clicks := []; t_elapsed := elapsed |}.

(** After the loop: the worker has ended without raising. *)
Definition worker_done : after_loop :=
  {| j_alive_after_wait := false; j_worker_raised := false |}.

(** The controller's state when it starts to watch. *)
Definition watching (a : App) : watch_state :=
  {| w_app := a; w_dialog := new_dialog;
     w_timeouts_disabled := false; w_cancel_flag := false |}.

(** A turn in which the operator clicks Skip. *)
Definition skip_clicked_at (elapsed : Q) : tick :=
  {| t_worker_sets_enable := None; t_alive := true; t_update_ok := true;
     t_clicks := [SkipButton]; t_elapsed := elapsed |}.

(** A machine on which nothing exists: every path is flagged. *)
Definition empty_fs : FS := GraphFS.to_fs [].


(* ===================================================================== *)
(** ** The rest of the loading dialog and of the timeouts                 *)
(* ===================================================================== *)

(** [s\[-n:\]] for a positive [n]. *)
Definition last_chars (n : nat) (s : string) : string :=
  PyStr.of_chars (drop (String.length s - n) (PyStr.chars s)).

(** [LoadingDialog.update_detail]: the text that the label is given. *)
Definition update_detail (detail_text : string) : string :=
  if 60 <? String.length detail_text
  then "..." +:+ last_chars 57 detail_text
  else detail_text.

(** [FolderLoadingTimeout]: the context manager around [SIGALRM], on a
    system that has signals. *)
Module Alarm.

(** What [signal.signal] installs and returns. *)
Inductive handler : Type :=
| SIG_DFL
| SIG_IGN
| NotFromPython            (** [None]: a handler not installed from Python *)
| TimeoutHandler (timeout_seconds : nat)
                           (** [_timeout_handler] of an instance *)
| OtherHandler (id : nat).

(** The process: the handler of [SIGALRM] and the seconds left until
    the alarm, if one is pending. *)
Record signals : Type := {
  sigalrm : handler;
  pending : option nat
}.

Record FolderLoadingTimeout : Type := {
  timeout_seconds : nat;
  old_handler : handler
}.

(** [__init__]: [old_handler] starts as [None]. *)
Definition init (seconds : nat) : FolderLoadingTimeout :=
  {| timeout_seconds := seconds; old_handler := NotFromPython |}.

(** [signal.alarm(n)]: replaces a pending alarm; [0] cancels. *)
Definition alarm (n : nat) (s : signals) : signals :=
  {| sigalrm := sigalrm s; pending := if n =? 0 then None else Some n |}.

(** [__enter__] *)
Definition enter (t : FolderLoadingTimeout) (s : signals)
  : FolderLoadingTimeout * signals :=
  ({| timeout_seconds := timeout_seconds t; old_handler := sigalrm s |},
   alarm (timeout_seconds t)
         {| sigalrm := TimeoutHandler (timeout_seconds t); pending := pending s |}).

(** [__exit__] *)
Definition exit (t : FolderLoadingTimeout) (s : signals) : signals :=
  let s := alarm 0 s in
  match old_handler t with
  | NotFromPython => s
  | h => {| sigalrm := h; pending := pending s |}
  end.

(** [with FolderLoadingTimeout(outer): ... with FolderLoadingTimeout(inner):
    ...], up to the point after the inner block. *)
Definition after_inner_block (outer inner : nat) (s : signals) : signals :=
  let '(_, s1) := enter (init outer) s in
  let '(t2, s2) := enter (init inner) s1 in
  exit t2 s2.

End Alarm.

(* ===================================================================== *)
(** ** The commands around the scan                                       *)
(* ===================================================================== *)

Definition with_root_folders (r : list string) (a : App) : App :=
  {| root_folders := r; ignore_patterns := ignore_patterns a;
     filter_system_folders := filter_system_folders a;
     folder_tree_data := folder_tree_data a; visited_dirs := visited_dirs a;
     saved_folder_checks := saved_folder_checks a;
     enable_timeouts := enable_timeouts a;
     copy_entire_tree_var := copy_entire_tree_var a;
     current_profile := current_profile a; expanded := expanded a;
     listed := listed a |}.

Definition with_ignore_patterns (pats : list string) (a : App) : App :=
  {| root_folders := root_folders a; ignore_patterns := pats;
     filter_system_folders := filter_system_folders a;
     folder_tree_data := folder_tree_data a; visited_dirs := visited_dirs a;
     saved_folder_checks := saved_folder_checks a;
     enable_timeouts := enable_timeouts a;
     copy_entire_tree_var := copy_entire_tree_var a;
     current_profile := current_profile a; expanded := expanded a;
     listed := listed a |}.

(** [s.split(sep)] for a one-character separator, on the characters:
    the pieces between the separators, empty ones included. *)
Fixpoint split_chars (sep : ascii) (piece_rev : list ascii) (l : list ascii)
  : list (list ascii) :=
  match l with
  | [] => [rev piece_rev]
  | c :: l' =>
      if Ascii.eqb c sep then rev piece_rev :: split_chars sep [] l'
      else split_chars sep (c :: piece_rev) l'
  end.

Definition split (sep : ascii) (s : string) : list string :=
  map PyStr.of_chars (split_chars sep [] (PyStr.chars s)).

Definition newline : ascii := ascii_of_nat 10.

(** How a call ends: it returns, it raises, or the recursion or loop
    does not come to an end. *)
Inductive exn : Type := KeyError | IndexError.

Inductive run (A : Type) : Type :=
| Ret (x : A)
| Exn (e : exn)
| NoFuel.

Arguments Ret {A} x.
Arguments Exn {A} e.
Arguments NoFuel {A}.

(** From [a] to [a']: every entry of [a] is in [a'] as it was, what is
    new in [a'] carries no check mark, and [visited_dirs] has lost
    nothing. *)
Definition only_added (a a' : App) : Prop :=
  (forall p n, folder_tree_data a !! p = Some n -> folder_tree_data a' !! p = Some n)
  /\ (forall p n, folder_tree_data a' !! p = Some n ->
                  folder_tree_data a !! p = None -> checked n = false)
  /\ visited_dirs a ⊆ visited_dirs a'.

(** What a poll pass started in [a0] keeps true of the state it is in. *)
Definition kept_by_poll (a0 a : App) : Prop :=
  only_added a0 a /\ same_settings a0 a.

(** [l.pop(idx)] for an index in range: the list without that element. *)
Definition pop_at (idx : nat) (l : list string) : list string :=
  take idx l ++ drop (S idx) l.

Section Commands.

Variable fs : FS.

(** [on_save_filters], with the text of the filter box; the state and
    what is written to the settings file. *)
Definition on_save_filters (fuel : nat) (raw : string) (a : App)
  : option (App * Settings) :=
  let lines :=
    map PyStr.strip
        (List.filter (fun ln => negb (String.eqb (PyStr.strip ln) ""))
                     (split newline raw)) in
  match build_all_trees fs fuel (with_ignore_patterns lines a) with
  | Some a' => Some (a', save_settings a')
  | None => None
  end.

(** [on_toggle_system_filter]; the check box has written
    [filter_system_folders] already. *)
Definition on_toggle_system_filter (fuel : nat) (a : App)
  : option (App * Settings) :=
  match build_all_trees fs fuel a with
  | Some a' => Some (a', save_settings a')
  | None => None
  end.

(** The loop [for path, was_checked in selections.items()] of
    [on_refresh_folders]. *)
Definition restore_selections (selections : gmap string bool)
           (t : gmap string node) : gmap string node :=
  map_fold (fun path was_checked t =>
              if bool_decide (is_Some (t !! path))
              then alter (set_checked was_checked) path t
              else t)
           t selections.

(** [on_refresh_folders]; the two logs start afresh with
    [visited_dirs]. *)
Definition on_refresh_folders (fuel : nat) (a : App) : option App :=
  let selections := checked <$> folder_tree_data a in
  let a0 := with_listed [] (with_expanded [] (with_tree ∅ (with_visited ∅ a))) in
  match for_each (fun a folder =>
                    if negb (fs_exists fs folder) then Some a
                    else build_tree_for fs fuel a folder)
                 (root_folders a0) a0 with
  | Some a1 =>
      Some (validate_checked_items
              (with_tree (restore_selections selections (folder_tree_data a1)) a1))
  | None => None
  end.

(** [on_add_folder], with the answer of the directory dialog (empty
    when it is dismissed); what is written to the settings file, if
    anything. *)
Definition on_add_folder (fuel : nat) (folder : string) (a : App)
  : option (App * option Settings) :=
  if String.eqb folder "" then Some (a, None)
  else if bool_decide (folder ∈ root_folders a) then Some (a, None)
  else
    match build_tree_for fs fuel
                         (with_root_folders (root_folders a ++ [folder]) a)
                         folder with
    | Some a' => Some (a', Some (save_settings a'))
    | None => None
    end.

End Commands.

(** The [while stack] loop of [remove_subtree]; the head of [stack] is
    the element that [stack.pop()] takes. *)
Fixpoint remove_subtree_loop (fuel : nat) (stack : list string)
         (t : gmap string node) {struct fuel} : option (gmap string node) :=
  match stack with
  | [] => Some t
  | current :: rest =>
      match fuel with
      | O => None
      | S fuel' =>
          let t' := delete current t in
          let children :=
            List.filter (fun p => String.eqb (PyStr.dirname p) current)
                        (map_to_list t').*1 in
          remove_subtree_loop fuel' (rev children ++ rest) t'
      end
  end.

Definition remove_subtree (fuel : nat) (folder_path : string) (a : App)
  : option App :=
  match remove_subtree_loop fuel [folder_path] (folder_tree_data a) with
  | Some t => Some (with_tree t a)
  | None => None
  end.

(** [do_remove] of [on_remove_folder], with the selected index. *)
Definition do_remove (fuel : nat) (idx : nat) (a : App) : run (App * Settings) :=
  match root_folders a !! idx with
  | None => Exn IndexError
  | Some folder_to_remove =>
      match remove_subtree fuel folder_to_remove
                           (with_root_folders (pop_at idx (root_folders a)) a) with
      | Some a' => Ret (a', save_settings a')
      | None => NoFuel
      end
  end.

(* ===================================================================== *)
(** ** Selection presets                                                  *)
(* ===================================================================== *)

(** A value of [self.selection_presets]. *)
Record preset : Type := {
  folder_checks : gmap string bool;
  description : string;
  created_date : string;
  last_used : string
}.

(** [save_selection_preset]; [now1] and [now2] are the two readings of
    the clock. *)
Definition save_selection_preset (preset_name description now1 now2 : string)
           (a : App) (selection_presets : gmap string preset)
  : gmap string preset * Settings :=
  let current_selections :=
    map_fold (fun path info sel => if checked info then <[path := true]> sel else sel)
             ∅ (folder_tree_data a) in
  (<[preset_name := {| folder_checks := current_selections;
                       description := description;
                       created_date := now1;
                       last_used := now2 |}]> selection_presets,
   save_settings a).

(** [load_selection_preset]: the value returned, the state and the
    presets. *)
Definition load_selection_preset (preset_name now : string)
           (a : App) (selection_presets : gmap string preset)
  : bool * App * gmap string preset :=
  match selection_presets !! preset_name with
  | None => (false, a, selection_presets)
  | Some preset =>
      let cleared :=
        foldl (fun t path => alter (set_checked false) path t)
              (folder_tree_data a) (tree_keys a) in
      let applied :=
        map_fold (fun path chk t =>
                    if bool_decide (is_Some (t !! path))
                    then alter (set_checked chk) path t
                    else t)
                 cleared (folder_checks preset) in
      (true, with_tree applied a,
       <[preset_name := {| folder_checks := folder_checks preset;
                           description := description preset;
                           created_date := created_date preset;
                           last_used := now |}]> selection_presets)
  end.

(** [delete_selection_preset] *)
Definition delete_selection_preset (preset_name : string)
           (selection_presets : gmap string preset)
  : bool * gmap string preset :=
  if bool_decide (is_Some (selection_presets !! preset_name))
  then (true, delete preset_name selection_presets)
  else (false, selection_presets).

(** While [remove_subtree] runs on [folder] from the entries [t0]: [q]
    is [folder], or an entry of [t0] that is no longer in [tc]. *)
Definition gone (t0 : gmap string node) (folder : string)
           (tc : gmap string node) (q : string) : Prop :=
  q = folder \/ (is_Some (t0 !! q) /\ tc !! q = None).

(** What holds of the stack and of the entries each time the loop of
    [remove_subtree] tests its stack, from the second time on. *)
Definition remove_invariant (t0 : gmap string node) (folder : string)
           (stack : list string) (tc : gmap string node) : Prop :=
  (forall p n, tc !! p = Some n -> t0 !! p = Some n)
  /\ tc !! folder = None
  /\ NoDup stack
  /\ (forall s, s ∈ stack ->
                is_Some (tc !! s) /\ gone t0 folder tc (PyStr.dirname s))
  /\ (forall p, is_Some (t0 !! p) -> tc !! p = None ->
                p = folder \/ gone t0 folder tc (PyStr.dirname p))
  /\ (forall p, is_Some (tc !! p) -> gone t0 folder tc (PyStr.dirname p) ->
                p ∈ stack).

(** The scenario's tree as the scan leaves it. *)
Definition proj_scanned : App :=
  match build_all_trees (GraphFS.to_fs proj_graph) 3 (proj_app true) with
  | Some a => a
  | None => proj_app true
  end.

(** The canonical path of [folder] is in [visited_dirs], and [folder] has
    no entry. *)
Definition visited_without_entry (fs : FS) (folder : string) (a : App) : Prop :=
  fs_realpath fs folder ∈ visited_dirs a /\ ~ has_entry a folder.

(* ===================================================================== *)
(** ** CHECK / UNCHECK                                                    *)
(* ===================================================================== *)

(** The loop [for p in list(self.folder_tree_data.keys())] of
    [set_subtree_checked]; [recurse] is the recursive call. *)
Fixpoint check_children (recurse : string -> gmap string node -> run (gmap string node))
         (path : string) (keys : list string) (t : gmap string node)
  : run (gmap string node) :=
  match keys with
  | [] => Ret t
  | p :: keys' =>
      if String.eqb (PyStr.dirname p) path then
        match recurse p t with
        | Ret t' => check_children recurse path keys' t'
        | Exn e => Exn e
        | NoFuel => NoFuel
        end
      else check_children recurse path keys' t
  end.

(** [set_subtree_checked] on [folder_tree_data]; the keys are listed
    once per call, after the entry of [path] is written. *)
Fixpoint set_subtree_checked (fuel : nat) (path : string) (chk : bool)
         (t : gmap string node) : run (gmap string node) :=
  match fuel with
  | O => NoFuel
  | S fuel' =>
      match t !! path with
      | None => Exn KeyError
      | Some n =>
          let t1 := <[path := set_checked chk n]> t in
          if is_dir n
          then check_children (fun p t => set_subtree_checked fuel' p chk t)
                              path (map_to_list t1).*1 t1
          else Ret t1
      end
  end.

(** [on_tree_item_double_click] on the row of [path]; the state and what
    is written to the settings file. *)
Definition on_tree_item_double_click (fuel : nat) (path : string) (a : App)
  : run (App * Settings) :=
  match folder_tree_data a !! path with
  | None => Exn KeyError
  | Some n =>
      match set_subtree_checked fuel path (negb (checked n)) (folder_tree_data a) with
      | Ret t => Ret (with_tree t a, save_settings (with_tree t a))
      | Exn e => Exn e
      | NoFuel => NoFuel
      end
  end.

(** [q] is [path] or lies below it in [t]: it has an entry, and its
    parent is a directory entry that is [path] or lies below it. *)
Inductive below (t : gmap string node) (path : string) : string -> Prop :=
| below_self : below t path path
| below_child (q : string) (d : node) :
    below t path (PyStr.dirname q) ->
    t !! PyStr.dirname q = Some d -> is_dir d = true ->
    is_Some (t !! q) ->
    below t path q.

(** The two maps have the same keys, with the same kinds. *)
Definition same_shape (t t' : gmap string node) : Prop :=
  forall q, is_dir <$> t !! q = is_dir <$> t' !! q.

(** What a call of [set_subtree_checked] on [path] makes of [t]. *)
Definition marked (chk : bool) (path : string) (t t' : gmap string node) : Prop :=
  (forall q, below t path q -> t' !! q = set_checked chk <$> t !! q)
  /\ (forall q, t' !! q = t !! q \/ below t path q).

(** No key is its own parent, and no key is longer than [M]. *)
Definition keys_well_founded (M : nat) (t : gmap string node) : Prop :=
  forall q, is_Some (t !! q) -> PyStr.dirname q <> q /\ String.length q <= M.

(** The children of [path] dealt with so far by the loop of
    [set_subtree_checked], and the entries [ti] reached from [t1]. *)
Definition children_marked (chk : bool) (t1 : gmap string node)
           (done : list string) (ti : gmap string node) : Prop :=
  same_shape t1 ti
  /\ (forall q ch, ch ∈ done -> below t1 ch q ->
                   ti !! q = set_checked chk <$> t1 !! q)
  /\ (forall q, ti !! q = t1 !! q \/ exists ch, ch ∈ done /\ below t1 ch q).

(** [keys_well_founded], as a test. *)
Definition keys_well_founded_test (M : nat) (t : gmap string node) : bool :=
  forallb (fun q => negb (String.eqb (PyStr.dirname q) q) && (String.length q <=? M))
          (map_to_list t).*1.

(** The scenario's disk scanned from the root [/]. *)
Definition whole_disk_app : App :=
  match build_all_trees (GraphFS.to_fs proj_graph) 5
                        (configure ["/"] [] true initial_app) with
  | Some a => a
  | None => initial_app
  end.

(* ===================================================================== *)
(** ** [remove_comments_from_code]                                        *)
(* ===================================================================== *)

(** Python's [re] is not part of the repository; this is the backtracking
    matcher for the expressions of the table, under the flag
    [re.DOTALL] that every call of [re.sub] passes: a literal character,
    [.*] (greedy, and [.] takes a newline too), [.*?] (lazy; under
    [re.DOTALL] the group [(?:.|\n)] takes the same characters as [.]),
    and [$] of [(?m)]. *)
Module Re.

Inductive rx : Type :=
| RChar (c : ascii)
| RAnyStar
| RAnyStarLazy
| REnd.

(** A literal text. *)
Definition lit (s : string) : list rx := map RChar (PyStr.chars s).

(** [$] with [re.MULTILINE]: at the end of the text and before a
    newline. *)
Definition at_line_end (s : list ascii) : bool :=
  match s with
  | [] => true
  | c :: _ => Ascii.eqb c newline
  end.

(** The first way, in the order in which a backtracking matcher tries
    them, to match [r] at the start of [s]: what is left of [s]. *)
Fixpoint match_here (r : list rx) (s : list ascii) : option (list ascii) :=
  match r with
  | [] => Some s
  | RChar c :: r' =>
      match s with
      | d :: s' => if Ascii.eqb d c then match_here r' s' else None
      | [] => None
      end
  | RAnyStar :: r' =>
      (fix greedy (s : list ascii) : option (list ascii) :=
         match s with
         | _ :: s' =>
             match greedy s' with
             | Some remaining => Some remaining
             | None => match_here r' s
             end
         | [] => match_here r' []
         end) s
  | RAnyStarLazy :: r' =>
      (fix lazy (s : list ascii) : option (list ascii) :=
         match match_here r' s with
         | Some remaining => Some remaining
         | None =>
             match s with
             | _ :: s' => lazy s'
             | [] => None
             end
         end) s
  | REnd :: r' => if at_line_end s then match_here r' s else None
  end.

(** The length of the match of [r] at the start of [s], if there is
    one. *)
Definition match_length (r : list rx) (s : list ascii) : option nat :=
  match match_here r s with
  | Some remaining => Some (length s - length remaining)
  | None => None
  end.

(** [re.sub(r, '', s)] from left to right; [skip] characters of the last
    match are still to be passed over.  No expression of the table
    matches the empty text, and a match of length [0] is treated as no
    match. *)
Fixpoint sub_from (r : list rx) (skip : nat) (s : list ascii) : list ascii :=
  match s with
  | [] => []
  | c :: s' =>
      match skip with
      | S skip' => sub_from r skip' s'
      | O =>
          match match_length r s with
          | Some (S n) => sub_from r n s'
          | _ => c :: sub_from r 0 s'
          end
      end
  end.

Definition sub (r : list rx) (s : string) : string :=
  PyStr.of_chars (sub_from r 0 (PyStr.chars s)).

End Re.

Definition dquote : ascii := ascii_of_nat 34.
Definition squote : ascii := ascii_of_nat 39.

(** [(?m)#.*$] and [(?m)//.*$] *)
Definition line_comment (marker : string) : list Re.rx :=
  Re.lit marker ++ [Re.RAnyStar; Re.REnd].

(** [/\*.*?\*/], [<!--.*?-->], [=begin(?:.|\n)*?=end] and the two
    expressions for triple quotes *)
Definition block_comment (opening closing : list Re.rx) : list Re.rx :=
  opening ++ [Re.RAnyStarLazy] ++ closing.

Definition c_block : list Re.rx := block_comment (Re.lit "/*") (Re.lit "*/").
Definition c_like : list (list Re.rx) := [line_comment "//"; c_block].

(** The table [patterns]. *)
Definition patterns (ext : string) : option (list (list Re.rx)) :=
  if String.eqb ext "py" then
    Some [ line_comment "#";
           block_comment [Re.RChar dquote; Re.RChar dquote; Re.RChar dquote]
                         [Re.RChar dquote; Re.RChar dquote; Re.RChar dquote];
           block_comment [Re.RChar squote; Re.RChar squote; Re.RChar squote]
                         [Re.RChar squote; Re.RChar squote; Re.RChar squote] ]
  else if existsb (String.eqb ext)
                  ["js"; "ts"; "java"; "c"; "cpp"; "h"; "cs"; "go"; "rs"]
  then Some c_like
  else if String.eqb ext "rb" then
    Some [ line_comment "#"; block_comment (Re.lit "=begin") (Re.lit "=end") ]
  else if String.eqb ext "php" then
    Some [ line_comment "//"; line_comment "#"; c_block ]
  else if existsb (String.eqb ext) ["sh"; "bash"] then Some [ line_comment "#" ]
  else if existsb (String.eqb ext) ["html"; "xml"] then
    Some [ block_comment (Re.lit "<!--") (Re.lit "-->") ]
  else None.

Definition remove_comments_from_code (code ext : string) : string :=
  match patterns ext with
  | None => code
  | Some pats => foldl (fun new_code pat => Re.sub pat new_code) code pats
  end.

(** The text of [s] before the first occurrence of [marker]; all of [s]
    when there is none. *)
Fixpoint before_first_chars (marker s : list ascii) : list ascii :=
  match s with
  | [] => []
  | c :: s' =>
      if bool_decide (marker `prefix_of` s) then []
      else c :: before_first_chars marker s'
  end.

Definition before_first (marker s : string) : string :=
  PyStr.of_chars (before_first_chars (PyStr.chars marker) (PyStr.chars s)).

(** The marker of the line comments of [ext], for the extensions whose
    first expression is one for line comments. *)
Definition line_marker (ext : string) : option string :=
  if existsb (String.eqb ext) ["py"; "rb"; "sh"; "bash"] then Some "#"
  else if existsb (String.eqb ext)
                  ["js"; "ts"; "java"; "c"; "cpp"; "h"; "cs"; "go"; "rs"; "php"]
  then Some "//"
  else None.

(** Two lines of a shell or Python file, the first with a comment. *)
Definition two_lines : string :=
  "x = 1 # one" +:+ String newline "y = 2".

(** The directory names that the default patterns of the form [*/name/*]
    are about. *)
Definition system_folders : list string :=
  [ ".git"; ".venv"; "__pycache__"; ".vs"; ".vscode"; ".idea"; "node_modules";
    "build"; "dist"; ".svn" ].

(** [t] is yielded by [os.walk] on a root folder of [a]. *)
Definition walked (fs : FS) (a : App) (t : string * list string * list string)
  : Prop :=
  exists folder, folder ∈ root_folders a /\ t ∈ fs_walk fs folder.

(** [q] is a directory that [os.walk] enters and whose canonical path is
    not in [visited_dirs], or an item that [os.walk] lists in such a
    directory. *)
Definition found_by_poll (fs : FS) (a : App) (q : string) : Prop :=
  exists root dirs files,
    walked fs a (root, dirs, files)
    /\ (fs_realpath fs root ∉ visited_dirs a)
    /\ (q = root \/ exists name, name ∈ dirs ++ files /\ q = PyStr.join root name).

(** What a poll pass started in [a0] keeps true of the entries. *)
Definition poll_adds_there (fs : FS) (a0 a : App) : Prop :=
  grown a0 a
  /\ forall q, has_entry a q -> has_entry a0 q \/ found_by_poll fs a0 q.

(** The scenario's disk after a file was created in [/proj/src]. *)
Definition proj_graph_later : GraphFS.graph :=
  [ GraphFS.GNode "/" GraphFS.KDir [GraphFS.Entry "proj" 1 false];
    GraphFS.GNode "/proj" GraphFS.KDir
      [GraphFS.Entry "src" 4 false; GraphFS.Entry ".git" 2 false];
    GraphFS.GNode "/proj/.git" GraphFS.KDir [GraphFS.Entry "config" 3 false];
    GraphFS.GNode "/proj/.git/config" GraphFS.KFile [];
    GraphFS.GNode "/proj/src" GraphFS.KDir
      [GraphFS.Entry "a.py~" 6 false; GraphFS.Entry "a.py" 5 false;
       GraphFS.Entry "new.py" 7 false];
    GraphFS.GNode "/proj/src/a.py" GraphFS.KFile [];
    GraphFS.GNode "/proj/src/a.py~" GraphFS.KFile [];
    GraphFS.GNode "/proj/src/new.py" GraphFS.KFile [] ].

(** The file system [fs] with the names of every directory listed in
    another order. *)
Definition with_listing_order (shuffle : string -> list string -> list string)
           (fs : FS) : FS :=
  {| fs_exists := fs_exists fs;
     fs_isdir := fs_isdir fs;
     fs_listdir := fun p => shuffle p <$> fs_listdir fs p;
     fs_realpath := fs_realpath fs;
     fs_samefile := fs_samefile fs;
     fs_probe_times_out := fs_probe_times_out fs;
     fs_walk := fs_walk fs |}.

(** The first test of [is_potentially_problematic_path]: the path starts
    with two backslashes or two slashes. *)
Definition network_path (p : string) : bool :=
  PyStr.startswith p "\\" || PyStr.startswith p "//".

(** The names that [os.listdir] returns do not start with a slash. *)
Definition plain_names (fs : FS) : Prop :=
  forall d items item,
    fs_listdir fs d = Some items -> item ∈ items -> PyStr.startswith item "/" = false.

(** While the items of [root] are entered from the state [a]: nothing
    is lost, every new entry is [root] or an item of [root], and [root]
    is the one directory expanded. *)
Definition one_level (fs : FS) (root : string) (a cur : App) : Prop :=
  grown a cur
  /\ (forall q, has_entry cur q ->
                has_entry a q \/ q = root
                \/ exists items item,
                     fs_listdir fs root = Some items /\ item ∈ items
                     /\ q = PyStr.join root item)
  /\ expanded cur = expanded a ++ [fs_realpath fs root].

(** The line that the checked-tree text draws for the file [f] inside
    its checked directory is among [lines]. *)
Definition drawn_in (f : string) (lines : list string) : Prop :=
  ("    ├── " +:+ PyStr.basename f) ∈ lines
  \/ ("    └── " +:+ PyStr.basename f) ∈ lines.

(* ===================================================================== *)
(** ** Loading a profile at start-up: [load_settings_with_timeout]        *)
(* ===================================================================== *)

(** [self.default_initial_ignore_patterns] *)
Definition default_initial_ignore_patterns : list string :=
  [ "**/node_modules/"; "**/.npm/"; "**/__pycache__/"; "**/.pytest_cache/";
    "**/.mypy_cache/"; "# Build caches"; "**/.gradle/"; "**/.nuget/";
    "**/.cargo/"; "**/.stack-work/"; "**/.ccache/"; "# IDE and Editor caches";
    "**/.idea/"; "**/.vscode/"; "**/*.swp"; "**/*~"; "# Temp files";
    "**/*.tmp"; "**/*.temp"; "**/*.bak"; "**/*.meta"; "**/package-lock.json";
    "# Media files"; "**/*.jpg"; "**/*.jpeg"; "**/*.png"; "**/*.gif";
    "**/*.bmp"; "**/*.ico"; "**/*.svg"; "**/*.webp"; "**/*.mp4"; "**/*.avi";
    "**/*.mov"; "**/*.wmv"; "**/*.flv"; "**/*.mkv"; "**/*.webm"; "**/*.mp3";
    "**/*.wav"; "**/*.ogg"; "**/*.m4a"; "**/*.flac"; "# Certificate files";
    "**/*.pem"; "**/*.crt"; "**/*.cer"; "**/*.key"; "**/*.pfx"; "**/*.p12";
    "**/*.csr" ].

Definition with_current_profile (name : string) (a : App) : App :=
  {| root_folders := root_folders a; ignore_patterns := ignore_patterns a;
     filter_system_folders := filter_system_folders a;
     folder_tree_data := folder_tree_data a; visited_dirs := visited_dirs a;
     saved_folder_checks := saved_folder_checks a;
     enable_timeouts := enable_timeouts a;
     copy_entire_tree_var := copy_entire_tree_var a;
     current_profile := name; expanded := expanded a;
     listed := listed a |}.

(** [load_minimal_settings]; [files] holds the settings files by profile
    name.  The attributes are reset first; [add_default_meta_prompts]
    then finds [meta_prompts] empty, adds its prompt and calls
    [save_settings], which writes the file of the current profile; the
    tree and [visited_dirs] are cleared after that. *)
Definition load_minimal_settings (a : App) (files : gmap string Settings)
  : App * gmap string Settings :=
  let a1 :=
    {| root_folders := [];
       ignore_patterns := default_initial_ignore_patterns;
       filter_system_folders := true;
       folder_tree_data := folder_tree_data a;
       visited_dirs := visited_dirs a;
       saved_folder_checks := ∅;
       enable_timeouts := enable_timeouts a;
       copy_entire_tree_var := false;
       current_profile := current_profile a;
       expanded := expanded a;
       listed := listed a |} in
  (with_listed [] (with_expanded [] (with_visited ∅ (with_tree ∅ a1))),
   <[current_profile a := save_settings a1]> files).

(** One call of [load_settings_windows_timeout_with_dialog]: what the
    controller observes, and what the worker thread has made of the
    attributes by the time the controller goes on. *)
Record attempt : Type := {
  at_ticks : list tick;
  at_after : after_loop;
  at_worker : App -> App
}.

Definition watched_load (att : attempt) (a : App) (d : LoadingDialog)
  : watch_result * App * LoadingDialog :=
  let '(r, st) :=
    load_settings_windows_timeout_with_dialog (at_ticks att) (at_after att) a d in
  (r, at_worker att (w_app st), w_dialog st).

Section StartUp.

Variable fs : FS.
Variable read_profile : string -> profile_file.
Variable available_profiles : list string.

(** The fallback attempt of [load_settings_with_timeout], under the
    dialog [d] of the first attempt: [None] when the call does not
    come back. *)
Definition load_fallback (second : attempt) (fallback_profile : string)
           (a : App) (d : LoadingDialog) (files : gmap string Settings)
  : option (App * gmap string Settings) :=
  let '(r, a', _) := watched_load second (with_current_profile fallback_profile a) d in
  match r with
  | Completed => Some (a', files)
  | WorkerFailed | UserCancelled | TimedOut => Some (load_minimal_settings a' files)
  | Blocked | StillWatching => None
  end.

(** [load_settings_with_timeout] where [os.name] is ['nt']; [first] and
    [second] are the first attempt and the one on the fallback
    profile. *)
Definition load_settings_with_timeout (first second : attempt) (a : App)
           (files : gmap string Settings)
  : option (App * gmap string Settings) :=
  let original_profile := current_profile a in
  let '(r, a1, d) := watched_load first a new_dialog in
  match r with
  | Completed => Some (a1, files)
  | Blocked | StillWatching => None
  | WorkerFailed | UserCancelled | TimedOut =>
      if is_cancelled d then
        match get_cancel_type d with
        | CCancel =>
            Some (load_minimal_settings (with_current_profile "default" a1) files)
        | CSkip =>
            load_fallback second
              (find_working_fallback_profile fs read_profile a1 available_profiles)
              a1 d files
        | CDisableTimeouts | NotCancelled => Some (a1, files)
        end
      else
        let fallback_profile :=
          find_working_fallback_profile fs read_profile a1 available_profiles in
        if negb (String.eqb fallback_profile original_profile)
        then load_fallback second fallback_profile a1 d files
        else Some (load_minimal_settings a1 files)
  end.

End StartUp.

(** A worker that ends before it has written anything. *)
Definition idle_attempt (ticks : list tick) : attempt :=
  {| at_ticks := ticks; at_after := worker_done; at_worker := fun a => a |}.

(** A turn in which the operator clicks Cancel. *)
Definition cancel_clicked_at (elapsed : Q) : tick :=
  {| t_worker_sets_enable := None; t_alive := true; t_update_ok := true;
     t_clicks := [CancelButton]; t_elapsed := elapsed |}.

(** Two settings files: the default profile and a profile [work], each
    with one local root folder. *)
Definition two_profiles : gmap string Settings :=
  <["work" := proj_settings]> (<["default" := proj_settings]> ∅).

(* ===================================================================== *)
(** ** Start-up: the load, the first poll pass and the timers             *)
(* ===================================================================== *)

(** [__init__] from the load on, when [load_settings_smart] loads
    directly: [load_settings], whose [apply_saved_checks] sets the timers,
    then [schedule_folder_poll], whose first [poll_folder] pass runs at
    once, before the event loop starts and so before any timer; a pass
    that raises ends [__init__], and no timer fires.  The event loop then
    runs [_delayed_apply_remaining_checks], due after 500 ms.  The result
    is the state when that timer has run; [_clear_saved_checks] is due
    after 2 s and the second poll pass after 3 s. *)
Definition start_up (fs : FS) (fuel : nat) (data : Settings) (a : App)
  : option outcome :=
  match load_settings fs fuel data a with
  | Some a1 =>
      match poll_folder fs a1 with
      | Finished a2 => Some (Finished (_delayed_apply_remaining_checks a2))
      | Raised a2 => Some (Raised a2)
      end
  | None => None
  end.

(** The hidden directory of [cache_graph] in a later session: a poll
    pass has entered [/proj/.cache/sub] and its file, and the file has
    been checked since ([process_json_selection] checks any path that
    has an entry). *)
Definition cache_in_use : App :=
  with_tree
    (<["/proj/.cache/sub/f.txt" := Node true false]>
       (<["/proj/.cache/sub" := Node false true]>
          (<["/proj" := Node false true]> ∅)))
    (configure ["/proj"] [] true initial_app).

(* ===================================================================== *)
(** ** The lines of the full file tree                                    *)
(* ===================================================================== *)

(** The entries that [recurse] of [build_full_file_tree_text] comes to
    when it is called on [path]: [path] itself, and every entry whose
    parent it has come to, if that parent is [path] or a directory
    entry. *)
Inductive reached (t : gmap string node) (path : string) : string -> Prop :=
| reached_self : reached t path path
| reached_child (q : string) :
    is_Some (t !! q) ->
    reached t path (PyStr.dirname q) ->
    PyStr.dirname q = path
    \/ (exists d, t !! PyStr.dirname q = Some d /\ is_dir d = true) ->
    reached t path q.

(** The prefixes that [recurse] is called with: branch marks, one for
    each level. *)
Inductive branch_marks : string -> Prop :=
| marks_none : branch_marks ""
| marks_elbow (pre : string) : branch_marks pre -> branch_marks (pre +:+ "└── ")
| marks_tee (pre : string) : branch_marks pre -> branch_marks (pre +:+ "├── ").

(** [line] is the line of the full tree for the entry [q]: its path, or
    its base name, behind branch marks. *)
Definition full_tree_line (q line : string) : Prop :=
  exists pre, branch_marks pre
              /\ (line = pre +:+ q \/ line = pre +:+ PyStr.basename q).

(** The scenario's tree with the stale check mark, and "copy entire
    tree" ticked. *)
Definition proj_stale_full_app : App :=
  {| root_folders := root_folders proj_stale_app;
     ignore_patterns := ignore_patterns proj_stale_app;
     filter_system_folders := filter_system_folders proj_stale_app;
     folder_tree_data := folder_tree_data proj_stale_app;
     visited_dirs := visited_dirs proj_stale_app;
     saved_folder_checks := saved_folder_checks proj_stale_app;
     enable_timeouts := enable_timeouts proj_stale_app;
     copy_entire_tree_var := true;
     current_profile := current_profile proj_stale_app;
     expanded := expanded proj_stale_app;
     listed := listed proj_stale_app |}.

(** The tree of [cache_graph] after the scan and one poll pass: the
    hidden directory [/proj/.cache] has no entry, what the pass found
    below it has. *)
Definition cache_polled : App :=
  match build_all_trees (GraphFS.to_fs cache_graph) 5
                        (configure ["/proj"] [] true initial_app) with
  | Some a => schedule_folder_poll (GraphFS.to_fs cache_graph) 1 a
  | None => initial_app
  end.
(* ===================================================================== *)
(** * Properties                                                          *)
(* ===================================================================== *)

Set Warnings "-clear-no-such-hyp".

(** ** Path helpers on sample inputs *)

Example basename_ex : PyStr.basename "/proj/.git" = ".git". Proof. reflexivity. Qed.
Example dirname_ex : PyStr.dirname "/proj/src/a.py" = "/proj/src". Proof. reflexivity. Qed.
Example dirname_ex2 : PyStr.dirname "/proj" = "/". Proof. reflexivity. Qed.
Example dirname_ex3 : PyStr.dirname "proj" = "". Proof. reflexivity. Qed.
Example dirname_ex4 : PyStr.dirname "//a" = "//". Proof. reflexivity. Qed.
Example dirname_ex5 : PyStr.dirname "/a//b" = "/a". Proof. reflexivity. Qed.
Example join_ex : PyStr.join "/proj" "src" = "/proj/src". Proof. reflexivity. Qed.
Example join_ex2 : PyStr.join "/" "src" = "/src". Proof. reflexivity. Qed.
Example strip_ex : PyStr.strip "  *.py " = "*.py". Proof. reflexivity. Qed.

(** ** The glob matcher on sample inputs *)

Example fnmatch_git_inside : Fnmatch.fnmatch "/proj/.git/config" "*/.git/*" = true.
Proof. reflexivity. Qed.
Example fnmatch_git_itself : Fnmatch.fnmatch "/proj/.git" "*/.git/*" = false.
Proof. reflexivity. Qed.
Example fnmatch_tilde : Fnmatch.fnmatch "/proj/src/a.py~" "*~" = true.
Proof. reflexivity. Qed.
Example fnmatch_anchored : Fnmatch.fnmatch "/proj/src/a.py" "a.py" = false.
Proof. reflexivity. Qed.
Example fnmatch_set : Fnmatch.fnmatch "a1.c" "[a-c][!a-z].?" = true.
Proof. reflexivity. Qed.
Example fnmatch_open_bracket : Fnmatch.fnmatch "[x" "[x" = true.
Proof. reflexivity. Qed.
Example fnmatch_rbracket_member : Fnmatch.fnmatch "]" "[]a]" = true.
Proof. reflexivity. Qed.
Example fnmatch_empty_range : Fnmatch.fnmatch "b" "[b-a]" = false.
Proof. reflexivity. Qed.
Example fnmatch_bang_after_empty_range :
  Fnmatch.fnmatch "x" "[c-a!]" = true
  /\ Fnmatch.fnmatch "!" "[c-a!x]" = true /\ Fnmatch.fnmatch "x" "[c-a!x]" = false
  /\ Fnmatch.fnmatch "-" "[c-a!-z]" = false /\ Fnmatch.fnmatch "y" "[c-a!-z]" = true.
Proof. repeat split; reflexivity. Qed.


(* ===================================================================== *)
(** ** The ignore matcher                                                 *)
(* ===================================================================== *)

Section FiltersMatch.

Implicit Types (a : App) (path pat : string).

Lemma any_pattern_matches_spec fpath pats :
  any_pattern_matches fpath pats = true <->
  exists pat, pat ∈ pats /\ PyStr.strip pat <> ""
              /\ Fnmatch.fnmatch fpath (PyStr.strip pat) = true.
Proof.
  induction pats as [|p pats IH]; simpl.
  - split; [discriminate|]. intros (pat & Hin & _). by apply elem_of_nil in Hin.
  - destruct (negb (PyStr.strip p =? "")%string && Fnmatch.fnmatch fpath (PyStr.strip p))
      eqn:Hhead.
    + split; [intros _|done].
      apply andb_true_iff in Hhead as [Hne Hm].
      exists p. split; [apply list_elem_of_here|]. split; [|done].
      apply negb_true_iff, String.eqb_neq in Hne. done.
    + rewrite IH. split.
      * intros (pat & Hin & Hr). exists pat. split; [by apply list_elem_of_further|done].
      * intros (pat & Hin & Hne & Hm).
        apply elem_of_cons in Hin as [->|Hin]; [|by exists pat].
        apply String.eqb_neq in Hne. rewrite Hne, Hm in Hhead. discriminate.
Qed.

(** What [filters_match] computes: a user pattern (stripped, not empty)
    matches the whole path with its backslashes turned into slashes, or
    the toggle is on and a built-in pattern does, or the toggle is on
    and the base name starts with a dot and is longer than one
    character. *)
Lemma filters_match_spec a path :
  filters_match a path = true <->
  let fpath := PyStr.replace_char PyStr.backslash PyStr.slash path in
  any_pattern_matches fpath (ignore_patterns a) = true
  \/ (filter_system_folders a = true
      /\ (any_pattern_matches fpath default_ignore_patterns = true
          \/ hidden_basename (PyStr.basename path) = true)).
Proof.
  unfold filters_match. cbv zeta.
  destruct (any_pattern_matches _ (ignore_patterns a)); [tauto|].
  destruct (filter_system_folders a); [|intuition discriminate].
  destruct (any_pattern_matches _ default_ignore_patterns); [tauto|].
  destruct (hidden_basename _); intuition discriminate.
Qed.

(** The matcher reads the patterns and the toggle, nothing else. *)
Lemma filters_match_ext a a' path :
  ignore_patterns a = ignore_patterns a' ->
  filter_system_folders a = filter_system_folders a' ->
  filters_match a path = filters_match a' path.
Proof. unfold filters_match. by intros -> ->. Qed.

End FiltersMatch.

(** C5 (the code at the input where it departs from the claim).  With the
    system-folder filter on and no pattern at all, a path whose base name
    is [..] is reported as ignored: the hidden-name test only asks for a
    leading dot and more than one character, so [..] passes it, although
    the claim (and the comment beside the test) exempt both [.] and [..].
    The base name [.] is exempt, and with the filter off neither name is
    matched. *)
Theorem filters_match_dotdot_is_ignored :
  let a := configure [] [] true initial_app in
  PyStr.basename "/proj/.." = ".."
  /\ any_pattern_matches "/proj/.." (ignore_patterns a) = false
  /\ any_pattern_matches "/proj/.." default_ignore_patterns = false
  /\ filters_match a "/proj/.." = true
  /\ filters_match a "/proj/." = false
  /\ filters_match (configure [] [] false initial_app) "/proj/.." = false.
Proof. cbv zeta. repeat split; vm_compute; reflexivity. Qed.

(* ===================================================================== *)
(** ** The cancellation flag of the loading dialog                        *)
(* ===================================================================== *)

Lemma click_stays_cancelled d b :
  is_cancelled d = true -> is_cancelled (click d b) = true.
Proof.
  destruct b; simpl; try done.
  destruct (disable_button_shown d); done.
Qed.

Lemma click_value d b :
  cancelled (click d b) = cancelled d
  \/ (cancelled (click d b) <> NotCancelled
      /\ cancelled (click d b) =
           match b with
           | SkipButton => CSkip
           | CancelButton => CCancel
           | DisableTimeoutsButton => CDisableTimeouts
           end).
Proof.
  destruct b; simpl; [right; done|right; done|].
  destruct (disable_button_shown d); [right; done|left; done].
Qed.

(** C8 (as amended).  The flag of one dialog never goes back to
    not-cancelled: once a click has set it, it stays set whatever is
    clicked afterwards; and a click either leaves the value as it is or
    overwrites it with the value of the button clicked, whatever the flag
    held before. *)
Theorem cancelled_flag_never_cleared (d : LoadingDialog) (before later : list button) :
  is_cancelled (clicks d before) = true ->
  is_cancelled (clicks d (before ++ later)) = true
  /\ forall b, cancelled (click (clicks d before) b) = cancelled (clicks d before)
               \/ cancelled (click (clicks d before) b) =
                    match b with
                    | SkipButton => CSkip
                    | CancelButton => CCancel
                    | DisableTimeoutsButton => CDisableTimeouts
                    end.
Proof.
  intros Hset. split.
  - unfold clicks in *. rewrite foldl_app.
    generalize dependent (foldl click d before). clear.
    induction later as [|b later IH]; intros d' Hd'; simpl; [done|].
    apply IH, click_stays_cancelled, Hd'.
  - intros b. destruct (click_value (clicks d before) b) as [H|[_ H]]; auto.
Qed.

Lemma cancelled_flag_never_cleared_witness :
  is_cancelled (clicks new_dialog [DisableTimeoutsButton]) = true
  /\ is_cancelled (clicks new_dialog ([DisableTimeoutsButton] ++ [SkipButton; CancelButton])) = true.
Proof.
  split; [reflexivity|].
  apply (cancelled_flag_never_cleared new_dialog [DisableTimeoutsButton]
           [SkipButton; CancelButton]).
  reflexivity.
Defined.

(** C8 (the claim as stated fails).  On a fresh dialog, Disable Timeouts
    followed by Skip writes the flag twice, and the second write replaces
    one cancellation value by a different one. *)
Lemma cancelled_flag_overwritten :
  writer_transitions new_dialog [DisableTimeoutsButton; SkipButton] = 2
  /\ cancelled (clicks new_dialog [DisableTimeoutsButton]) = CDisableTimeouts
  /\ cancelled (clicks new_dialog [DisableTimeoutsButton; SkipButton]) = CSkip
  /\ ~ (forall bs : list button, writer_transitions new_dialog bs <= 1)
  /\ (let run := load_settings_windows_timeout_with_dialog
                    [disable_clicked_at 5; skip_clicked_at 6] worker_done
                    initial_app new_dialog in
      fst run = UserCancelled /\ cancelled (w_dialog (snd run)) = CSkip).
Proof.
  split; [reflexivity|]. split; [reflexivity|]. split; [reflexivity|]. split.
  - intros H. specialize (H [DisableTimeoutsButton; SkipButton]).
    vm_compute in H. lia.
  - split; reflexivity.
Qed.

(* ===================================================================== *)
(** ** The fallback selection                                             *)
(* ===================================================================== *)

Section FallbackProperties.

Variable fs : FS.
Variable read_profile : string -> profile_file.

Lemma fallback_loop_find current names :
  fallback_loop fs read_profile current names =
  match List.find (fallback_qualifies fs read_profile)
                  (List.filter (fun p => negb (String.eqb p current)) names) with
  | Some p => p
  | None => "default"
  end.
Proof.
  induction names as [|p names IH]; simpl; [done|].
  destruct (String.eqb p current) eqn:Hcur; simpl; [exact IH|].
  unfold fallback_qualifies at 1.
  destruct (read_profile p) as [| |roots] eqn:Hread.
  - destruct (String.eqb p "default") eqn:Hdef; [|exact IH].
    apply String.eqb_eq in Hdef. by subst p.
  - exact IH.
  - destruct (existsb _ roots); simpl; [exact IH|done].
Qed.

Lemma fallback_candidates_elem p available :
  p ∈ fallback_candidates available -> p = "default" \/ p ∈ available.
Proof.
  unfold fallback_candidates. intros [->|Hin]%elem_of_cons; [by left|right].
  apply list_elem_of_In, filter_In in Hin as [Hin _]. by apply list_elem_of_In.
Qed.

(** C4 (as amended).  The selection is a total function of the failed
    profile, the candidates and the settings files: its result is the
    first candidate other than the failed profile, the default profile
    first and then the available ones in their order, that is either
    the default profile without a settings file or a profile whose
    settings can be read and name no flagged root folder; when there is
    no such candidate the result is the default profile, whether or not
    the default profile is the one that failed.  So the result is the
    default profile, or it is an available profile that differs from
    the failed one and qualifies. *)
Theorem find_working_fallback_profile_spec (a : App) (available : list string) :
  let chosen := find_working_fallback_profile fs read_profile a available in
  chosen = first_qualifying fs read_profile (current_profile a) available
  /\ (chosen = "default"
      \/ (chosen <> current_profile a /\ chosen ∈ available
          /\ fallback_qualifies fs read_profile chosen = true))
  /\ (available = [] -> chosen = "default").
Proof.
  cbv zeta. unfold find_working_fallback_profile, first_qualifying.
  rewrite fallback_loop_find. split; [done|]. split.
  - destruct (List.find _ _) as [p|] eqn:Hfind; [|by left].
    apply find_some in Hfind as [Hin Hq].
    apply filter_In in Hin as [Hin Hne].
    apply list_elem_of_In, fallback_candidates_elem in Hin as [->|Hin]; [by left|].
    right. split; [|done].
    apply negb_true_iff, String.eqb_neq in Hne. done.
  - intros ->. unfold fallback_candidates. cbn [List.filter].
    destruct (negb (String.eqb "default" (current_profile a))); cbn [List.find]; [|done].
    destruct (fallback_qualifies _ _ _); done.
Qed.

End FallbackProperties.

Lemma find_working_fallback_profile_spec_witness :
  find_working_fallback_profile empty_fs (fun _ => Missing) initial_app [] = "default".
Proof.
  apply (proj2 (proj2 (find_working_fallback_profile_spec
                         empty_fs (fun _ => Missing) initial_app []))).
  reflexivity.
Defined.

(** C4 (the claim as stated fails).  The default profile failed, it is
    the only profile, and its settings name a network share: the
    selection returns the default profile, the one that failed. *)
Lemma fallback_returns_failed_profile :
  let a := initial_app in
  let read := fun _ : string => Readable ["//server/share"] in
  current_profile a = "default"
  /\ find_working_fallback_profile empty_fs read a ["default"] = current_profile a.
Proof. split; reflexivity. Qed.

(* ===================================================================== *)
(** ** The watchdog                                                       *)
(* ===================================================================== *)











(** *** Disable Timeouts *)

Lemma is_cancelled_value d :
  is_cancelled d = true <-> cancelled d <> NotCancelled.
Proof.
  unfold is_cancelled. rewrite negb_true_iff, bool_decide_eq_false. done.
Qed.

(** The turn in which the controller sees [disable_timeouts]. *)
Lemma watch_turn_disable t st :
  t_alive t = true -> t_update_ok t = true ->
  cancelled (clicks (w_dialog st) (t_clicks t)) = CDisableTimeouts ->
  exists st', watch_turn t st = inl st'
    /\ w_timeouts_disabled st' = true
    /\ enable_timeouts (w_app st') = false.
Proof.
  intros Ha Hu Hv. unfold watch_turn. cbv zeta.
  cbn [w_app w_dialog w_timeouts_disabled w_cancel_flag].
  rewrite Ha, Hu. cbn [negb].
  assert (is_cancelled (clicks (w_dialog st) (t_clicks t)) = true) as ->
    by (apply is_cancelled_value; rewrite Hv; done).
  unfold get_cancel_type. rewrite Hv.
  cbn [w_app w_dialog w_timeouts_disabled w_cancel_flag negb andb].
  eexists. split; [reflexivity|]. split; [done|].
  by destruct (worker_write _ _).
Qed.

(** Once [timeouts_disabled] is set it stays set, and no turn times out. *)
Lemma watch_turn_disabled t st :
  w_timeouts_disabled st = true ->
  match watch_turn t st with
  | inl st' => w_timeouts_disabled st' = true
  | inr (LoopTimedOut _) => False
  | inr (LoopLeft st') => w_timeouts_disabled st' = true
  | inr (LoopRunning _) => False
  end.
Proof.
  intros Hd. unfold watch_turn. cbv zeta.
  cbn [w_app w_dialog w_timeouts_disabled w_cancel_flag].
  destruct (t_alive t); [|done].
  destruct (t_update_ok t); [|done]. cbn [negb].
  destruct (is_cancelled _); [unfold get_cancel_type; destruct (cancelled _)|];
    cbn [w_app w_dialog w_timeouts_disabled w_cancel_flag negb andb];
    rewrite ?Hd; done.
Qed.

Lemma watch_loop_disabled ticks st :
  w_timeouts_disabled st = true ->
  match watch_loop ticks st with
  | LoopTimedOut _ => False
  | LoopLeft st' => w_timeouts_disabled st' = true
  | LoopRunning st' => w_timeouts_disabled st' = true
  end.
Proof.
  revert st. induction ticks as [|t ticks IH]; intros st Hd; cbn [watch_loop]; [done|].
  pose proof (watch_turn_disabled t st Hd) as Ht.
  destruct (watch_turn t st) as [st'|[st'|st'|st']]; try done. by apply IH.
Qed.

(** With the setting off and a worker that does not switch it on, no turn
    times out either. *)
Lemma watch_turn_setting_off t st :
  enable_timeouts (w_app st) = false ->
  t_worker_sets_enable t <> Some true ->
  match watch_turn t st with
  | inl st' => enable_timeouts (w_app st') = false
  | inr (LoopTimedOut _) => False
  | inr (LoopLeft st') => enable_timeouts (w_app st') = false
  | inr (LoopRunning _) => False
  end.
Proof.
  intros He Hw. unfold watch_turn. cbv zeta.
  cbn [w_app w_dialog w_timeouts_disabled w_cancel_flag].
  assert (enable_timeouts (worker_write (t_worker_sets_enable t) (w_app st)) = false)
    as He'.
  { destruct (t_worker_sets_enable t) as [[]|]; cbn; done. }
  destruct (t_alive t); [|done].
  destruct (t_update_ok t); [|done]. cbn [negb].
  destruct (is_cancelled _); [unfold get_cancel_type; destruct (cancelled _)|];
    cbn [w_app w_dialog w_timeouts_disabled w_cancel_flag negb andb];
    rewrite ?He', ?andb_false_r; done.
Qed.

Lemma watch_loop_setting_off ticks st :
  enable_timeouts (w_app st) = false ->
  Forall (fun t => t_worker_sets_enable t <> Some true) ticks ->
  match watch_loop ticks st with
  | LoopTimedOut _ => False
  | LoopLeft st' => enable_timeouts (w_app st') = false
  | LoopRunning st' => enable_timeouts (w_app st') = false
  end.
Proof.
  intros He Hw. revert st He.
  induction Hw as [|t ticks Ht Hw IH]; intros st He; cbn [watch_loop]; [done|].
  pose proof (watch_turn_setting_off t st He Ht) as Hturn.
  destruct (watch_turn t st) as [st'|[st'|st'|st']]; try done. by apply IH.
Qed.

Lemma watch_finish_suspended j st :
  w_timeouts_disabled st = true \/ enable_timeouts (w_app st) = false ->
  fst (watch_finish j st) <> TimedOut.
Proof.
  intros H. unfold watch_finish.
  assert (enable_timeouts (w_app st) && negb (w_timeouts_disabled st) = false) as Hb.
  { destruct H as [-> | ->]; [apply andb_false_r|done]. }
  rewrite Hb. cbn [negb andb].
  destruct (j_alive_after_wait j); cbn [fst andb]; [done|].
  destruct (is_cancelled _ && _); [done|].
  destruct (j_worker_raised j); done.
Qed.

(** C7 (as amended).  (1) In the turn in which the controller sees
    Disable Timeouts it sets its local flag and also switches the
    application's [enable_timeouts] setting off, which is the value that
    [save_settings] writes.  (2) From then on no turn of this attempt and
    no check after the loop reports a timeout.  (3) The setting stays
    off: an attempt started with it off reports no timeout either, as
    long as the worker does not load a profile that switches it back
    on. *)
Theorem disable_timeouts_effect :
  (forall t st,
      t_alive t = true -> t_update_ok t = true ->
      cancelled (clicks (w_dialog st) (t_clicks t)) = CDisableTimeouts ->
      exists st', watch_turn t st = inl st'
        /\ w_timeouts_disabled st' = true
        /\ enable_timeouts (w_app st') = false
        /\ s_enable_timeouts (save_settings (w_app st')) = false)
  /\ (forall ticks j st,
         w_timeouts_disabled st = true ->
         match watch_loop ticks st with
         | LoopTimedOut _ => False
         | LoopLeft st' => fst (watch_finish j st') <> TimedOut
         | LoopRunning st' => w_timeouts_disabled st' = true
         end)
  /\ (forall ticks j a d,
         enable_timeouts a = false ->
         Forall (fun t => t_worker_sets_enable t <> Some true) ticks ->
         fst (load_settings_windows_timeout_with_dialog ticks j a d) <> TimedOut).
Proof.
  split; [|split].
  - intros t st Ha Hu Hv.
    destruct (watch_turn_disable t st Ha Hu Hv) as (st' & Ht & Hd & He).
    exists st'. repeat split; done.
  - intros ticks j st Hd. pose proof (watch_loop_disabled ticks st Hd) as H.
    destruct (watch_loop ticks st); [done| |done].
    apply watch_finish_suspended. by left.
  - intros ticks j a d He Hw. unfold load_settings_windows_timeout_with_dialog.
    pose proof (watch_loop_setting_off ticks
                  {| w_app := a; w_dialog := d;
                     w_timeouts_disabled := false; w_cancel_flag := false |}
                  He Hw) as H.
    destruct (watch_loop ticks _); [done| |done].
    apply watch_finish_suspended. by right.
Qed.

Lemma disable_timeouts_effect_witness :
  exists st', watch_turn (disable_clicked_at 5) (watching initial_app) = inl st'
    /\ w_timeouts_disabled st' = true
    /\ enable_timeouts (w_app st') = false
    /\ s_enable_timeouts (save_settings (w_app st')) = false.
Proof.
  apply (proj1 disable_timeouts_effect (disable_clicked_at 5) (watching initial_app));
    reflexivity.
Defined.

(** C7 (the claim as stated fails).  Timeouts are enabled; during a load
    the operator clicks Disable Timeouts and the load completes.  The
    application's setting is now off, [save_settings] persists it as off,
    and a later attempt whose worker never returns is still being watched
    at 1000 seconds: the budget is not enforced again. *)
Lemma disable_timeouts_outlives_attempt :
  let run := load_settings_windows_timeout_with_dialog
               [disable_clicked_at 5; worker_finished_at 6] worker_done
               initial_app new_dialog in
  enable_timeouts initial_app = true
  /\ s_enable_timeouts (save_settings initial_app) = true
  /\ fst run = Completed
  /\ enable_timeouts (w_app (snd run)) = false
  /\ s_enable_timeouts (save_settings (w_app (snd run))) = false
  /\ fst (load_settings_windows_timeout_with_dialog
            [quiet_at 1000] worker_never_returns (w_app (snd run)) new_dialog)
     = StillWatching.
Proof. cbv zeta. repeat split; reflexivity. Qed.

(* ===================================================================== *)
(** ** The scanner                                                        *)
(* ===================================================================== *)

Lemma same_settings_refl a : same_settings a a.
Proof. by repeat split. Qed.

Lemma same_settings_trans a b c :
  same_settings a b -> same_settings b c -> same_settings a c.
Proof.
  unfold same_settings. intros (?&?&?&?&?&?&?) (?&?&?&?&?&?&?).
  repeat split; congruence.
Qed.

Lemma same_settings_filters a a' p :
  same_settings a a' -> filters_match a p = filters_match a' p.
Proof. intros (_ & Hp & Hf & _). by apply filters_match_ext. Qed.

Lemma grown_refl a : grown a a.
Proof. split; [apply same_settings_refl|]. split; [done|auto]. Qed.

Lemma grown_trans a b c : grown a b -> grown b c -> grown a c.
Proof.
  intros (Hs1 & Hv1 & He1) (Hs2 & Hv2 & He2).
  split; [by eapply same_settings_trans|]. split; [set_solver|auto].
Qed.

Lemma in_visited_true x a : in_visited x a = true <-> x ∈ visited_dirs a.
Proof. unfold in_visited. apply bool_decide_eq_true. Qed.

Lemma in_visited_false x a : in_visited x a = false <-> x ∉ visited_dirs a.
Proof. unfold in_visited. apply bool_decide_eq_false. Qed.

Lemma in_tree_true p a : in_tree p a = true <-> has_entry a p.
Proof. unfold in_tree, has_entry. apply bool_decide_eq_true. Qed.

Lemma in_tree_false p a : in_tree p a = false <-> ~ has_entry a p.
Proof. unfold in_tree, has_entry. apply bool_decide_eq_false. Qed.

Lemma elem_of_sorted x l : x ∈ sorted l <-> x ∈ l.
Proof. unfold sorted. by rewrite merge_sort_Permutation. Qed.

Section Loops.

Context {A : Type}.

(** A loop whose body keeps [P] and does not run out of fuel ends in a
    state where [P] holds. *)
Lemma for_each_invariant (P : App -> Prop) (body : App -> A -> option App) l a :
  P a ->
  (forall a x, P a -> x ∈ l -> exists a', body a x = Some a' /\ P a') ->
  exists a', for_each body l a = Some a' /\ P a'.
Proof.
  revert a. induction l as [|x l IH]; intros a Ha Hbody; cbn [for_each]; [eauto|].
  destruct (Hbody a x Ha) as (a1 & -> & Ha1); [apply list_elem_of_here|].
  apply IH; [done|]. intros a2 y Ha2 Hy. apply Hbody; [done|].
  by apply list_elem_of_further.
Qed.

(** The same, for a body that only adds to the state: what a step
    achieves for its element, if kept by additions, holds at the end for
    every element. *)
Lemma for_each_settles (P : App -> Prop) (R : A -> App -> Prop)
      (body : App -> A -> option App) l a :
  P a ->
  (forall a x, P a -> x ∈ l ->
               exists a', body a x = Some a' /\ P a' /\ R x a' /\ grown a a') ->
  (forall x a a', R x a -> grown a a' -> R x a') ->
  exists a', for_each body l a = Some a' /\ P a' /\ grown a a'
             /\ forall x, x ∈ l -> R x a'.
Proof.
  intros Ha Hbody Hkeep. revert a Ha.
  induction l as [|x l IH]; intros a Ha; cbn [for_each].
  - exists a. split; [done|]. split; [done|]. split; [apply grown_refl|].
    intros x Hx. by apply elem_of_nil in Hx.
  - destruct (Hbody a x Ha) as (a1 & -> & Ha1 & Hx1 & Hg1); [apply list_elem_of_here|].
    destruct IH with (a := a1) as (a' & Hrun & Ha' & Hg' & Hall); [|done|].
    + intros a2 y Ha2 Hy. apply Hbody; [done|]. by apply list_elem_of_further.
    + exists a'. split; [done|]. split; [done|].
      split; [by eapply grown_trans|].
      intros y [->|Hy]%elem_of_cons; [by eapply Hkeep|by apply Hall].
Qed.

(** More fuel in the body never changes a result already obtained. *)
Lemma for_each_mono (body1 body2 : App -> A -> option App) l a a' :
  (forall a x a', body1 a x = Some a' -> body2 a x = Some a') ->
  for_each body1 l a = Some a' -> for_each body2 l a = Some a'.
Proof.
  intros Hb. revert a. induction l as [|x l IH]; intros a; cbn [for_each]; [done|].
  destruct (body1 a x) as [a1|] eqn:H1; [|discriminate].
  rewrite (Hb _ _ _ H1). apply IH.
Qed.

Lemma for_each_raising_invariant (P : App -> Prop) (body : App -> A -> outcome) l a :
  P a ->
  (forall a x, P a -> P (state_of (body a x))) ->
  P (state_of (for_each_raising body l a)).
Proof.
  intros Ha Hbody. revert a Ha.
  induction l as [|x l IH]; intros a Ha; cbn [for_each_raising]; [done|].
  specialize (Hbody a x Ha). destruct (body a x) as [a1|a1]; cbn in *; auto.
Qed.

End Loops.

Section FuelMonotone.

Variable fs : FS.

Lemma add_item_mono (r1 r2 : string -> App -> option App) d a item a' :
  (forall p a a', r1 p a = Some a' -> r2 p a = Some a') ->
  add_item fs r1 d a item = Some a' -> add_item fs r2 d a item = Some a'.
Proof.
  intros Hr. unfold add_item. cbv zeta.
  repeat case_match; try done. apply Hr.
Qed.

Lemma add_directory_contents_mono fuel fuel' d a a' :
  fuel <= fuel' ->
  add_directory_contents fs fuel d a = Some a' ->
  add_directory_contents fs fuel' d a = Some a'.
Proof.
  revert fuel' d a a'. induction fuel as [|fuel IH]; intros fuel' d a a' Hle; [done|].
  destruct fuel' as [|fuel']; [lia|].
  cbn [add_directory_contents]. cbv zeta.
  destruct (negb _); [done|].
  destruct (fs_listdir fs d); [|done].
  destruct (for_each _ _ _) as [a1|] eqn:Hloop; [|discriminate].
  erewrite for_each_mono; [done| |exact Hloop].
  intros a2 x a2'. apply add_item_mono.
  intros p a3 a3'. apply IH. lia.
Qed.

Lemma build_tree_for_mono fuel fuel' a folder a' :
  fuel <= fuel' ->
  build_tree_for fs fuel a folder = Some a' ->
  build_tree_for fs fuel' a folder = Some a'.
Proof.
  intros Hle. unfold build_tree_for. cbv zeta.
  repeat case_match; try done; by apply add_directory_contents_mono.
Qed.

Lemma build_all_trees_mono fuel fuel' a a' :
  fuel <= fuel' ->
  build_all_trees fs fuel a = Some a' ->
  build_all_trees fs fuel' a = Some a'.
Proof.
  intros Hle. unfold build_all_trees. cbv zeta.
  destruct (for_each _ _ _) as [a1|] eqn:H1; [|discriminate].
  intros [= <-].
  erewrite for_each_mono; [done| |exact H1].
  intros a2 x a2'. cbv beta. case_match; [done|]. by apply build_tree_for_mono.
Qed.

End FuelMonotone.

Lemma has_entry_insert a p n q :
  has_entry (with_tree (<[p := n]> (folder_tree_data a)) a) q <-> q = p \/ has_entry a q.
Proof.
  unfold has_entry. cbn. destruct (decide (p = q)) as [->|Hne].
  - rewrite lookup_insert_eq. split; [by left|by eauto].
  - rewrite lookup_insert_ne by done. split; [by right|]. intros [->|]; done.
Qed.

Lemma grown_insert a p n :
  grown a (with_tree (<[p := n]> (folder_tree_data a)) a).
Proof.
  split; [by repeat split|]. split; [done|].
  intros q Hq. apply has_entry_insert. by right.
Qed.

Lemma grown_visit a x : grown a (with_visited ({[x]} ∪ visited_dirs a) a).
Proof. split; [by repeat split|]. split; [cbn; set_solver|done]. Qed.

(** What is dealt with stays dealt with when the state only grows. *)
Lemma item_settled_grown fs a a' d item :
  item_settled fs a d item -> grown a a' -> item_settled fs a' d item.
Proof.
  unfold item_settled. cbv zeta. intros H (Hs & Hv & He).
  rewrite <- (same_settings_filters a a' _ Hs).
  destruct H as [?|[?|[?|[? ?]]]]; [by left|right; by left|right; right; left; auto|].
  right. right. right. split; [done|]. by apply Hv.
Qed.

Lemma listings_settled_grown fs a a' :
  listings_settled fs a -> grown a a' -> listed a' = listed a ->
  listings_settled fs a'.
Proof.
  intros H Hg Hl d items item Hd Hls Hitem. rewrite Hl in Hd.
  eapply item_settled_grown; [|exact Hg]. by eapply H.
Qed.

(** Entering a path that the filters do not match, listed in a directory
    that has an entry, keeps the invariant. *)
Lemma scan_invariant_insert fs a d items item n :
  scan_invariant fs a ->
  fs_listdir fs d = Some items -> item ∈ items -> has_entry a d ->
  filters_match a (PyStr.join d item) = false ->
  scan_invariant fs (with_tree (<[PyStr.join d item := n]> (folder_tree_data a)) a).
Proof.
  intros (Hexp & Hunf & Henum & Hset) Hls Hitem Hd Hf.
  split; [exact Hexp|]. split; [|split].
  - intros p Hp. apply has_entry_insert in Hp as [Heq|Hp]; [subst p; by right|].
    apply (Hunf p Hp).
  - intros p Hp. apply has_entry_insert in Hp as [Heq|Hp]; [subst p|].
    + right. exists d, item, items. repeat split; try done.
      apply has_entry_insert. by right.
    + destruct (Henum p Hp) as [Hroot|(d0 & i0 & is0 & -> & Hl0 & Hi0 & Hd0)]; [by left|].
      right. exists d0, i0, is0. repeat split; try done.
      apply has_entry_insert. by right.
  - eapply listings_settled_grown; [exact Hset|apply grown_insert|done].
Qed.

Lemma scan_invariant_visit fs a x :
  scan_invariant fs a ->
  scan_invariant fs (with_visited ({[x]} ∪ visited_dirs a) a).
Proof.
  intros ((Hnd & Hsub) & Hunf & Henum & Hset). split; [|split; [done|split; [done|]]].
  - split; [exact Hnd|]. intros y Hy. cbn. specialize (Hsub y Hy). set_solver.
  - eapply listings_settled_grown; [exact Hset|apply grown_visit|done].
Qed.

Section ScanInvariant.

Variable fs : FS.

(** The canonical paths of all directories: a finite set. *)
Variable all_dirs : gset string.
Hypothesis all_dirs_complete :
  forall p, fs_isdir fs p = true -> fs_realpath fs p ∈ all_dirs.

Lemma unvisited_shrinks (x : string) (v : gset string) :
  x ∈ all_dirs -> x ∉ v ->
  size (all_dirs ∖ ({[x]} ∪ v)) < size (all_dirs ∖ v).
Proof.
  intros Hx Hv. apply subset_size. split; [set_solver|].
  intros H. specialize (H x). set_solver.
Qed.

Lemma unvisited_mono (v v' : gset string) :
  v ⊆ v' -> size (all_dirs ∖ v') <= size (all_dirs ∖ v).
Proof. intros H. apply subseteq_size. set_solver. Qed.

Lemma unvisited_le (v : gset string) : size (all_dirs ∖ v) <= size all_dirs.
Proof. apply subseteq_size. set_solver. Qed.

Lemma add_item_spec fuel d items item a :
  expands_well fs all_dirs fuel ->
  fs_listdir fs d = Some items -> item ∈ items ->
  scan_invariant fs a -> has_entry a d ->
  size (all_dirs ∖ visited_dirs a) < S fuel ->
  exists a', add_item fs (add_directory_contents fs fuel) d a item = Some a'
             /\ scan_invariant fs a' /\ item_settled fs a' d item /\ grown a a'.
Proof.
  intros IH Hls Hitem Hinv Hd Hfuel. unfold add_item, item_settled. cbv zeta.
  set (path := PyStr.join d item).
  destruct (filters_match a path) eqn:Hf.
  { exists a. split; [done|]. split; [done|]. split; [by left|apply grown_refl]. }
  destruct (fs_samefile fs d path) as [[]|] eqn:Hsame.
  { exists a. split; [done|]. split; [done|]. split; [right; by left|apply grown_refl]. }
  2:{ exists a. split; [done|]. split; [done|]. split; [right; by left|apply grown_refl]. }
  destruct (in_visited (fs_realpath fs path) a && fs_isdir fs path) eqn:Hseen.
  { apply andb_true_iff in Hseen as [Hv%in_visited_true Hdir].
    exists a. split; [done|]. split; [done|].
    split; [right; right; right; done|apply grown_refl]. }
  set (a1 := with_tree _ a).
  assert (scan_invariant fs a1) as Hinv1 by (by eapply scan_invariant_insert).
  assert (grown a a1) as Hg1 by apply grown_insert.
  assert (has_entry a1 path) as Hent1 by (apply has_entry_insert; by left).
  destruct (fs_isdir fs path) eqn:Hisdir.
  2:{ exists a1. split; [done|]. split; [done|]. split; [|done].
      right. right. by left. }
  rewrite andb_true_r in Hseen. apply in_visited_false in Hseen.
  set (a2 := with_visited _ a1).
  assert (scan_invariant fs a2) as Hinv2 by (by apply scan_invariant_visit).
  assert (grown a1 a2) as Hg2 by apply grown_visit.
  destruct (negb (is_potentially_problematic_path fs path)).
  2:{ exists a2. split; [done|]. split; [done|].
      split; [|by eapply grown_trans]. right. right. by left. }
  destruct (IH path a2) as (a' & Hrun & Hinv' & Hg'); try done.
  - cbn. set_solver.
  - cbn. destruct Hinv as ((_ & Hsub) & _). intros Hin. by apply Hseen, Hsub.
  - cbn. pose proof (unvisited_shrinks (fs_realpath fs path) (visited_dirs a)
                       (all_dirs_complete path Hisdir) Hseen). lia.
  - exists a'. split; [done|]. split; [done|]. split.
    + right. right. left. apply Hg', Hent1.
    + eapply grown_trans; [exact Hg1|]. by eapply grown_trans.
Qed.

Lemma add_directory_contents_spec fuel : expands_well fs all_dirs fuel.
Proof.
  induction fuel as [|fuel IH]; intros d a Hinv Hd Hvis Hnew Hfuel; [lia|].
  cbn [add_directory_contents]. cbv zeta.
  set (a0 := with_expanded _ a).
  assert (grown a a0) as Hg0 by (split; [by repeat split|split; [done|by intros]]).
  assert (scan_invariant fs a0) as Hinv0.
  { destruct Hinv as ((Hnd & Hsub) & Hunf & Henum & Hset).
    split; [|split; [done|split; [done|]]].
    - split; cbn.
      + apply NoDup_app. split; [done|]. split; [|apply NoDup_singleton].
        intros x Hx ->%list_elem_of_singleton. done.
      + intros x [Hx| ->%list_elem_of_singleton]%elem_of_app; auto.
    - by eapply listings_settled_grown. }
  destruct (negb _); [by exists a0|].
  destruct (fs_listdir fs d) as [items|] eqn:Hls; [|by exists a0].
  destruct (for_each_settles
              (fun cur => scan_invariant fs cur /\ grown a0 cur)
              (fun item cur => item_settled fs cur d item)
              (add_item fs (add_directory_contents fs fuel) d) (sorted items) a0)
    as (a' & Hrun & (Hinv' & _) & Hg' & Hall); [split; [done|apply grown_refl]| | |].
  - intros cur item (Hcur & Hgc) Hitem. apply (proj1 (elem_of_sorted _ _)) in Hitem.
    destruct (add_item_spec fuel d items item cur IH Hls Hitem Hcur)
      as (cur' & Hstep & Hinvc & Hsettled & Hgc').
    + apply Hgc, Hd.
    + destruct Hgc as (_ & Hv & _).
      pose proof (unvisited_mono _ _ Hv). cbn in *. lia.
    + exists cur'. split; [done|]. split; [|done]. split; [done|].
      by eapply grown_trans.
  - intros item cur cur'. apply item_settled_grown.
  - rewrite Hrun. eexists. split; [reflexivity|]. split.
    + destruct Hinv' as (Hexp & Hunf & Henum & Hset).
      split; [done|]. split; [done|]. split; [done|].
      intros d0 items0 item0 Hd0 Hls0 Hitem0. cbn in Hd0.
      apply elem_of_app in Hd0 as [Hd0|Hd0].
      * by eapply (Hset d0 items0 item0).
      * apply list_elem_of_singleton in Hd0. subst d0.
        rewrite Hls in Hls0. injection Hls0 as <-.
        apply (Hall item0). by apply elem_of_sorted.
    + eapply grown_trans; [exact Hg0|].
      destruct Hg' as (Hs & Hv & He). split; [|split]; done.
Qed.

Lemma build_tree_for_spec fuel a folder :
  scan_invariant fs a -> folder ∈ root_folders a -> size all_dirs < fuel ->
  exists a', build_tree_for fs fuel a folder = Some a'
             /\ scan_invariant fs a' /\ grown a a'.
Proof.
  intros Hinv Hroot Hfuel. unfold build_tree_for. cbv zeta.
  destruct (negb _); [exists a; split; [done|split; [done|apply grown_refl]]|].
  destruct (in_visited (fs_realpath fs folder) a) eqn:Hseen;
    [exists a; split; [done|split; [done|apply grown_refl]]|].
  apply in_visited_false in Hseen.
  set (a1 := with_visited _ a).
  assert (scan_invariant fs a1) as Hinv1 by (by apply scan_invariant_visit).
  assert (grown a a1) as Hg1 by apply grown_visit.
  set (a2 := if in_tree folder a1 then a1 else _).
  assert (scan_invariant fs a2 /\ grown a1 a2 /\ has_entry a2 folder
          /\ visited_dirs a2 = visited_dirs a1 /\ expanded a2 = expanded a)
    as (Hinv2 & Hg2 & Hent & Hv2 & He2).
  { subst a2. destruct (in_tree folder a1) eqn:Hin.
    - apply in_tree_true in Hin.
      split; [done|]. split; [apply grown_refl|]. by split.
    - destruct Hinv1 as (Hexp & Hunf & Henum & Hset).
      split; [split; [done|split; [|split]]|
              split; [apply grown_insert|split; [|done]]].
      + intros p Hp. apply has_entry_insert in Hp as [Heq|Hp]; [subst p; by left|].
        by apply Hunf.
      + intros p Hp. apply has_entry_insert in Hp as [Heq|Hp]; [subst p; by left|].
        destruct (Henum p Hp) as [?|(d0 & i0 & is0 & -> & Hl0 & Hi0 & Hd0)]; [by left|].
        right. exists d0, i0, is0. repeat split; try done.
        apply has_entry_insert. by right.
      + eapply listings_settled_grown; [exact Hset|apply grown_insert|done].
      + apply has_entry_insert. by left. }
  destruct (add_directory_contents_spec fuel folder a2) as (a' & Hrun & Hinv' & Hg');
    try done.
  - rewrite Hv2. cbn. set_solver.
  - rewrite He2. destruct Hinv as ((_ & Hsub) & _). intros Hin. by apply Hseen, Hsub.
  - pose proof (unvisited_le (visited_dirs a2)). lia.
  - exists a'. split; [done|]. split; [done|].
    eapply grown_trans; [exact Hg1|]. by eapply grown_trans.
Qed.

End ScanInvariant.

(** *** [apply_saved_checks] *)

Lemma apply_saved_checks_lookup a p :
  folder_tree_data (apply_saved_checks a) !! p
  = restored a p <$> folder_tree_data a !! p.
Proof.
  unfold apply_saved_checks, restored. cbn [folder_tree_data with_tree].
  revert p.
  apply (map_fold_weak_ind
           (fun (t : gmap string node) (saved : gmap string bool) =>
              forall p, t !! p
                = (fun n => match saved !! p with
                            | Some chk => if filters_match a p then n
                                          else set_checked chk n
                            | None => n
                            end) <$> folder_tree_data a !! p)).
  - intros p. rewrite lookup_empty. by destruct (folder_tree_data a !! p).
  - intros path chk saved t Hfresh IH p.
    destruct (decide (path = p)) as [->|Hne].
    + rewrite lookup_insert_eq.
      destruct (bool_decide (is_Some (t !! p))) eqn:Hin; cbn [andb].
      * destruct (filters_match a p); cbn [negb].
        -- rewrite IH, Hfresh. done.
        -- rewrite lookup_alter_eq, IH, Hfresh.
           by destruct (folder_tree_data a !! p).
      * apply bool_decide_eq_false in Hin.
        rewrite IH in Hin |- *. rewrite Hfresh.
        destruct (folder_tree_data a !! p); [|done].
        exfalso. apply Hin. by eexists.
    + rewrite lookup_insert_ne by done.
      destruct (_ && _); [rewrite lookup_alter_ne by done|]; apply IH.
Qed.

(** Run right after [apply_saved_checks], with nothing entered in
    between, [_delayed_apply_remaining_checks] finds nothing to do. *)
Lemma delayed_apply_after_apply a :
  _delayed_apply_remaining_checks (apply_saved_checks a) = apply_saved_checks a.
Proof.
  set (b := apply_saved_checks a).
  assert (map_fold (fun path chk t =>
                      match t !! path with
                      | None => t
                      | Some n =>
                          if negb (Bool.eqb (checked n) chk)
                             && negb (filters_match b path)
                          then alter (set_checked chk) path t
                          else t
                      end)
                   (folder_tree_data b) (saved_folder_checks b)
          = folder_tree_data b) as Hfold.
  { generalize (fun p chk (H : saved_folder_checks b !! p = Some chk) => H).
    generalize (saved_folder_checks b) at 1 3.
    refine (map_fold_weak_ind
              (fun (r : gmap string node) (m : gmap string bool) =>
                 (forall p chk, m !! p = Some chk ->
                                saved_folder_checks b !! p = Some chk) ->
                 r = folder_tree_data b) _ _ _ _).
    - done.
    - intros path chk m r Hfresh IH Hsub.
      rewrite IH.
      2:{ intros p c Hp. apply Hsub. rewrite lookup_insert_ne; [done|].
          intros ->. congruence. }
      specialize (Hsub path chk (lookup_insert_eq _ _ _)).
      subst b. rewrite apply_saved_checks_lookup.
      unfold restored. cbn [saved_folder_checks apply_saved_checks with_tree] in Hsub.
      rewrite Hsub.
      assert (filters_match (apply_saved_checks a) path = filters_match a path) as ->
        by (by apply filters_match_ext).
      destruct (folder_tree_data a !! path) as [n|]; cbn; [|done].
      destruct (filters_match a path); cbn; [by rewrite andb_false_r|].
      by rewrite eqb_reflx. }
  unfold _delayed_apply_remaining_checks. rewrite Hfold. by destruct b.
Qed.

Lemma apply_saved_checks_has_entry a p :
  has_entry (apply_saved_checks a) p <-> has_entry a p.
Proof.
  unfold has_entry. rewrite apply_saved_checks_lookup. apply fmap_is_Some.
Qed.

Lemma apply_saved_checks_invariant fs a :
  scan_invariant fs a -> scan_invariant fs (apply_saved_checks a).
Proof.
  intros (Hexp & Hunf & Henum & Hset). split; [exact Hexp|]. split; [|split].
  - intros p Hp. apply (proj1 (apply_saved_checks_has_entry _ _)) in Hp.
    apply (Hunf p Hp).
  - intros p Hp. apply (proj1 (apply_saved_checks_has_entry _ _)) in Hp.
    destruct (Henum p Hp) as [?|(d0 & i0 & is0 & -> & Hl0 & Hi0 & Hd0)]; [by left|].
    right. exists d0, i0, is0. repeat split; try done.
    by apply apply_saved_checks_has_entry.
  - eapply listings_settled_grown; [exact Hset| |done].
    split; [by repeat split|]. split; [done|].
    intros p Hp. by apply apply_saved_checks_has_entry.
Qed.

Section ScanTotal.

Variable fs : FS.
Variable all_dirs : gset string.
Hypothesis all_dirs_complete :
  forall p, fs_isdir fs p = true -> fs_realpath fs p ∈ all_dirs.

(** A full rebuild returns, given one unit of fuel more than there are
    directories, and its result satisfies the invariant. *)
Lemma build_all_trees_spec fuel a :
  size all_dirs < fuel ->
  exists a', build_all_trees fs fuel a = Some a'
             /\ scan_invariant fs a' /\ same_settings a a'.
Proof.
  intros Hfuel. unfold build_all_trees. cbv zeta.
  set (a0 := with_listed [] _).
  destruct (for_each_invariant
              (fun cur => scan_invariant fs cur /\ same_settings a0 cur)
              (fun a folder => if negb (fs_exists fs folder) then Some a
                               else build_tree_for fs fuel a folder)
              (root_folders a0) a0) as (a1 & -> & Hinv1 & Hs1).
  - split; [|apply same_settings_refl]. split; [|split; [|split]].
    + split; [apply NoDup_nil_2|]. intros x Hx. by apply elem_of_nil in Hx.
    + intros p [n Hp]. cbn in Hp. by rewrite lookup_empty in Hp.
    + intros p [n Hp]. cbn in Hp. by rewrite lookup_empty in Hp.
    + intros d items item Hd. by apply elem_of_nil in Hd.
  - intros cur folder (Hcur & Hsc) Hfolder. cbv beta.
    destruct (negb _); [by exists cur|].
    destruct (build_tree_for_spec fs all_dirs all_dirs_complete fuel cur folder)
      as (cur' & Hrun & Hinv' & (Hs' & _)); try done.
    + destruct Hsc as (Hr & _). by rewrite <- Hr.
    + exists cur'. split; [done|]. split; [done|]. by eapply same_settings_trans.
  - exists (apply_saved_checks a1). split; [done|].
    split; [by apply apply_saved_checks_invariant|].
    eapply same_settings_trans; [|eapply same_settings_trans; [exact Hs1|]];
      by repeat split.
Qed.

End ScanTotal.

(** *** Polling *)

Section Polling.

Variable fs : FS.






End Polling.

(** *** The finite file systems *)

Lemma graph_dirs_complete (g : GraphFS.graph) (p : string) :
  fs_isdir (GraphFS.to_fs g) p = true ->
  fs_realpath (GraphFS.to_fs g) p ∈ GraphFS.canonical_dirs g.
Proof.
  cbn. unfold GraphFS.g_isdir, GraphFS.g_realpath, GraphFS.is_dir_node,
    GraphFS.canonical_dirs.
  destruct (GraphFS.resolve g p) as [n|]; [|discriminate].
  destruct (g !! n) as [[c [] es]|] eqn:Hn; try discriminate. intros _.
  apply elem_of_list_to_set, list_elem_of_In, in_map_iff.
  exists (GraphFS.GNode c GraphFS.KDir es). split; [done|].
  apply filter_In. split; [|done].
  apply list_elem_of_In. by eapply list_elem_of_lookup_2.
Qed.

(** C2.  In one scan generation, that is one [build_all_trees] with its
    fresh [visited_dirs], no canonical directory path is expanded twice,
    and every expanded one is recorded in [visited_dirs]; the scan
    returns as soon as the fuel exceeds the number of directories,
    whatever links and cycles the file system has, and more fuel gives
    the same result. *)
Theorem each_directory_expanded_once
        (fs : FS) (all_dirs : gset string) (a : App) (fuel : nat) :
  (forall p, fs_isdir fs p = true -> fs_realpath fs p ∈ all_dirs) ->
  size all_dirs < fuel ->
  exists a',
    build_all_trees fs fuel a = Some a'
    /\ (forall more, build_all_trees fs (fuel + more) a = Some a')
    /\ NoDup (expanded a')
    /\ (forall x, x ∈ expanded a' -> x ∈ visited_dirs a').
Proof.
  intros Hdirs Hfuel.
  destruct (build_all_trees_spec fs all_dirs Hdirs fuel a Hfuel)
    as (a' & Hrun & ((Hnd & Hsub) & _) & _).
  exists a'. split; [done|]. split; [|done].
  intros more. eapply build_all_trees_mono; [|exact Hrun]. lia.
Qed.

Lemma each_directory_expanded_once_witness :
  exists a',
    build_all_trees (GraphFS.to_fs cyclic_graph) 4
                    (configure ["/a"] [] true initial_app) = Some a'
    /\ (forall more,
           build_all_trees (GraphFS.to_fs cyclic_graph) (4 + more)
                           (configure ["/a"] [] true initial_app) = Some a')
    /\ NoDup (expanded a')
    /\ (forall x, x ∈ expanded a' -> x ∈ visited_dirs a').
Proof.
  apply (each_directory_expanded_once (GraphFS.to_fs cyclic_graph)
           (GraphFS.canonical_dirs cyclic_graph)).
  - apply graph_dirs_complete.
  - vm_compute. lia.
Defined.

(** The scan of the cyclic tree: [/a] and [/a/b] are expanded once each,
    and the links [self], [up] and [b2] add nothing. *)
Example cyclic_scan :
  option_map (fun a' => (expanded a', sorted (tree_keys a')))
             (build_all_trees (GraphFS.to_fs cyclic_graph) 4
                              (configure ["/a"] [] true initial_app))
  = Some (["/a"; "/a/b"], ["/a"; "/a/b"; "/a/b/f.txt"]).
Proof. vm_compute. reflexivity. Qed.

(** Names that are listed, that the filters do not match, and that get
    no entry: [/a/self] is the directory [/a] itself, and [/a/b2] is a
    second name of [/a/b], which was visited under its first name. *)
Example listed_links_have_no_entry :
  let fs := GraphFS.to_fs cyclic_graph in
  let a := configure ["/a"] [] true initial_app in
  fs_listdir fs "/a" = Some ["self"; "b2"; "b"]
  /\ filters_match a "/a/self" = false /\ filters_match a "/a/b2" = false
  /\ fs_samefile fs "/a" "/a/self" = Some true
  /\ fs_samefile fs "/a" "/a/b2" = Some false
  /\ fs_realpath fs "/a/b2" = "/a/b"
  /\ option_map (fun a' => (sorted (tree_keys a'), listed a',
                            bool_decide ("/a/b" ∈ visited_dirs a')))
                (build_all_trees fs 4 a)
     = Some (["/a"; "/a/b"; "/a/b/f.txt"], ["/a/b"; "/a"], true).
Proof. cbv zeta. repeat split; vm_compute; reflexivity. Qed.




(** What a poll pass does below a directory that the filters match:
    [os.walk] goes on into [/proj/.cache], and the pass enters
    [/proj/.cache/sub] and its file, whose own paths the filters do not
    match. *)
Example poll_enters_below_ignored_directory :
  let fs := GraphFS.to_fs cache_graph in
  let a := configure ["/proj"] [] true initial_app in
  filters_match a "/proj/.cache" = true
  /\ option_map (fun a' => sorted (tree_keys a')) (build_all_trees fs 5 a)
     = Some ["/proj"]
  /\ option_map (fun a' => sorted (tree_keys (schedule_folder_poll fs 1 a')))
                (build_all_trees fs 5 a)
     = Some ["/proj"; "/proj/.cache/sub"; "/proj/.cache/sub/f.txt"].
Proof. cbv zeta. repeat split; vm_compute; reflexivity. Qed.

(** C6 (as amended).  Root [/proj] holding [/proj/.git/config],
    [/proj/src/a.py] and [/proj/src/a.py~], ignore patterns [*/.git/*]
    and [*~], and the system-folder filter switched on: the scan gives
    exactly the entries [/proj], [/proj/src] and [/proj/src/a.py]. *)
Theorem proj_scan_has_three_entries (more : nat) :
  exists a',
    build_all_trees (GraphFS.to_fs proj_graph) (3 + more) (proj_app true) = Some a'
    /\ dom (folder_tree_data a') = {[ "/proj"; "/proj/src"; "/proj/src/a.py" ]}
    /\ size (folder_tree_data a') = 3.
Proof.
  eexists. split.
  - eapply (build_all_trees_mono _ 3); [lia|]. vm_compute. reflexivity.
  - split; vm_compute; reflexivity.
Qed.

(** C6 (the claim as stated fails).  The same tree and patterns with the
    system-folder filter switched off: [*/.git/*] does not match
    [/proj/.git] itself, so the scan gives four entries, [/proj/.git]
    among them. *)
Lemma proj_scan_without_system_filter :
  exists a',
    build_all_trees (GraphFS.to_fs proj_graph) 3 (proj_app false) = Some a'
    /\ dom (folder_tree_data a')
       = {[ "/proj"; "/proj/.git"; "/proj/src"; "/proj/src/a.py" ]}
    /\ size (folder_tree_data a') = 4
    /\ Fnmatch.fnmatch "/proj/.git" "*/.git/*" = false.
Proof.
  eexists. split; [vm_compute; reflexivity|].
  repeat split; vm_compute; reflexivity.
Qed.

(* ===================================================================== *)
(** ** Saving and loading the check marks                                 *)
(* ===================================================================== *)

Lemma save_settings_folder_checks a p :
  s_folder_checks (save_settings a) !! p = checked <$> folder_tree_data a !! p.
Proof.
  cbn [save_settings s_folder_checks]. revert p.
  apply (map_fold_weak_ind
           (fun (fc : gmap string bool) (t : gmap string node) =>
              forall p, fc !! p = checked <$> t !! p)).
  - intros p. by rewrite !lookup_empty.
  - intros path info t fc Hfresh IH p.
    destruct (decide (path = p)) as [->|Hne].
    + by rewrite !lookup_insert_eq.
    + rewrite !lookup_insert_ne by done. apply IH.
Qed.

Section Unchecked.

Variable fs : FS.

Lemma for_each_preserves {A : Type} (P : App -> Prop)
      (body : App -> A -> option App) l a a' :
  (forall a x a', body a x = Some a' -> P a -> P a') ->
  for_each body l a = Some a' -> P a -> P a'.
Proof.
  intros Hb. revert a. induction l as [|x l IH]; intros a; cbn [for_each].
  - by intros [= <-].
  - destruct (body a x) as [a1|] eqn:H1; [|discriminate].
    intros Hrun Ha. apply (IH a1 Hrun). by eapply Hb.
Qed.

Lemma all_unchecked_insert a p isd :
  all_unchecked a ->
  all_unchecked (with_tree (<[p := Node false isd]> (folder_tree_data a)) a).
Proof.
  intros Ha q n. cbn. destruct (decide (p = q)) as [->|Hne].
  - rewrite lookup_insert_eq. by intros [= <-].
  - rewrite lookup_insert_ne by done. apply Ha.
Qed.

(** A property kept by the three writes of the scanner is kept by the
    scan, whenever it returns. *)
Section Preserved.

Variable P : App -> Prop.
Hypothesis P_expanded : forall a e, P a -> P (with_expanded e a).
Hypothesis P_listed : forall a l, P a -> P (with_listed l a).
Hypothesis P_visited : forall a v, P a -> P (with_visited v a).
Hypothesis P_entered :
  forall a p isd,
    P a -> P (with_tree (<[p := Node false isd]> (folder_tree_data a)) a).

Lemma add_directory_contents_preserves fuel d a a' :
  add_directory_contents fs fuel d a = Some a' -> P a -> P a'.
Proof.
  revert d a a'. induction fuel as [|fuel IH]; intros d a a'; [done|].
  cbn [add_directory_contents]. cbv zeta.
  destruct (negb _); [intros [= <-]; by apply P_expanded|].
  destruct (fs_listdir fs d); [|intros [= <-]; by apply P_expanded].
  destruct (for_each _ _ _) as [a1|] eqn:Hloop; [|discriminate].
  intros [= <-] Ha. apply P_listed.
  eapply (for_each_preserves P); [|exact Hloop|by apply P_expanded].
  intros cur item cur'. unfold add_item. cbv zeta.
  destruct (filters_match cur _); [by intros [= <-]|].
  destruct (fs_samefile fs d _) as [[]|]; try by intros [= <-].
  destruct (_ && _); [by intros [= <-]|].
  destruct (fs_isdir fs _).
  - destruct (negb _).
    + intros Hrec Hc. eapply IH; [exact Hrec|].
      by apply P_visited, P_entered.
    + intros [= <-] Hc. by apply P_visited, P_entered.
  - intros [= <-] Hc. by apply P_entered.
Qed.

Lemma build_tree_for_preserves fuel a folder a' :
  build_tree_for fs fuel a folder = Some a' -> P a -> P a'.
Proof.
  unfold build_tree_for. cbv zeta.
  destruct (negb _); [by intros [= <-]|].
  destruct (in_visited _ a); [by intros [= <-]|].
  intros Hrun Ha. eapply add_directory_contents_preserves; [exact Hrun|].
  destruct (in_tree _ _); [by apply P_visited|].
  by apply (P_entered (with_visited _ a)), P_visited.
Qed.

End Preserved.

(** The state of a full rebuild just before [apply_saved_checks]: no
    check mark yet, and the settings of the start. *)
Lemma build_all_trees_unfold fuel a a' :
  build_all_trees fs fuel a = Some a' ->
  exists a1, a' = apply_saved_checks a1 /\ all_unchecked a1 /\ same_settings a a1.
Proof.
  unfold build_all_trees. cbv zeta.
  destruct (for_each _ _ _) as [a1|] eqn:Hrun; [|discriminate].
  intros [= <-]. exists a1. split; [done|].
  set (a0 := with_listed [] _) in Hrun.
  eapply (for_each_preserves
            (fun cur => all_unchecked cur /\ same_settings a cur)) in Hrun;
    [exact Hrun| |].
  - clear. intros cur folder cur'. cbv beta.
    destruct (negb _); [by intros [= <-]|].
    apply (build_tree_for_preserves
             (fun cur => all_unchecked cur /\ same_settings a cur)).
    + intros a1 e (Hu & Hs). split; [exact Hu|].
      eapply same_settings_trans; [exact Hs|]. by repeat split.
    + intros a1 l (Hu & Hs). split; [exact Hu|].
      eapply same_settings_trans; [exact Hs|]. by repeat split.
    + intros a1 v (Hu & Hs). split; [exact Hu|].
      eapply same_settings_trans; [exact Hs|]. by repeat split.
    + intros a1 p isd (Hu & Hs). split; [by apply all_unchecked_insert|].
      eapply same_settings_trans; [exact Hs|]. by repeat split.
  - split; [|by repeat split].
    intros p n Hp. cbn in Hp. by rewrite lookup_empty in Hp.
Qed.

End Unchecked.

Lemma load_settings_checks fs fuel data a a' p :
  load_settings fs fuel data a = Some a' ->
  is_checked (folder_tree_data a') p = true <->
  has_entry a' p /\ s_folder_checks data !! p = Some true
  /\ filters_match a' p = false.
Proof.
  unfold load_settings. intros Hrun.
  apply build_all_trees_unfold in Hrun as (a1 & -> & Hu & Hs).
  assert (saved_folder_checks a1 = s_folder_checks data) as Hsaved
    by (destruct Hs as (_ & _ & _ & Hsv & _); by rewrite <- Hsv).
  assert (filters_match (apply_saved_checks a1) p = filters_match a1 p) as ->
    by (by apply filters_match_ext).
  unfold is_checked, has_entry. rewrite apply_saved_checks_lookup.
  unfold restored. rewrite Hsaved.
  destruct (folder_tree_data a1 !! p) as [n|] eqn:Hn; cbn [fmap option_fmap option_map].
  - specialize (Hu p n Hn).
    destruct (s_folder_checks data !! p) as [[]|];
      destruct (filters_match a1 p); cbn; rewrite ?Hu;
      split; try done; try (intros (_ & ? & ?); done).
  - split; [done|]. by intros ([? ?] & _).
Qed.


(** The scenario's tree once scanned, with [a.py] checked and an entry
    left over for a file that is no longer on the disk. *)
Example load_proj_settings :
  option_map (fun a' => map_to_list (checked <$> folder_tree_data a'))
             (load_settings (GraphFS.to_fs proj_graph) 3 proj_settings initial_app)
  = Some [("/proj/src/a.py", true); ("/proj/src", false); ("/proj", false)].
Proof. vm_compute. reflexivity. Qed.


(* ===================================================================== *)
(** ** Validation before an export                                        *)
(* ===================================================================== *)

Lemma set_checked_false_unchecked n : checked n = false -> set_checked false n = n.
Proof. destruct n as [c d]. cbn. by intros ->. Qed.

Lemma uncheck_lookup (t : gmap string node) (x p : string) :
  (if is_checked t x then alter (set_checked false) x t else t) !! p
  = if decide (p = x) then set_checked false <$> t !! p else t !! p.
Proof.
  unfold is_checked. destruct (decide (p = x)) as [->|Hne].
  - destruct (t !! x) as [n|] eqn:Hn.
    + destruct (checked n) eqn:Hc.
      * by rewrite lookup_alter_eq, Hn.
      * rewrite Hn. cbn. by rewrite set_checked_false_unchecked.
    + by rewrite Hn.
  - destruct (t !! x) as [n|]; [destruct (checked n)|]; try done.
    by rewrite lookup_alter_ne.
Qed.

Section Unchecking.

(** A loop that unchecks the paths of [l] that satisfy [Q]. *)
Variable Q : string -> Prop.
Context `{Q_dec : !forall p, Decision (Q p)}.
Variable step : gmap string node -> string -> gmap string node.
Hypothesis step_lookup :
  forall t x p,
    step t x !! p
    = if decide (p = x /\ Q p) then set_checked false <$> t !! p else t !! p.

Lemma foldl_uncheck_lookup l t p :
  foldl step t l !! p
  = if decide (p ∈ l /\ Q p) then set_checked false <$> t !! p else t !! p.
Proof.
  revert t. induction l as [|x l IH]; intros t; cbn [foldl].
  - case_decide as H; [|done]. destruct H as [H _]. by apply elem_of_nil in H.
  - rewrite IH, step_lookup.
    destruct (decide (p ∈ l /\ Q p)) as [[Hl Hq]|Hn];
      destruct (decide (p = x /\ Q p)) as [[-> Hq']|Hn'].
    + rewrite decide_True by (split; [apply list_elem_of_here|done]).
      destruct (t !! x) as [[c d]|]; done.
    + rewrite decide_True by (split; [by apply list_elem_of_further|done]). done.
    + rewrite decide_True by (split; [apply list_elem_of_here|done]). done.
    + rewrite decide_False; [done|].
      intros [Hin Hq]. apply elem_of_cons in Hin as [->|Hin]; tauto.
Qed.

End Unchecking.

Section Validation.

Variable fs : FS.
Variable a : App.

Lemma elem_of_tree_keys p : p ∈ tree_keys a <-> has_entry a p.
Proof.
  unfold tree_keys, has_entry. rewrite list_elem_of_fmap. split.
  - intros ([k n] & -> & Hkn). apply elem_of_map_to_list in Hkn. by eexists.
  - intros [n Hn]. exists (p, n). split; [done|]. by apply elem_of_map_to_list.
Qed.

(** The first loop: the tree, and the set of visible paths. *)
Lemma validate_visible_fold l t vis :
  foldl (validate_visible a) (t, vis) l
  = (foldl (fun t x => if filters_match a x
                       then (if is_checked t x
                             then alter (set_checked false) x t else t)
                       else t) t l,
     vis ∪ list_to_set (List.filter (fun x => negb (filters_match a x)) l)).
Proof.
  revert t vis. induction l as [|x l IH]; intros t vis; cbn [foldl List.filter].
  - f_equal. set_solver.
  - unfold validate_visible at 2. destruct (filters_match a x) eqn:Hf; cbn [negb].
    + destruct (is_checked t x); apply IH.
    + rewrite IH. f_equal. cbn [list_to_set]. set_solver.
Qed.

Lemma validate_checked_items_lookup p :
  folder_tree_data (validate_checked_items a) !! p
  = validated a p <$> folder_tree_data a !! p.
Proof.
  unfold validate_checked_items. rewrite validate_visible_fold.
  cbn [folder_tree_data with_tree].
  set (vis := ∅ ∪ list_to_set _).
  rewrite (foldl_uncheck_lookup (fun q => q ∉ vis) (validate_uncheck vis)).
  2:{ intros t x q. unfold validate_uncheck.
      destruct (decide (q = x /\ q ∉ vis)) as [[-> Hv]|Hn].
      - rewrite bool_decide_eq_false_2 by done. cbn [negb andb].
        rewrite uncheck_lookup. by rewrite decide_True.
      - destruct (bool_decide (x ∈ vis)) eqn:Hx; cbn [negb andb]; [done|].
        apply bool_decide_eq_false in Hx. rewrite uncheck_lookup.
        destruct (decide (q = x)) as [->|]; [tauto|done]. }
  rewrite (foldl_uncheck_lookup (fun q => filters_match a q = true)
             (fun t x => if filters_match a x
                         then (if is_checked t x
                               then alter (set_checked false) x t else t)
                         else t)).
  2:{ intros t x q. destruct (filters_match a x) eqn:Hf.
      - rewrite uncheck_lookup. destruct (decide (q = x)) as [->|Hne].
        + by rewrite decide_True.
        + rewrite decide_False; [done|tauto].
      - rewrite decide_False; [done|]. intros [-> ?]. congruence. }
  unfold validated.
  destruct (folder_tree_data a !! p) as [n|] eqn:Hn; [|by repeat case_decide].
  assert (p ∈ tree_keys a) as Hkey by (apply elem_of_tree_keys; by eexists).
  assert (p ∈ vis <-> filters_match a p = false) as Hvis.
  { subst vis. rewrite elem_of_union, elem_of_list_to_set, list_elem_of_In, filter_In.
    rewrite <- list_elem_of_In, negb_true_iff. set_solver. }
  destruct (filters_match a p) eqn:Hf.
  - rewrite decide_True by (split; [done|]; rewrite Hvis; done).
    rewrite decide_True by done. by destruct n.
  - rewrite decide_False by (rewrite Hvis; tauto).
    rewrite decide_False by (intros [_ ?]; done). done.
Qed.

(** After validation a checked entry is not matched by the filters. *)
Lemma validate_checked_items_checked p :
  is_checked (folder_tree_data (validate_checked_items a)) p = true ->
  has_entry a p /\ is_checked (folder_tree_data a) p = true
  /\ filters_match a p = false.
Proof.
  unfold is_checked, has_entry. rewrite validate_checked_items_lookup.
  unfold validated.
  destruct (folder_tree_data a !! p) as [n|]; cbn; [|done].
  destruct (filters_match a p); cbn; [done|]. intros ->. by eauto.
Qed.

End Validation.

(** *** The exported texts *)

Section Exports.

Variable a : App.

Lemma elem_of_sorted_paths_where keep p :
  p ∈ sorted_paths_where keep a <->
  exists n, folder_tree_data a !! p = Some n /\ keep n = true.
Proof.
  unfold sorted_paths_where. rewrite elem_of_sorted, list_elem_of_In, in_map_iff.
  split.
  - intros ([k n] & Hk & Hin). cbn in Hk. subst k.
    apply filter_In in Hin as [Hin Hkeep].
    apply list_elem_of_In, elem_of_map_to_list in Hin. by exists n.
  - intros (n & Hn & Hkeep). exists (p, n). split; [done|].
    apply filter_In. split; [|done].
    by apply list_elem_of_In, elem_of_map_to_list.
Qed.

Lemma child_lines_for child_files line :
  line ∈ child_lines child_files -> line_for child_files line.
Proof.
  induction child_files as [|c [|c' rest] IH]; cbn [child_lines].
  - intros H. by apply elem_of_nil in H.
  - intros ->%list_elem_of_singleton. exists c.
    split; [apply list_elem_of_here|auto].
  - intros [->|Hin]%elem_of_cons.
    + exists c. split; [apply list_elem_of_here|auto].
    + destruct (IH Hin) as (p & Hp & Hline). exists p.
      split; [by apply list_elem_of_further|done].
Qed.

Lemma line_for_mono paths paths' line :
  (forall p, p ∈ paths -> p ∈ paths') -> line_for paths line -> line_for paths' line.
Proof. intros Hsub (p & Hp & Hline). exists p. auto. Qed.

Lemma remove_first_subset x l y : y ∈ remove_first x l -> y ∈ l.
Proof.
  induction l as [|z l IH]; cbn [remove_first]; [done|].
  destruct (String.eqb x z).
  - intros H. by apply list_elem_of_further.
  - intros [->|H]%elem_of_cons; [apply list_elem_of_here|].
    apply list_elem_of_further. by apply IH.
Qed.

Lemma foldl_remove_first_subset xs l y :
  y ∈ foldl (fun cf child => remove_first child cf) l xs -> y ∈ l.
Proof.
  revert l. induction xs as [|x xs IH]; intros l; cbn [foldl]; [done|].
  intros H. apply IH in H. by eapply remove_first_subset.
Qed.

(** The loop over the checked directories only draws lines for checked
    paths, and only takes files out of [checked_files]. *)
Lemma checked_dir_steps paths dirs lines files :
  (forall d, d ∈ dirs -> d ∈ paths) ->
  (forall l, l ∈ lines -> line_for paths l) ->
  (forall f, f ∈ files -> f ∈ paths) ->
  let '(lines', files') := foldl checked_dir_step (lines, files) dirs in
  (forall l, l ∈ lines' -> line_for paths l)
  /\ (forall f, f ∈ files' -> f ∈ paths).
Proof.
  revert lines files. induction dirs as [|d dirs IH]; intros lines files Hd Hl Hf;
    cbn [foldl]; [done|].
  unfold checked_dir_step at 2.
  apply IH.
  - intros d' Hd'. apply Hd. by apply list_elem_of_further.
  - intros l [Hin|[->%list_elem_of_singleton|Hin]%elem_of_app]%elem_of_app.
    + by apply Hl.
    + exists d. split; [apply Hd, list_elem_of_here|auto].
    + apply child_lines_for in Hin. eapply line_for_mono; [|exact Hin].
      intros p Hp. apply (proj1 (elem_of_sorted _ _)) in Hp.
      apply list_elem_of_In, filter_In in Hp as [Hp _].
      by apply Hf, list_elem_of_In.
  - intros f Hin. apply foldl_remove_first_subset in Hin. by apply Hf.
Qed.

Lemma build_checked_file_tree_text_lines line :
  line ∈ build_checked_file_tree_text a ->
  line = "No folders selected." \/ line = "(No items selected)"
  \/ line_for (sorted_paths_where checked a) line.
Proof.
  unfold build_checked_file_tree_text.
  destruct (root_folders a); [intros ->%list_elem_of_singleton; by left|].
  cbv zeta. set (paths := sorted_paths_where checked a).
  destruct paths as [|p0 paths'] eqn:Hpaths;
    [intros ->%list_elem_of_singleton; right; by left|].
  rewrite <- Hpaths. clear Hpaths.
  pose proof (checked_dir_steps paths (List.filter (is_dir_in a) paths) []
                (List.filter (fun p => negb (is_dir_in a p)) paths)) as H.
  destruct (foldl checked_dir_step _ _) as [lines remaining].
  destruct H as [Hl Hr].
  - intros d Hd. by apply list_elem_of_In, filter_In in Hd as [Hd%list_elem_of_In _].
  - intros l0 Hl0. by apply elem_of_nil in Hl0.
  - intros f Hf. by apply list_elem_of_In, filter_In in Hf as [Hf%list_elem_of_In _].
  - intros [Hin|Hin]%elem_of_app; right; right; [by apply Hl|].
    exists line. split; [by apply Hr|auto].
Qed.

End Exports.


(* ===================================================================== *)
(** * Further properties of the code                                      *)
(* ===================================================================== *)

(** ** The dialog's detail line *)

Lemma chars_length s : length (PyStr.chars s) = String.length s.
Proof. unfold PyStr.chars. induction s as [|c s IH]; cbn; [done|by rewrite IH]. Qed.

Lemma of_chars_length l : String.length (PyStr.of_chars l) = length l.
Proof. unfold PyStr.of_chars. induction l as [|c l IH]; cbn; [done|by rewrite IH]. Qed.

Lemma append_length s t : String.length (s +:+ t) = String.length s + String.length t.
Proof.
  induction s as [|c s IH]; [done|].
  change (S (String.length (s +:+ t)) = S (String.length s + String.length t)).
  by rewrite IH.
Qed.

Lemma chars_of_chars l : PyStr.chars (PyStr.of_chars l) = l.
Proof. apply list_ascii_of_string_of_list_ascii. Qed.

Lemma of_chars_chars s : PyStr.of_chars (PyStr.chars s) = s.
Proof. apply string_of_list_ascii_of_string. Qed.

(** X1.  The detail line of the loading dialog never shows more than 60
    characters: a text of at most 60 is shown as it is, a longer one is
    shown as three dots followed by its last 57 characters. *)
Theorem update_detail_bounded (detail_text : string) :
  String.length (update_detail detail_text) <= 60
  /\ (String.length detail_text <= 60 -> update_detail detail_text = detail_text)
  /\ (60 < String.length detail_text ->
      String.length (update_detail detail_text) = 60
      /\ exists cut, detail_text = cut +:+ last_chars 57 detail_text
                     /\ update_detail detail_text = "..." +:+ last_chars 57 detail_text).
Proof.
  unfold update_detail, last_chars.
  destruct (60 <? String.length detail_text) eqn:Hlen.
  - apply Nat.ltb_lt in Hlen.
    assert (String.length
              ("..." +:+ PyStr.of_chars
                        (drop (String.length detail_text - 57) (PyStr.chars detail_text)))
            = 60) as Hsixty.
    { rewrite append_length, of_chars_length, length_drop, chars_length. cbn. lia. }
    split; [lia|]. split; [lia|]. intros _. split; [done|].
    exists (PyStr.of_chars (take (String.length detail_text - 57) (PyStr.chars detail_text))).
    split; [|done].
    rewrite <- (of_chars_chars detail_text) at 1.
    rewrite <- (take_drop (String.length detail_text - 57) (PyStr.chars detail_text)) at 1.
    generalize (take (String.length detail_text - 57) (PyStr.chars detail_text)).
    generalize (drop (String.length detail_text - 57) (PyStr.chars detail_text)).
    intros l2 l1. unfold PyStr.of_chars.
    induction l1 as [|c l1 IH]; cbn; [done|by rewrite IH].
  - apply Nat.ltb_ge in Hlen. split; [done|]. split; [done|lia].
Qed.

Lemma update_detail_bounded_witness :
  String.length (update_detail
    "/home/operator/projects/some/deeply/nested/directory/with/a/long/name.py") = 60.
Proof.
  apply (proj2 (proj2 (update_detail_bounded _))). vm_compute. lia.
Defined.

(** ** Nested timeouts *)

(** X2.  A timeout block leaves no alarm pending, whatever alarm was
    pending when it was entered and however much of its own budget is
    left: a block opened inside another one (the probe of a flagged path
    inside the budget of the whole load) cancels the budget of the outer
    one.  On the way out it restores the handler it found, unless that
    handler was not installed from Python. *)
Theorem timeout_block_leaves_no_alarm
        (seconds : nat) (s : Alarm.signals) (left : option nat) :
  let '(t, s1) := Alarm.enter (Alarm.init seconds) s in
  let s2 := Alarm.exit t {| Alarm.sigalrm := Alarm.sigalrm s1;
                            Alarm.pending := left |} in
  Alarm.pending s2 = None
  /\ Alarm.sigalrm s2 =
       match Alarm.sigalrm s with
       | Alarm.NotFromPython => Alarm.TimeoutHandler seconds
       | h => h
       end.
Proof. cbn. by destruct (Alarm.sigalrm s). Qed.

(** The outer block of [load_settings_with_timeout] with the block of
    [check_folder_access_with_timeout] inside it: after the inner block
    the outer handler is installed and no alarm is pending. *)
Example inner_timeout_cancels_outer (s : Alarm.signals) :
  let s' := Alarm.after_inner_block 60 10 s in
  Alarm.sigalrm s' = Alarm.TimeoutHandler 60 /\ Alarm.pending s' = None.
Proof. done. Qed.

(** ** What the watched load reports *)

Lemma watch_finish_completed j st :
  fst (watch_finish j st) = Completed ->
  j_alive_after_wait j = false /\ j_worker_raised j = false
  /\ (cancelled (w_dialog st) = NotCancelled
      \/ cancelled (w_dialog st) = CDisableTimeouts)
  /\ snd (watch_finish j st) = st.
Proof.
  unfold watch_finish, is_cancelled, get_cancel_type.
  destruct (j_alive_after_wait j), (j_worker_raised j),
    (enable_timeouts (w_app st)), (w_timeouts_disabled st),
    (cancelled (w_dialog st)); cbn; intros H; try discriminate; auto.
Qed.

(** X3.  The watched load returns normally only when the worker has
    ended and has raised nothing, and the dialog holds neither Skip nor
    Cancel; the cancel flag it hands to the worker is then still
    clear. *)
Theorem completed_means_worker_ended ticks j a d :
  fst (load_settings_windows_timeout_with_dialog ticks j a d) = Completed ->
  j_alive_after_wait j = false
  /\ j_worker_raised j = false
  /\ (let d' := w_dialog (snd (load_settings_windows_timeout_with_dialog ticks j a d)) in
      cancelled d' = NotCancelled \/ cancelled d' = CDisableTimeouts)
  /\ w_cancel_flag (snd (load_settings_windows_timeout_with_dialog ticks j a d)) = false.
Proof.
  unfold load_settings_windows_timeout_with_dialog.
  set (st0 := {| w_app := a; w_dialog := d; w_timeouts_disabled := false;
                 w_cancel_flag := false |}).
  assert (forall ticks st,
             w_cancel_flag st = false ->
             match watch_loop ticks st with
             | LoopLeft st' =>
                 w_cancel_flag st' = false
                 \/ cancelled (w_dialog st') = CSkip \/ cancelled (w_dialog st') = CCancel
             | _ => True
             end) as Hflag.
  { clear. induction ticks as [|t ticks IH]; intros st Hst; cbn [watch_loop]; [done|].
    unfold watch_turn. cbv zeta.
    cbn [w_app w_dialog w_timeouts_disabled w_cancel_flag].
    destruct (t_alive t); [|by left].
    destruct (t_update_ok t); [|by left]. cbn [negb].
    destruct (is_cancelled _) eqn:Hc.
    - unfold get_cancel_type.
      destruct (cancelled (clicks (w_dialog st) (t_clicks t))) eqn:Hv;
        cbn [w_app w_dialog w_timeouts_disabled w_cancel_flag negb andb];
        try (right; rewrite Hv; auto; fail).
      + destruct (negb _ && _); [destruct (Qgtb _ _); [done|]|]; by apply IH.
      + by apply IH.
    - destruct (negb _ && _); [destruct (Qgtb _ _); [done|]|]; by apply IH. }
  specialize (Hflag ticks st0 eq_refl).
  destruct (watch_loop ticks st0) as [st|st|st]; [discriminate| |discriminate].
  intros Hdone. destruct (watch_finish_completed j st Hdone) as (Ha & Hr & Hd & Hsame).
  rewrite Hsame. repeat split; try done.
  destruct Hflag as [?|[Hs|Hs]]; [done| |]; destruct Hd as [Hd|Hd]; congruence.
Qed.

Lemma completed_means_worker_ended_witness :
  j_alive_after_wait worker_done = false.
Proof.
  apply (completed_means_worker_ended [disable_clicked_at 5; worker_finished_at 6]
           worker_done initial_app new_dialog).
  reflexivity.
Defined.

(** X4.  A dialog that already holds Skip or Cancel ends every further
    watched load at its first turn: unless Disable Timeouts is clicked in
    that turn, the load is reported as cancelled by the user (or blocks
    in the unbounded join), whatever the worker does.  (After Skip, the
    fallback profile is loaded under the dialog of the failed attempt.) *)
Theorem cancelled_dialog_ends_next_load t ticks j a d :
  cancelled d = CSkip \/ cancelled d = CCancel ->
  DisableTimeoutsButton ∉ t_clicks t ->
  let r := fst (load_settings_windows_timeout_with_dialog (t :: ticks) j a d) in
  r = UserCancelled \/ r = Blocked.
Proof.
  intros Hd Hno. cbv zeta.
  assert (cancelled (clicks d (t_clicks t)) = CSkip
          \/ cancelled (clicks d (t_clicks t)) = CCancel) as Hd'.
  { unfold clicks. revert d Hd Hno.
    induction (t_clicks t) as [|b bs IH]; intros d Hd Hno; cbn [foldl]; [done|].
    apply IH.
    - destruct b; cbn; auto. exfalso. apply Hno, list_elem_of_here.
    - intros Hin. apply Hno. by apply list_elem_of_further. }
  unfold load_settings_windows_timeout_with_dialog. cbn [watch_loop].
  unfold watch_turn. cbv zeta.
  cbn [w_app w_dialog w_timeouts_disabled w_cancel_flag].
  assert (forall st,
             cancelled (w_dialog st) = CSkip \/ cancelled (w_dialog st) = CCancel ->
             fst (watch_finish j st) = UserCancelled
             \/ fst (watch_finish j st) = Blocked) as Hfin.
  { clear. intros st Hst. unfold watch_finish, is_cancelled, get_cancel_type.
    destruct (negb _ && j_alive_after_wait j); [by right|].
    destruct Hst as [-> | ->]; by left. }
  destruct (t_alive t); [|by apply Hfin].
  destruct (t_update_ok t); [|by apply Hfin]. cbn [negb].
  unfold is_cancelled, get_cancel_type.
  destruct Hd' as [Hv|Hv]; rewrite Hv; cbn; apply Hfin; cbn; auto.
Qed.

Lemma cancelled_dialog_ends_next_load_witness :
  fst (load_settings_windows_timeout_with_dialog
         (worker_finished_at 1 :: []) worker_done initial_app (on_skip new_dialog))
  = UserCancelled
  \/ fst (load_settings_windows_timeout_with_dialog
            (worker_finished_at 1 :: []) worker_done initial_app (on_skip new_dialog))
     = Blocked.
Proof.
  apply (cancelled_dialog_ends_next_load (worker_finished_at 1) [] worker_done
           initial_app (on_skip new_dialog)).
  - by left.
  - cbn. apply not_elem_of_nil.
Defined.

(* ===================================================================== *)
(** ** Polling only adds                                                  *)
(* ===================================================================== *)

Lemma only_added_refl a : only_added a a.
Proof. split; [done|]. split; [|done]. intros p n H1 H2. congruence. Qed.

Lemma only_added_trans a b c : only_added a b -> only_added b c -> only_added a c.
Proof.
  intros (H1 & H2 & H3) (K1 & K2 & K3). split; [|split].
  - intros p n Hp. by apply K1, H1.
  - intros p n Hp Hnone. destruct (folder_tree_data b !! p) as [m|] eqn:Hb.
    + pose proof (K1 p m Hb). assert (m = n) by congruence. subst. by eapply H2.
    + by eapply K2.
  - set_solver.
Qed.

Lemma only_added_entry a p isd (v : gset string) :
  folder_tree_data a !! p = None -> visited_dirs a ⊆ v ->
  only_added a (with_visited v (with_tree (<[p := Node false isd]> (folder_tree_data a)) a)).
Proof.
  intros Hp Hv. split; [|split]; cbn.
  - intros q n Hq. rewrite lookup_insert_ne; [done|]. intros ->. congruence.
  - intros q n Hq Hnone. destruct (decide (p = q)) as [->|Hne].
    + rewrite lookup_insert_eq in Hq. by injection Hq as <-.
    + rewrite lookup_insert_ne in Hq by done. congruence.
  - done.
Qed.

Section PollingAdds.

Variable fs : FS.
Variable a0 : App.



Lemma poll_entry_only_adds as_dir root a name :
  kept_by_poll a0 a -> kept_by_poll a0 (state_of (poll_entry fs as_dir root a name)).
Proof.
  intros (Hadd & Hs). unfold poll_entry. cbv zeta.
  destruct (_ || _); [done|].
  destruct (fs_samefile fs root _) as [[]|]; try done.
  destruct (in_tree _ a) eqn:Hin; [done|]. cbn [state_of].
  apply in_tree_false in Hin. split.
  - eapply only_added_trans; [exact Hadd|]. apply only_added_entry.
    + by apply eq_None_not_Some.
    + cbn. set_solver.
  - eapply same_settings_trans; [exact Hs|]. by repeat split.
Qed.

Lemma poll_triple_only_adds a t :
  kept_by_poll a0 a -> kept_by_poll a0 (state_of (poll_triple fs a t)).
Proof.
  intros Ha. destruct t as [[root dirs] files]. unfold poll_triple. cbv zeta.
  destruct (_ || _); [done|].
  set (a1 := if in_tree root a then a else _).
  assert (kept_by_poll a0 a1) as H1.
  { subst a1. destruct (in_tree root a) eqn:Hin; [done|].
    apply in_tree_false in Hin. destruct Ha as (Hadd & Hs). split.
    - eapply only_added_trans; [exact Hadd|]. apply only_added_entry.
      + by apply eq_None_not_Some.
      + cbn. set_solver.
    - eapply same_settings_trans; [exact Hs|]. by repeat split. }
  pose proof (for_each_raising_invariant (kept_by_poll a0) (poll_entry fs true root)
                dirs a1 H1 (fun a x => poll_entry_only_adds true root a x)) as H2.
  destruct (for_each_raising (poll_entry fs true root) dirs a1) as [a2|a2];
    cbn [state_of] in *; [|done].
  apply for_each_raising_invariant; [done|]. intros. by apply poll_entry_only_adds.
Qed.

Lemma poll_folder_only_adds a :
  kept_by_poll a0 a -> kept_by_poll a0 (state_of (poll_folder fs a)).
Proof.
  intros Ha. unfold poll_folder.
  apply for_each_raising_invariant; [done|].
  intros cur folder Hcur. cbv beta.
  destruct (negb _); [done|].
  apply for_each_raising_invariant; [done|]. intros. by apply poll_triple_only_adds.
Qed.

Lemma schedule_folder_poll_only_adds n a :
  kept_by_poll a0 a -> kept_by_poll a0 (schedule_folder_poll fs n a).
Proof.
  revert a. induction n as [|n IH]; intros a Ha; cbn [schedule_folder_poll]; [done|].
  pose proof (poll_folder_only_adds a Ha) as Ha'.
  destruct (poll_folder fs a) as [a'|a']; cbn [state_of] in *; [by apply IH|done].
Qed.

End PollingAdds.

(** X5.  Polling only adds: after any number of poll passes, also when
    a pass is cut short by an error, every entry that was there still has
    its check mark and its kind, every entry that is new is unchecked,
    nothing has left [visited_dirs] and the settings are untouched. *)
Theorem polling_only_adds (fs : FS) (n : nat) (a : App) :
  only_added a (schedule_folder_poll fs n a)
  /\ same_settings a (schedule_folder_poll fs n a).
Proof.
  apply schedule_folder_poll_only_adds.
  split; [apply only_added_refl|apply same_settings_refl].
Qed.

(* ===================================================================== *)
(** ** Rebuilding and refreshing                                          *)
(* ===================================================================== *)

Lemma build_all_trees_checks fs fuel a a' p :
  build_all_trees fs fuel a = Some a' ->
  same_settings a a'
  /\ (is_checked (folder_tree_data a') p = true <->
      has_entry a' p /\ saved_folder_checks a !! p = Some true
      /\ filters_match a p = false).
Proof.
  intros Hrun.
  apply build_all_trees_unfold in Hrun as (a1 & -> & Hu & Hs).
  split; [eapply same_settings_trans; [exact Hs|]; by repeat split|].
  assert (saved_folder_checks a1 = saved_folder_checks a) as Hsaved
    by (destruct Hs as (_ & _ & _ & Hsv & _); by rewrite <- Hsv).
  rewrite (same_settings_filters a a1 p Hs).
  unfold is_checked, has_entry. rewrite apply_saved_checks_lookup.
  unfold restored. rewrite Hsaved.
  destruct (folder_tree_data a1 !! p) as [n|] eqn:Hn; cbn [fmap option_fmap option_map].
  - specialize (Hu p n Hn).
    destruct (saved_folder_checks a !! p) as [[]|];
      destruct (filters_match a1 p); cbn; rewrite ?Hu;
      split; try done; try (intros (_ & ? & ?); done).
  - split; [done|]. by intros ([? ?] & _).
Qed.

Lemma save_settings_checked a p :
  s_folder_checks (save_settings a) !! p = Some true
  <-> is_checked (folder_tree_data a) p = true.
Proof.
  rewrite save_settings_folder_checks. unfold is_checked.
  destruct (folder_tree_data a !! p) as [[[] d]|]; cbn; split; congruence.
Qed.

(** X6.  Saving the filters and toggling the system filter rebuild the
    tree and take the check marks from [saved_folder_checks], the marks
    of the last load, not from the marks on the screen: what is written
    to the settings file has a path checked exactly when the path has an
    entry in the rebuilt tree, is saved as checked there and is not
    matched by the filters now in force.  Once the timer has cleared
    [saved_folder_checks], the command leaves nothing checked and writes
    a settings file without any checked path. *)
Theorem filter_commands_forget_the_marks
        (fs : FS) (fuel : nat) (raw : string) (a a' : App) (data : Settings) :
  on_save_filters fs fuel raw a = Some (a', data)
  \/ on_toggle_system_filter fs fuel a = Some (a', data) ->
  (forall p, s_folder_checks data !! p = Some true <->
             has_entry a' p /\ saved_folder_checks a !! p = Some true
             /\ filters_match a' p = false)
  /\ (saved_folder_checks a = ∅ ->
      all_unchecked a' /\ forall p, s_folder_checks data !! p <> Some true).
Proof.
  intros Hrun.
  assert (exists b, build_all_trees fs fuel b = Some a'
                    /\ saved_folder_checks b = saved_folder_checks a
                    /\ data = save_settings a') as (b & Hb & Hsaved & ->).
  { destruct Hrun as [Hrun|Hrun].
    - unfold on_save_filters in Hrun. cbv zeta in Hrun.
      destruct (build_all_trees _ _ _) as [x|] eqn:Hx; [|discriminate].
      injection Hrun as <- <-. by eexists.
    - unfold on_toggle_system_filter in Hrun.
      destruct (build_all_trees _ _ _) as [x|] eqn:Hx; [|discriminate].
      injection Hrun as <- <-. by eexists. }
  assert (forall p, s_folder_checks (save_settings a') !! p = Some true <->
             has_entry a' p /\ saved_folder_checks a !! p = Some true
             /\ filters_match a' p = false) as Hiff.
  { intros p. rewrite save_settings_checked.
    destruct (build_all_trees_checks fs fuel b a' p Hb) as (Hs & Hc).
    rewrite Hc, Hsaved. by rewrite (same_settings_filters b a' p Hs). }
  split; [exact Hiff|]. intros Hempty.
  assert (forall p, s_folder_checks (save_settings a') !! p <> Some true) as Hnone.
  { intros p Hp. apply Hiff in Hp as (_ & Hp & _).
    rewrite Hempty, lookup_empty in Hp. discriminate. }
  split; [|exact Hnone].
  intros p n Hp. destruct (checked n) eqn:Hc; [|done].
  exfalso. apply (Hnone p). apply save_settings_checked.
  unfold is_checked. by rewrite Hp.
Qed.

Lemma filter_commands_forget_the_marks_witness :
  exists a' data,
    on_toggle_system_filter (GraphFS.to_fs proj_graph) 3 proj_in_use = Some (a', data)
    /\ is_checked (folder_tree_data proj_in_use) "/proj/src/a.py" = true
    /\ all_unchecked a'
    /\ forall p, s_folder_checks data !! p <> Some true.
Proof.
  eexists. eexists. split; [vm_compute; reflexivity|].
  split; [reflexivity|].
  refine (proj2 (filter_commands_forget_the_marks
                   (GraphFS.to_fs proj_graph) 3 "" proj_in_use _ _ _) _).
  - right. vm_compute. reflexivity.
  - reflexivity.
Defined.

Lemma apply_checks_lookup (sel : gmap string bool) (t0 : gmap string node) p :
  map_fold (fun path chk t =>
              if bool_decide (is_Some (t !! path))
              then alter (set_checked chk) path t
              else t)
           t0 sel !! p
  = match sel !! p with
    | Some c => set_checked c <$> t0 !! p
    | None => t0 !! p
    end.
Proof.
  revert p.
  apply (map_fold_weak_ind
           (fun (t : gmap string node) (m : gmap string bool) =>
              forall p, t !! p
                = match m !! p with
                  | Some c => set_checked c <$> t0 !! p
                  | None => t0 !! p
                  end)).
  - intros p. by rewrite lookup_empty.
  - intros path chk m t Hfresh IH p.
    destruct (decide (path = p)) as [->|Hne].
    + rewrite lookup_insert_eq.
      destruct (bool_decide (is_Some (t !! p))) eqn:Hin.
      * by rewrite lookup_alter_eq, IH, Hfresh.
      * apply bool_decide_eq_false in Hin.
        rewrite IH in Hin |- *. rewrite Hfresh in Hin |- *.
        destruct (t0 !! p); [|done].
        exfalso. apply Hin. by eexists.
    + rewrite lookup_insert_ne by done.
      destruct (bool_decide _); [rewrite lookup_alter_ne by done|]; apply IH.
Qed.

Lemma validate_checked_items_settings a :
  same_settings a (validate_checked_items a).
Proof.
  unfold validate_checked_items. destruct (foldl _ _ _) as [t1 vis].
  by repeat split.
Qed.

(** X7.  Refresh keeps the selection: after [on_refresh_folders] a path
    is checked exactly when it has an entry in the rebuilt tree, was
    checked before and is not matched by the filters; the settings are
    the same, [saved_folder_checks] included, which the refresh neither
    reads nor writes. *)
Theorem refresh_keeps_the_selection (fs : FS) (fuel : nat) (a a' : App) :
  on_refresh_folders fs fuel a = Some a' ->
  same_settings a a'
  /\ forall p, is_checked (folder_tree_data a') p = true <->
               has_entry a' p /\ is_checked (folder_tree_data a) p = true
               /\ filters_match a p = false.
Proof.
  unfold on_refresh_folders. cbv zeta.
  destruct (for_each _ _ _) as [a1|] eqn:Hrun; [|discriminate].
  intros [= <-].
  set (a0 := with_listed [] _) in Hrun.
  assert (all_unchecked a1 /\ same_settings a a1) as (Hu & Hs).
  { eapply (for_each_preserves
              (fun cur => all_unchecked cur /\ same_settings a cur)) in Hrun;
      [exact Hrun| |].
    - clear. intros cur folder cur'. cbv beta.
      destruct (negb _); [by intros [= <-]|].
      apply (build_tree_for_preserves fs
               (fun cur => all_unchecked cur /\ same_settings a cur)).
      + intros a1 e (Hu & Hs). split; [exact Hu|].
        eapply same_settings_trans; [exact Hs|]. by repeat split.
      + intros a1 l (Hu & Hs). split; [exact Hu|].
        eapply same_settings_trans; [exact Hs|]. by repeat split.
      + intros a1 v (Hu & Hs). split; [exact Hu|].
        eapply same_settings_trans; [exact Hs|]. by repeat split.
      + intros a1 p isd (Hu & Hs). split; [by apply all_unchecked_insert|].
        eapply same_settings_trans; [exact Hs|]. by repeat split.
    - split; [|by repeat split].
      intros p n Hp. cbn in Hp. by rewrite lookup_empty in Hp. }
  set (a2 := with_tree _ a1).
  assert (same_settings a a2) as Hs2
    by (eapply same_settings_trans; [exact Hs|]; by repeat split).
  split; [eapply same_settings_trans;
            [exact Hs2|apply validate_checked_items_settings]|].
  intros p. unfold is_checked, has_entry.
  rewrite validate_checked_items_lookup. unfold validated.
  rewrite <- (same_settings_filters a a2 p Hs2).
  subst a2. cbn [folder_tree_data with_tree].
  unfold restore_selections. rewrite apply_checks_lookup, lookup_fmap.
  destruct (folder_tree_data a1 !! p) as [n|] eqn:Hn.
  - specialize (Hu p n Hn).
    destruct (folder_tree_data a !! p) as [[c d]|];
      destruct (filters_match a p); cbn; rewrite ?Hu;
      split; try done; try (intros (_ & ? & ?); done);
      try (intros ->; by eauto).
  - destruct (folder_tree_data a !! p) as [[c d]|]; cbn;
      (split; [done|]); by intros ([? ?] & _).
Qed.

Lemma refresh_keeps_the_selection_witness :
  exists a',
    on_refresh_folders (GraphFS.to_fs proj_graph) 3 proj_in_use = Some a'
    /\ is_checked (folder_tree_data a') "/proj/src/a.py" = true
    /\ forall p, is_checked (folder_tree_data a') p = true <->
                 has_entry a' p /\ is_checked (folder_tree_data proj_in_use) p = true
                 /\ filters_match proj_in_use p = false.
Proof.
  eexists. split; [vm_compute; reflexivity|].
  split; [vm_compute; reflexivity|].
  refine (proj2 (refresh_keeps_the_selection
                   (GraphFS.to_fs proj_graph) 3 proj_in_use _ _)).
  vm_compute. reflexivity.
Defined.

(* ===================================================================== *)
(** ** Selection presets                                                  *)
(* ===================================================================== *)

Lemma current_selections_lookup (t : gmap string node) p :
  map_fold (fun path info sel => if checked info then <[path := true]> sel else sel)
           (∅ : gmap string bool) t !! p
  = if is_checked t p then Some true else None.
Proof.
  unfold is_checked. revert p.
  apply (map_fold_weak_ind
           (fun (r : gmap string bool) (m : gmap string node) =>
              forall p, r !! p
                = if match m !! p with Some n => checked n | None => false end
                  then Some true else None)).
  - intros p. by rewrite !lookup_empty.
  - intros path info m r Hfresh IH p.
    destruct (decide (path = p)) as [->|Hne].
    + rewrite lookup_insert_eq. destruct (checked info).
      * by rewrite lookup_insert_eq.
      * by rewrite IH, Hfresh.
    + rewrite lookup_insert_ne by done.
      destruct (checked info); [rewrite lookup_insert_ne by done|]; apply IH.
Qed.

Lemma clear_checks_lookup a p :
  foldl (fun t path => alter (set_checked false) path t)
        (folder_tree_data a) (tree_keys a) !! p
  = set_checked false <$> folder_tree_data a !! p.
Proof.
  rewrite (foldl_uncheck_lookup (fun _ => True)
             (fun t path => alter (set_checked false) path t)).
  2:{ intros t x q. destruct (decide (q = x /\ True)) as [[-> _]|Hn].
      - by rewrite lookup_alter_eq.
      - rewrite lookup_alter_ne; [done|]. intros ->. tauto. }
  case_decide as H; [done|].
  destruct (folder_tree_data a !! p) as [n|] eqn:Hn; [|done].
  exfalso. apply H. split; [|done]. apply elem_of_tree_keys. by eexists.
Qed.

(** X8.  A selection preset gives the selection back: when a preset is
    saved and later loaded, whatever the tree has become in between,
    every entry of the tree is checked exactly when its path was checked
    at the time of saving, and keeps its kind; loaded into the tree it
    was saved from, it gives back that tree.  The filters are not
    consulted, and the settings stay as they are. *)
Theorem preset_gives_the_selection_back
        (name desc now1 now2 now3 : string) (a a2 : App)
        (presets : gmap string preset) :
  exists a3 presets2,
    load_selection_preset name now3 a2
      (fst (save_selection_preset name desc now1 now2 a presets))
    = (true, a3, presets2)
    /\ (forall p, folder_tree_data a3 !! p
                  = set_checked (is_checked (folder_tree_data a) p)
                      <$> folder_tree_data a2 !! p)
    /\ (folder_tree_data a2 = folder_tree_data a ->
        folder_tree_data a3 = folder_tree_data a)
    /\ same_settings a2 a3.
Proof.
  unfold save_selection_preset, load_selection_preset. cbn [fst].
  rewrite lookup_insert_eq. cbn [folder_checks].
  eexists. eexists. split; [reflexivity|].
  assert (forall p,
             folder_tree_data
               (with_tree
                  (map_fold
                     (fun path chk t =>
                        if bool_decide (is_Some (t !! path))
                        then alter (set_checked chk) path t else t)
                     (foldl (fun t path => alter (set_checked false) path t)
                            (folder_tree_data a2) (tree_keys a2))
                     (map_fold
                        (fun path info sel =>
                           if checked info then <[path := true]> sel else sel)
                        ∅ (folder_tree_data a))) a2) !! p
             = set_checked (is_checked (folder_tree_data a) p)
                 <$> folder_tree_data a2 !! p) as Hlook.
  { intros p. cbn [folder_tree_data with_tree].
    rewrite apply_checks_lookup, current_selections_lookup, clear_checks_lookup.
    destruct (is_checked (folder_tree_data a) p);
      by destruct (folder_tree_data a2 !! p) as [[c d]|]. }
  split; [exact Hlook|]. split; [|by repeat split].
  intros Hsame. apply map_eq. intros p. rewrite Hlook, Hsame.
  unfold is_checked. by destruct (folder_tree_data a !! p) as [[c d]|].
Qed.

(* ===================================================================== *)
(** ** Removing a root folder                                             *)
(* ===================================================================== *)

Lemma elem_of_keys (t : gmap string node) p :
  p ∈ (map_to_list t).*1 <-> is_Some (t !! p).
Proof.
  rewrite list_elem_of_fmap. split.
  - intros ([k n] & -> & Hkn). apply elem_of_map_to_list in Hkn. by eexists.
  - intros [n Hn]. exists (p, n). split; [done|]. by apply elem_of_map_to_list.
Qed.

Lemma elem_of_rev {A : Type} (x : A) (l : list A) : x ∈ rev l <-> x ∈ l.
Proof. rewrite !list_elem_of_In. symmetry. apply List.in_rev. Qed.

Lemma elem_of_children (t : gmap string node) current p :
  p ∈ List.filter (fun p => String.eqb (PyStr.dirname p) current) (map_to_list t).*1
  <-> is_Some (t !! p) /\ PyStr.dirname p = current.
Proof.
  rewrite list_elem_of_In, filter_In, <- list_elem_of_In, elem_of_keys.
  by rewrite String.eqb_eq.
Qed.

Lemma remove_subtree_loop_mono fuel fuel' stack t t' :
  fuel <= fuel' ->
  remove_subtree_loop fuel stack t = Some t' ->
  remove_subtree_loop fuel' stack t = Some t'.
Proof.
  revert fuel' stack t. induction fuel as [|fuel IH]; intros fuel' stack t Hle.
  - destruct stack; [|done]. by destruct fuel'.
  - destruct fuel' as [|fuel']; [lia|].
    destruct stack as [|current rest]; [done|].
    cbn [remove_subtree_loop]. apply IH. lia.
Qed.

Section RemoveSubtree.

Variable t0 : gmap string node.
Variable folder : string.

Lemma gone_delete tc current q :
  gone t0 folder tc q -> gone t0 folder (delete current tc) q.
Proof.
  intros [->|[Hq Hn]]; [by left|]. right. split; [done|].
  apply lookup_delete_None. by right.
Qed.

Lemma remove_invariant_first :
  remove_invariant t0 folder
    (rev (List.filter (fun p => String.eqb (PyStr.dirname p) folder)
                      (map_to_list (delete folder t0)).*1) ++ [])
    (delete folder t0).
Proof.
  rewrite app_nil_r. split; [|split; [|split; [|split; [|split]]]].
  - intros p n Hp. by apply lookup_delete_Some in Hp as [_ Hp].
  - apply lookup_delete_eq.
  - apply NoDup_ListNoDup, List.NoDup_rev, List.NoDup_filter, NoDup_ListNoDup, NoDup_fst_map_to_list.
  - intros s Hs. apply elem_of_rev, elem_of_children in Hs as [Hs Hd].
    split; [done|]. by left.
  - intros p Hp Hn. apply lookup_delete_None in Hn as [->|Hn]; [by left|].
    destruct Hp as [n Hp]. congruence.
  - intros p Hp Hg. apply elem_of_rev, elem_of_children. split; [done|].
    destruct Hg as [Hg|[Hd Hn]]; [done|].
    apply lookup_delete_None in Hn as [Hn|Hn]; [done|].
    destruct Hd as [n Hd]. congruence.
Qed.

Lemma remove_invariant_step current rest tc :
  remove_invariant t0 folder (current :: rest) tc ->
  remove_invariant t0 folder
    (rev (List.filter (fun p => String.eqb (PyStr.dirname p) current)
                      (map_to_list (delete current tc)).*1) ++ rest)
    (delete current tc).
Proof.
  intros (Hsub & Hfolder & Hnd & Hstack & Hgone & Hdue).
  apply NoDup_cons in Hnd as [Hfresh Hnd].
  destruct (Hstack current) as [Hcur Hcurparent]; [apply list_elem_of_here|].
  assert (forall s, s ∈ rest -> tc !! PyStr.dirname s = None) as Hparent.
  { intros s Hs. destruct (Hstack s) as [_ [->|[_ Hn]]]; [|done..].
    by apply list_elem_of_further. }
  split; [|split; [|split; [|split; [|split]]]].
  - intros p n Hp. apply lookup_delete_Some in Hp as [_ Hp]. by apply Hsub.
  - apply lookup_delete_None. by right.
  - apply NoDup_app. split; [|split; [|done]].
    + apply NoDup_ListNoDup, List.NoDup_rev, List.NoDup_filter, NoDup_ListNoDup, NoDup_fst_map_to_list.
    + intros c Hc Hin.
      apply elem_of_rev, elem_of_children in Hc as [_ Hd].
      specialize (Hparent c Hin). rewrite Hd in Hparent.
      destruct Hcur as [n Hn]. congruence.
  - intros s Hs. apply elem_of_app in Hs as [Hs|Hs].
    + apply elem_of_rev, elem_of_children in Hs as [Hs Hd].
      split; [done|]. rewrite Hd.
      destruct (decide (current = folder)) as [->|Hne]; [by left|].
      right. split; [|apply lookup_delete_eq].
      destruct Hcur as [n Hn]. exists n. by apply Hsub.
    + destruct (Hstack s) as [Hin Hg]; [by apply list_elem_of_further|].
      split; [|by apply gone_delete].
      destruct Hin as [n Hn]. exists n. apply lookup_delete_Some. split; [|done].
      intros ->. done.
  - intros p Hp Hn. apply lookup_delete_None in Hn as [->|Hn].
    + right. by apply gone_delete.
    + destruct (Hgone p Hp Hn) as [?|Hg]; [by left|].
      right. by apply gone_delete.
  - intros p Hp Hg. destruct Hp as [n Hp].
    apply lookup_delete_Some in Hp as [Hne Hp].
    assert (gone t0 folder tc (PyStr.dirname p) \/ PyStr.dirname p = current)
      as [Hold|Hnew].
    { destruct Hg as [Hg|[Hd Hn]]; [left; by left|].
      apply lookup_delete_None in Hn as [Hn|Hn]; [by right|].
      left. by right. }
    + apply elem_of_app. right.
      assert (p ∈ current :: rest) as Hin by (apply Hdue; [by eexists|done]).
      apply elem_of_cons in Hin as [->|Hin]; done.
    + apply elem_of_app. left. apply elem_of_rev, elem_of_children.
      split; [|done]. exists n. apply lookup_delete_Some. by split.
Qed.

Lemma remove_subtree_loop_ends fuel stack tc :
  remove_invariant t0 folder stack tc -> size tc <= fuel ->
  exists t', remove_subtree_loop fuel stack tc = Some t'
             /\ remove_invariant t0 folder [] t'.
Proof.
  revert stack tc. induction fuel as [|fuel IH]; intros stack tc Hinv Hsize.
  - destruct stack as [|current rest]; [by exists tc|].
    destruct Hinv as (_ & _ & _ & Hstack & _).
    destruct (Hstack current) as [Hcur _]; [apply list_elem_of_here|].
    pose proof (map_size_delete_Some current tc Hcur) as Hdel.
    destruct Hcur as [n Hn].
    assert (size tc <> 0) as Hpos.
    { intros Hz. apply map_size_empty_inv in Hz. subst tc.
      by rewrite lookup_empty in Hn. }
    lia.
  - destruct stack as [|current rest]; [by exists tc|].
    cbn [remove_subtree_loop]. cbv zeta. apply IH.
    + by apply remove_invariant_step.
    + destruct Hinv as (_ & _ & _ & Hstack & _).
      destruct (Hstack current) as [Hcur _]; [apply list_elem_of_here|].
      rewrite (map_size_delete_Some current tc Hcur).
      destruct Hcur as [n Hn].
      assert (size tc <> 0) as Hpos.
      { intros Hz. apply map_size_empty_inv in Hz. subst tc.
        by rewrite lookup_empty in Hn. }
      lia.
Qed.

Lemma remove_subtree_loop_spec fuel :
  size t0 < fuel ->
  exists t', remove_subtree_loop fuel [folder] t0 = Some t'
             /\ remove_invariant t0 folder [] t'.
Proof.
  intros Hfuel. destruct fuel as [|fuel]; [lia|].
  cbn [remove_subtree_loop]. cbv zeta.
  apply remove_subtree_loop_ends; [apply remove_invariant_first|].
  rewrite map_size_delete. destruct (t0 !! folder); cbn; lia.
Qed.

End RemoveSubtree.

(** X9.  [remove_subtree] ends, within as many turns of its loop as
    there are entries and one more, whatever the keys look like.  It
    takes away the folder and everything below it and nothing else: an
    entry stays exactly when it is not the folder, not directly inside
    the folder, and its parent directory, if that had an entry, stays
    too; the entries that stay are unchanged.  [visited_dirs] and the
    settings are left as they are. *)
Theorem remove_subtree_removes_what_is_below (folder : string) (a : App) (fuel : nat) :
  size (folder_tree_data a) < fuel ->
  exists a',
    remove_subtree fuel folder a = Some a'
    /\ (forall more, remove_subtree (fuel + more) folder a = Some a')
    /\ same_settings a a'
    /\ visited_dirs a' = visited_dirs a
    /\ (forall p n, folder_tree_data a' !! p = Some n ->
                    folder_tree_data a !! p = Some n)
    /\ (forall p, has_entry a' p <->
                  has_entry a p /\ p <> folder /\ PyStr.dirname p <> folder
                  /\ (has_entry a (PyStr.dirname p) ->
                      has_entry a' (PyStr.dirname p))).
Proof.
  intros Hfuel.
  destruct (remove_subtree_loop_spec (folder_tree_data a) folder fuel Hfuel)
    as (t' & Hrun & Hsub & Hfolder & _ & _ & Hgone & Hdue).
  exists (with_tree t' a). unfold remove_subtree.
  split; [by rewrite Hrun|]. split.
  { intros more.
    by rewrite (remove_subtree_loop_mono fuel (fuel + more) _ _ t' ltac:(lia) Hrun). }
  split; [by repeat split|]. split; [done|]. split; [exact Hsub|].
  intros p. unfold has_entry. cbn [folder_tree_data with_tree]. split.
  - intros Hp. split; [destruct Hp as [n Hp]; exists n; by apply Hsub|].
    assert (~ gone (folder_tree_data a) folder t' (PyStr.dirname p)) as Hng.
    { intros Hg. specialize (Hdue p Hp Hg). by apply elem_of_nil in Hdue. }
    split; [|split].
    + intros ->. destruct Hp as [n Hp]. congruence.
    + intros Hd. apply Hng. by left.
    + intros Hd. destruct (t' !! PyStr.dirname p) as [m|] eqn:Hm; [by eexists|].
      exfalso. apply Hng. by right.
  - intros (Hp & Hne & Hdne & Hparent).
    destruct (t' !! p) as [n|] eqn:Hn; [by eexists|]. exfalso.
    destruct (Hgone p Hp Hn) as [?|[?|[Hd Hdn]]]; [done..|].
    destruct (Hparent Hd) as [m Hm]. congruence.
Qed.

Lemma remove_subtree_removes_what_is_below_witness :
  exists a',
    remove_subtree 5 "/proj/src" proj_in_use = Some a'
    /\ (forall p, has_entry a' p <->
                  has_entry proj_in_use p /\ p <> "/proj/src"
                  /\ PyStr.dirname p <> "/proj/src"
                  /\ (has_entry proj_in_use (PyStr.dirname p) ->
                      has_entry a' (PyStr.dirname p))).
Proof.
  destruct (remove_subtree_removes_what_is_below "/proj/src" proj_in_use 5)
    as (a' & Hrun & _ & _ & _ & _ & Hspec).
  - vm_compute. lia.
  - exists a'. by split.
Defined.

(** *** A folder that is removed and added again *)

Section Readded.

Variable fs : FS.
Variable folder : string.

Lemma visited_without_entry_insert a p n (v : gset string) :
  visited_without_entry fs folder a ->
  fs_realpath fs p ∉ visited_dirs a -> visited_dirs a ⊆ v ->
  visited_without_entry fs folder
    (with_visited v (with_tree (<[p := n]> (folder_tree_data a)) a)).
Proof.
  intros [Hv Hn] Hp Hsub. split; [cbn; set_solver|].
  unfold has_entry. cbn. intros Hin.
  apply Hn. rewrite lookup_insert_ne in Hin; [done|].
  intros ->. done.
Qed.

Lemma poll_entry_skips_visited as_dir root a name :
  visited_without_entry fs folder a ->
  visited_without_entry fs folder (state_of (poll_entry fs as_dir root a name)).
Proof.
  intros Ha. unfold poll_entry. cbv zeta.
  destruct (filters_match a _); cbn [orb]; [done|].
  destruct (in_visited _ a) eqn:Hvis; [done|].
  destruct (fs_samefile fs root _) as [[]|]; try done.
  destruct (in_tree _ a); [done|]. cbn [state_of].
  apply in_visited_false in Hvis.
  apply visited_without_entry_insert; [done..|]. cbn. set_solver.
Qed.

Lemma poll_triple_skips_visited a t :
  visited_without_entry fs folder a ->
  visited_without_entry fs folder (state_of (poll_triple fs a t)).
Proof.
  intros Ha. destruct t as [[root dirs] files]. unfold poll_triple. cbv zeta.
  destruct (filters_match a root); cbn [orb]; [done|].
  destruct (in_visited _ a) eqn:Hvis; [done|].
  apply in_visited_false in Hvis.
  set (a1 := if in_tree root a then a else _).
  assert (visited_without_entry fs folder a1) as H1.
  { subst a1. destruct (in_tree root a); [done|].
    apply visited_without_entry_insert; [done..|]. cbn. set_solver. }
  pose proof (for_each_raising_invariant (visited_without_entry fs folder)
                (poll_entry fs true root) dirs a1 H1
                (fun a x => poll_entry_skips_visited true root a x)) as H2.
  destruct (for_each_raising (poll_entry fs true root) dirs a1) as [a2|a2];
    cbn [state_of] in *; [|done].
  apply for_each_raising_invariant; [done|].
  intros. by apply poll_entry_skips_visited.
Qed.

Lemma schedule_folder_poll_skips_visited n a :
  visited_without_entry fs folder a ->
  visited_without_entry fs folder (schedule_folder_poll fs n a).
Proof.
  revert a. induction n as [|n IH]; intros a Ha; cbn [schedule_folder_poll]; [done|].
  assert (visited_without_entry fs folder (state_of (poll_folder fs a))) as Ha'.
  { unfold poll_folder. apply for_each_raising_invariant; [done|].
    intros cur f Hcur. cbv beta. destruct (negb _); [done|].
    apply for_each_raising_invariant; [done|].
    intros. by apply poll_triple_skips_visited. }
  destruct (poll_folder fs a) as [a'|a']; cbn [state_of] in *; [by apply IH|done].
Qed.

End Readded.

(** X10.  A root folder that is removed and then added again comes back
    empty: [remove_subtree] takes its entries away but leaves its
    canonical path in [visited_dirs], so [build_tree_for] returns before
    it enters anything.  The folder is in [root_folders] again and is
    written to the settings file, but it has no entry, and no number of
    poll passes gives it one. *)
Theorem removed_folder_comes_back_empty
        (fs : FS) (fuel fuel' idx : nat) (folder : string) (a : App) :
  root_folders a !! idx = Some folder ->
  folder <> "" ->
  folder ∉ pop_at idx (root_folders a) ->
  fs_realpath fs folder ∈ visited_dirs a ->
  size (folder_tree_data a) < fuel ->
  exists a1 data1 a2,
    do_remove fuel idx a = Ret (a1, data1)
    /\ on_add_folder fs fuel' folder a1 = Some (a2, Some (save_settings a2))
    /\ root_folders a2 = pop_at idx (root_folders a) ++ [folder]
    /\ folder_tree_data a2 = folder_tree_data a1
    /\ forall n, ~ has_entry (schedule_folder_poll fs n a2) folder.
Proof.
  intros Hidx Hne Hfresh Hvis Hfuel.
  set (b := with_root_folders (pop_at idx (root_folders a)) a).
  destruct (remove_subtree_removes_what_is_below folder b fuel Hfuel)
    as (a1 & Hrun & _ & Hs & Hv & _ & Hspec).
  assert (root_folders a1 = pop_at idx (root_folders a)) as Hroots
    by (destruct Hs as (Hr & _); by rewrite <- Hr).
  assert (~ has_entry a1 folder) as Hno.
  { intros Hin. apply Hspec in Hin as (_ & ? & _). done. }
  set (a2 := with_root_folders (root_folders a1 ++ [folder]) a1).
  exists a1, (save_settings a1), a2.
  split; [unfold do_remove; rewrite Hidx; fold b; by rewrite Hrun|].
  assert (build_tree_for fs fuel' a2 folder = Some a2) as Hbuild.
  { unfold build_tree_for. cbv zeta. destruct (negb _); [done|].
    assert (in_visited (fs_realpath fs folder) a2 = true) as ->; [|done].
    apply in_visited_true. cbn. by rewrite Hv. }
  split.
  { unfold on_add_folder.
    assert ((folder =? "")%string = false) as -> by (by apply String.eqb_neq).
    rewrite bool_decide_eq_false_2 by (by rewrite Hroots).
    fold a2. by rewrite Hbuild. }
  split; [cbn; by rewrite Hroots|]. split; [done|].
  intros n. apply (schedule_folder_poll_skips_visited fs folder n a2).
  split; [cbn; by rewrite Hv|done].
Qed.

Lemma removed_folder_comes_back_empty_witness :
  has_entry proj_scanned "/proj"
  /\ exists a1 data1 a2,
       do_remove 4 0 proj_scanned = Ret (a1, data1)
       /\ on_add_folder (GraphFS.to_fs proj_graph) 3 "/proj" a1
          = Some (a2, Some (save_settings a2))
       /\ root_folders a2 = pop_at 0 (root_folders proj_scanned) ++ ["/proj"]
       /\ folder_tree_data a2 = folder_tree_data a1
       /\ forall n, ~ has_entry (schedule_folder_poll (GraphFS.to_fs proj_graph) n a2)
                                "/proj".
Proof.
  split; [vm_compute; by eexists|].
  apply (removed_folder_comes_back_empty (GraphFS.to_fs proj_graph) 4 3 0 "/proj"
           proj_scanned).
  - vm_compute. reflexivity.
  - discriminate.
  - vm_compute. apply not_elem_of_nil.
  - refine (bool_decide_unpack _ _). vm_compute. exact I.
  - vm_compute. lia.
Defined.

(* ===================================================================== *)
(** ** Checking and unchecking a subtree                                  *)
(* ===================================================================== *)

Lemma upto_last_slash_rev_suffix r :
  exists pre, r = pre ++ PyStr.upto_last_slash_rev r.
Proof.
  induction r as [|c r [pre IH]]; cbn [PyStr.upto_last_slash_rev].
  - by exists [].
  - destruct (Ascii.eqb c PyStr.slash); [by exists []|].
    exists (c :: pre). cbn. by f_equal.
Qed.

Lemma upto_last_slash_rev_head r c h :
  PyStr.upto_last_slash_rev r = c :: h -> Ascii.eqb c PyStr.slash = true.
Proof.
  induction r as [|x r IH]; cbn [PyStr.upto_last_slash_rev]; [done|].
  destruct (Ascii.eqb x PyStr.slash) eqn:Hx; [|done].
  intros [= <- _]. done.
Qed.

Lemma drop_slashes_length l : length (PyStr.drop_slashes l) <= length l.
Proof.
  induction l as [|c l IH]; cbn [PyStr.drop_slashes]; [done|].
  destruct (Ascii.eqb c PyStr.slash); cbn [length]; lia.
Qed.

(** [dirname] never lengthens a path, and keeps the length only of a
    path that is its own parent. *)
Lemma dirname_length p :
  String.length (PyStr.dirname p) <= String.length p
  /\ (String.length (PyStr.dirname p) = String.length p -> PyStr.dirname p = p).
Proof.
  unfold PyStr.dirname. cbv zeta.
  destruct (upto_last_slash_rev_suffix (rev (PyStr.chars p))) as [pre Hpre].
  assert (length pre + length (PyStr.upto_last_slash_rev (rev (PyStr.chars p)))
          = String.length p) as Hlen.
  { rewrite <- length_app, <- Hpre, length_rev. apply chars_length. }
  destruct (forallb _ _) eqn:Hall.
  - rewrite of_chars_length, length_rev. split; [lia|].
    intros Heq. assert (pre = []) as -> by (destruct pre; [done|cbn in *; lia]).
    cbn [app] in Hpre. rewrite <- Hpre, rev_involutive. apply of_chars_chars.
  - destruct (PyStr.upto_last_slash_rev (rev (PyStr.chars p))) as [|c h] eqn:Hh;
      [done|].
    apply upto_last_slash_rev_head in Hh.
    rewrite of_chars_length, length_rev. cbn [PyStr.drop_slashes]. rewrite Hh.
    pose proof (drop_slashes_length h). cbn [length] in Hlen. lia.
Qed.

Lemma below_shape t t' path q :
  same_shape t t' -> below t path q -> below t' path q.
Proof.
  intros Hshape. induction 1 as [|q d _ IH Hd Hdir Hq]; [constructor|].
  pose proof (Hshape (PyStr.dirname q)) as Hp. rewrite Hd in Hp.
  destruct (t' !! PyStr.dirname q) as [d'|] eqn:Hd'; [|done].
  apply (below_child t' path q d'); [done..| |].
  - cbn in Hp. congruence.
  - pose proof (Hshape q) as Hk. destruct Hq as [n Hn]. rewrite Hn in Hk.
    destruct (t' !! q); [by eexists|done].
Qed.

Lemma same_shape_refl t : same_shape t t.
Proof. done. Qed.

Lemma same_shape_sym t t' : same_shape t t' -> same_shape t' t.
Proof. intros H q. by rewrite H. Qed.

Lemma same_shape_trans t t' t'' :
  same_shape t t' -> same_shape t' t'' -> same_shape t t''.
Proof. intros H1 H2 q. by rewrite H1. Qed.

Lemma same_shape_set_checked t path n chk :
  t !! path = Some n -> same_shape t (<[path := set_checked chk n]> t).
Proof.
  intros Hn q. destruct (decide (path = q)) as [<-|Hne].
  - by rewrite lookup_insert_eq, Hn.
  - by rewrite lookup_insert_ne.
Qed.

Lemma same_shape_is_Some t t' q : same_shape t t' -> is_Some (t !! q) -> is_Some (t' !! q).
Proof.
  intros H [n Hn]. specialize (H q). rewrite Hn in H.
  destruct (t' !! q); [by eexists|done].
Qed.

Lemma check_children_shape recurse path keys t t' :
  (forall p ti ti', recurse p ti = Ret ti' -> same_shape ti ti') ->
  check_children recurse path keys t = Ret t' -> same_shape t t'.
Proof.
  intros Hrec. revert t. induction keys as [|p keys IH]; intros t;
    cbn [check_children].
  - by intros [= <-].
  - destruct (String.eqb _ _); [|apply IH].
    destruct (recurse p t) as [t1| |] eqn:H1; [|done..].
    intros Hrun. eapply same_shape_trans; [by eapply Hrec|by apply IH].
Qed.

Lemma set_subtree_checked_shape fuel path chk t t' :
  set_subtree_checked fuel path chk t = Ret t' -> same_shape t t'.
Proof.
  revert path t t'. induction fuel as [|fuel IH]; intros path t t'; [done|].
  cbn [set_subtree_checked]. destruct (t !! path) as [n|] eqn:Hn; [|done].
  cbv zeta. destruct (is_dir n).
  - intros Hrun. eapply same_shape_trans; [by apply same_shape_set_checked|].
    eapply check_children_shape; [|exact Hrun]. intros p ti ti'. apply IH.
  - intros [= <-]. by apply same_shape_set_checked.
Qed.

(** A call on a path that has an entry raises no [KeyError]. *)
Lemma set_subtree_checked_no_error fuel path chk t e :
  is_Some (t !! path) -> set_subtree_checked fuel path chk t <> Exn e.
Proof.
  revert path t e. induction fuel as [|fuel IH]; intros path t e Hin; [done|].
  cbn [set_subtree_checked]. destruct Hin as [n Hn]. rewrite Hn. cbv zeta.
  destruct (is_dir n); [|done].
  assert (forall keys ti,
             (forall p, p ∈ keys -> is_Some (ti !! p)) ->
             check_children (fun p t => set_subtree_checked fuel p chk t)
                            path keys ti <> Exn e) as Hloop.
  { induction keys as [|p keys IHk]; intros ti Hkeys; cbn [check_children]; [done|].
    assert (forall q, q ∈ keys -> is_Some (ti !! q)) as Hrest
      by (intros q Hq; apply Hkeys; by apply list_elem_of_further).
    destruct (String.eqb _ _); [|by apply IHk].
    destruct (set_subtree_checked fuel p chk ti) as [t1|e1|] eqn:H1; [| |done].
    - apply IHk. intros q Hq. eapply same_shape_is_Some; [|by apply Hrest].
      by eapply set_subtree_checked_shape.
    - exfalso. apply (IH p ti e1); [|done]. apply Hkeys, list_elem_of_here. }
  apply Hloop. intros p Hp. by apply elem_of_keys in Hp.
Qed.

Lemma set_subtree_checked_never_returns path :
  PyStr.dirname path = path ->
  forall fuel chk t t',
    (exists n, t !! path = Some n /\ is_dir n = true) ->
    set_subtree_checked fuel path chk t <> Ret t'.
Proof.
  intros Hself. induction fuel as [|fuel IH]; intros chk t t' (n & Hn & Hdir); [done|].
  cbn [set_subtree_checked]. rewrite Hn, Hdir. cbv zeta.
  assert (forall keys ti,
             path ∈ keys -> (exists n, ti !! path = Some n /\ is_dir n = true) ->
             check_children (fun p t => set_subtree_checked fuel p chk t)
                            path keys ti <> Ret t') as Hloop.
  { induction keys as [|p keys IHk]; intros ti Hin Hti; cbn [check_children].
    - by apply elem_of_nil in Hin.
    - destruct (String.eqb _ _) eqn:Hp.
      + destruct (set_subtree_checked fuel p chk ti) as [t1| |] eqn:H1; [|done..].
        apply elem_of_cons in Hin as [<-|Hin]; [exfalso; by eapply IH|].
        apply IHk; [done|].
        destruct Hti as (m & Hm & Hmd).
        pose proof (set_subtree_checked_shape _ _ _ _ _ H1 path) as Hsh.
        rewrite Hm in Hsh. destruct (t1 !! path) as [m'|]; [|done].
        exists m'. split; [done|]. cbn in Hsh. congruence.
      + apply String.eqb_neq in Hp.
        apply elem_of_cons in Hin as [<-|Hin]; [done|]. by apply IHk. }
  apply Hloop.
  - apply elem_of_keys. rewrite lookup_insert_eq. by eexists.
  - exists (set_checked chk n). rewrite lookup_insert_eq. by split.
Qed.

(** X11.  Checking or unchecking a directory entry whose path is its own
    parent, as the root [/] is, never comes to an end: the entry is among
    its own children, so the call on it calls itself again, however deep
    the recursion is allowed to go; the same holds for a double click on
    its row. *)
Theorem set_subtree_checked_loops_on_own_parent
        (path : string) (chk : bool) (a : App) (n : node) :
  folder_tree_data a !! path = Some n -> is_dir n = true ->
  PyStr.dirname path = path ->
  forall fuel,
    set_subtree_checked fuel path chk (folder_tree_data a) = NoFuel
    /\ on_tree_item_double_click fuel path a = NoFuel.
Proof.
  intros Hn Hdir Hself fuel.
  assert (forall chk', set_subtree_checked fuel path chk' (folder_tree_data a) = NoFuel)
    as Hcall.
  { intros chk'.
    destruct (set_subtree_checked fuel path chk' (folder_tree_data a)) as [t'|e|] eqn:Hr;
      [| |done].
    - exfalso. revert Hr. apply set_subtree_checked_never_returns; [done|].
      by exists n.
    - exfalso. revert Hr. apply set_subtree_checked_no_error. by eexists. }
  split; [apply Hcall|].
  unfold on_tree_item_double_click. rewrite Hn. by rewrite Hcall.
Qed.

Lemma set_subtree_checked_loops_on_own_parent_witness :
  folder_tree_data whole_disk_app !! "/" = Some (Node false true)
  /\ set_subtree_checked 1000 "/" true (folder_tree_data whole_disk_app) = NoFuel
  /\ on_tree_item_double_click 1000 "/" whole_disk_app = NoFuel.
Proof.
  split; [vm_compute; reflexivity|].
  apply (set_subtree_checked_loops_on_own_parent "/" true whole_disk_app
           (Node false true)).
  - vm_compute. reflexivity.
  - reflexivity.
  - reflexivity.
Defined.

Lemma set_checked_twice chk (x : option node) :
  set_checked chk <$> (set_checked chk <$> x) = set_checked chk <$> x.
Proof. by destruct x as [[c d]|]. Qed.

Lemma below_children t path q n :
  t !! path = Some n -> below t path q ->
  q = path
  \/ exists ch, is_Some (t !! ch) /\ PyStr.dirname ch = path /\ is_dir n = true
                /\ below t ch q.
Proof.
  intros Hn. induction 1 as [|q d _ IH Hd Hdir Hq]; [by left|]. right.
  destruct IH as [Hp|(ch & Hch & Hpar & Hnd & Hb)].
  - exists q. rewrite Hp in Hd. assert (d = n) as -> by congruence.
    repeat split; try done. constructor.
  - exists ch. repeat split; try done. by eapply below_child.
Qed.

Lemma below_from_child t path ch q n :
  t !! path = Some n -> is_dir n = true ->
  is_Some (t !! ch) -> PyStr.dirname ch = path ->
  below t ch q -> below t path q.
Proof.
  intros Hn Hdir Hch Hpar. induction 1 as [|q d _ IH Hd Hdd Hq].
  - apply (below_child t path ch n); rewrite ?Hpar; [constructor|done..].
  - by eapply below_child.
Qed.

Lemma keys_well_founded_shape M t t' :
  same_shape t t' -> keys_well_founded M t -> keys_well_founded M t'.
Proof.
  intros Hs Hk q Hq. apply Hk. eapply same_shape_is_Some; [|exact Hq].
  by apply same_shape_sym.
Qed.

Lemma keys_well_founded_test_spec M t :
  keys_well_founded_test M t = true -> keys_well_founded M t.
Proof.
  unfold keys_well_founded_test. rewrite forallb_forall.
  intros Hall q Hq. apply elem_of_keys, list_elem_of_In in Hq.
  specialize (Hall q Hq). apply andb_true_iff in Hall as [Hne Hlen].
  split; [|by apply Nat.leb_le].
  apply negb_true_iff in Hne. by apply String.eqb_neq.
Qed.

Section CheckChildren.

Variable chk : bool.
Variable t1 : gmap string node.
Variable path : string.
Variable recurse : string -> gmap string node -> run (gmap string node).

Hypothesis recurse_marks :
  forall p ti,
    same_shape t1 ti -> is_Some (t1 !! p) -> PyStr.dirname p = path ->
    exists ti', recurse p ti = Ret ti' /\ marked chk p ti ti' /\ same_shape ti ti'.

Lemma check_children_marks keys done ti :
  (forall p, p ∈ keys -> is_Some (t1 !! p)) ->
  children_marked chk t1 done ti ->
  exists t' done',
    check_children recurse path keys ti = Ret t'
    /\ (forall ch, ch ∈ done' <->
                   ch ∈ done \/ (ch ∈ keys /\ PyStr.dirname ch = path))
    /\ children_marked chk t1 done' t'.
Proof.
  revert done ti. induction keys as [|p keys IH]; intros done ti Hkeys Hinv;
    cbn [check_children].
  - exists ti, done. split; [done|]. split; [|done].
    intros ch. split; [by left|]. intros [?|[Hch _]]; [done|].
    by apply elem_of_nil in Hch.
  - assert (forall q, q ∈ keys -> is_Some (t1 !! q)) as Hrest
      by (intros q Hq; apply Hkeys; by apply list_elem_of_further).
    destruct (String.eqb _ _) eqn:Hp.
    + apply String.eqb_eq in Hp.
      destruct Hinv as (Hshape & HA & HB).
      destruct (recurse_marks p ti Hshape) as (ti' & -> & (HmA & HmB) & Hsh');
        [apply Hkeys, list_elem_of_here|done|].
      assert (forall q, ti !! q = t1 !! q
                        \/ ti !! q = set_checked chk <$> t1 !! q) as Hti.
      { intros q. destruct (HB q) as [?|(ch & Hch & Hb)]; [by left|].
        right. by eapply HA. }
      destruct (IH (p :: done) ti' Hrest) as (t' & done' & Hrun & Hdone & Hinv').
      { split; [by eapply same_shape_trans|]. split.
        - intros q ch Hch Hb.
          destruct (HmB q) as [Hsame|Hbelow].
          + rewrite Hsame. apply elem_of_cons in Hch as [->|Hch]; [|by eapply HA].
            rewrite <- Hsame, (HmA q (below_shape _ _ _ _ Hshape Hb)).
            destruct (Hti q) as [->| ->]; [done|apply set_checked_twice].
          + rewrite (HmA q Hbelow).
            destruct (Hti q) as [->| ->]; [done|apply set_checked_twice].
        - intros q. destruct (HmB q) as [Hsame|Hbelow].
          + rewrite Hsame. destruct (HB q) as [?|(ch & Hch & Hb)]; [by left|].
            right. exists ch. split; [by apply list_elem_of_further|done].
          + right. exists p. split; [apply list_elem_of_here|].
            eapply below_shape; [|exact Hbelow]. by apply same_shape_sym. }
      exists t', done'. split; [done|]. split; [|done].
      intros ch. rewrite Hdone, !elem_of_cons. split.
      * intros [[->|?]|[? ?]]; [right|left|right]; try done.
        -- split; [by left|done].
        -- split; [by right|done].
      * intros [?|[[->|?] ?]]; [left; by right|left; by left|right; done].
    + apply String.eqb_neq in Hp.
      destruct (IH done ti Hrest Hinv) as (t' & done' & Hrun & Hdone & Hinv').
      exists t', done'. split; [done|]. split; [|done].
      intros ch. rewrite Hdone, elem_of_cons. split.
      * intros [?|[? ?]]; [by left|right]. split; [by right|done].
      * intros [?|[[->|?] ?]]; [by left|done|right; done].
Qed.

End CheckChildren.

Lemma set_subtree_checked_marks M chk fuel :
  forall path t,
    keys_well_founded M t -> is_Some (t !! path) ->
    M < fuel + String.length path ->
    exists t', set_subtree_checked fuel path chk t = Ret t'
               /\ marked chk path t t' /\ same_shape t t'.
Proof.
  induction fuel as [|fuel IH]; intros path t Hwf Hin Hfuel.
  { destruct (Hwf path Hin) as [_ Hlen]. cbn in Hfuel. lia. }
  cbn [set_subtree_checked]. destruct Hin as [n Hn]. rewrite Hn. cbv zeta.
  set (t1 := <[path := set_checked chk n]> t).
  assert (same_shape t t1) as Hshape1 by (by apply same_shape_set_checked).
  assert (forall q, set_checked chk <$> t1 !! q = set_checked chk <$> t !! q) as Hset.
  { intros q. subst t1. destruct (decide (path = q)) as [<-|Hne].
    - rewrite lookup_insert_eq, Hn. by destruct n.
    - by rewrite lookup_insert_ne. }
  destruct (is_dir n) eqn:Hdir.
  - destruct (check_children_marks chk t1 path
                (fun p t => set_subtree_checked fuel p chk t)) with
      (keys := (map_to_list t1).*1) (done := @nil string) (ti := t1)
      as (t' & done' & Hrun & Hdone & Hshape & HA & HB).
    + intros p ti Hsh Hp Hpar. apply IH.
      * eapply keys_well_founded_shape; [|exact Hwf].
        by eapply same_shape_trans.
      * by eapply same_shape_is_Some.
      * destruct (Hwf p) as [Hne Hlen].
        { eapply same_shape_is_Some; [|exact Hp]. by apply same_shape_sym. }
        destruct (dirname_length p) as [Hle Heq]. rewrite Hpar in Hle, Heq.
        assert (String.length path <> String.length p) by (intros E; apply Hne; rewrite Hpar; by apply Heq).
        lia.
    + intros p Hp. by apply elem_of_keys in Hp.
    + split; [done|]. split; [|by left].
      intros q ch Hch. by apply elem_of_nil in Hch.
    + exists t'. split; [done|]. split; [|by eapply same_shape_trans].
      assert (forall ch, is_Some (t !! ch) -> PyStr.dirname ch = path -> ch ∈ done')
        as Hchild.
      { intros ch Hch Hpar. apply Hdone. right. split; [|done].
        apply elem_of_keys. by eapply same_shape_is_Some. }
      split.
      * intros q Hq. rewrite <- Hset.
        destruct (below_children t path q n Hn Hq)
          as [->|(ch & Hch & Hpar & _ & Hb)].
        -- destruct (HB path) as [->|(ch & Hch & Hb)].
           ++ subst t1. rewrite lookup_insert_eq. by destruct n.
           ++ by eapply HA.
        -- eapply HA; [by apply Hchild|]. by eapply below_shape.
      * intros q. destruct (HB q) as [Hsame|(ch & Hch & Hb)].
        -- destruct (decide (path = q)) as [<-|Hne]; [right; constructor|].
           left. rewrite Hsame. subst t1. by rewrite lookup_insert_ne.
        -- right. apply Hdone in Hch as [Hch|[Hch Hpar]];
             [by apply elem_of_nil in Hch|].
           apply elem_of_keys in Hch.
           eapply (below_from_child t path ch q n); try done.
           ++ eapply same_shape_is_Some; [|exact Hch]. by apply same_shape_sym.
           ++ eapply below_shape; [|exact Hb]. by apply same_shape_sym.
  - exists t1. split; [done|]. split; [|done]. split.
    + intros q Hq.
      destruct (below_children t path q n Hn Hq) as [->|(ch & _ & _ & Hd & _)];
        [|congruence].
      subst t1. by rewrite lookup_insert_eq, Hn.
    + intros q. destruct (decide (path = q)) as [<-|Hne]; [right; constructor|].
      left. subst t1. by rewrite lookup_insert_ne.
Qed.

(** X12.  In a tree where no key is its own parent, checking or
    unchecking an entry ends, within a recursion depth of the longest
    key's length, without a [KeyError], and it gives the new mark to the
    entry and to everything below it, that is to every entry reached
    through directory entries from parent to child; every other entry,
    and the kind of every entry, stays as it was. *)
Theorem set_subtree_checked_marks_the_subtree
        (M fuel : nat) (path : string) (chk : bool) (a : App) :
  keys_well_founded M (folder_tree_data a) ->
  has_entry a path ->
  M < fuel + String.length path ->
  exists t',
    set_subtree_checked fuel path chk (folder_tree_data a) = Ret t'
    /\ (forall q, below (folder_tree_data a) path q ->
                  t' !! q = set_checked chk <$> folder_tree_data a !! q)
    /\ (forall q, ~ below (folder_tree_data a) path q ->
                  t' !! q = folder_tree_data a !! q)
    /\ same_shape (folder_tree_data a) t'.
Proof.
  intros Hwf Hin Hfuel.
  destruct (set_subtree_checked_marks M chk fuel path (folder_tree_data a) Hwf Hin Hfuel)
    as (t' & Hrun & (HA & HB) & Hshape).
  exists t'. split; [done|]. split; [done|]. split; [|done].
  intros q Hq. by destruct (HB q).
Qed.

Lemma set_subtree_checked_marks_the_subtree_witness :
  exists t',
    set_subtree_checked 10 "/proj" true (folder_tree_data proj_in_use) = Ret t'
    /\ is_checked t' "/proj/src" = true
    /\ (forall q, below (folder_tree_data proj_in_use) "/proj" q ->
                  t' !! q = set_checked true <$> folder_tree_data proj_in_use !! q).
Proof.
  destruct (set_subtree_checked_marks_the_subtree 14 10 "/proj" true proj_in_use)
    as (t' & Hrun & Hbelow & _).
  - apply keys_well_founded_test_spec. vm_compute. reflexivity.
  - vm_compute. by eexists.
  - vm_compute. lia.
  - exists t'. split; [done|]. split; [|done].
    unfold is_checked. rewrite (Hbelow "/proj/src").
    + vm_compute. reflexivity.
    + apply (below_child _ _ "/proj/src" (Node false true)).
      * constructor.
      * vm_compute. reflexivity.
      * reflexivity.
      * vm_compute. by eexists.
Defined.

(* ===================================================================== *)
(** ** Stripping comments                                                 *)
(* ===================================================================== *)

Lemma greedy_to_end s : Re.match_here [Re.RAnyStar; Re.REnd] s = Some [].
Proof.
  cbn [Re.match_here]. induction s as [|c s IH]; [done|]. by rewrite IH.
Qed.

Lemma match_here_lit_prefix m r s :
  m `prefix_of` s ->
  Re.match_here (map Re.RChar m ++ r) s = Re.match_here r (drop (length m) s).
Proof.
  revert s. induction m as [|c m IH]; intros s Hpre; [done|].
  destruct s as [|d s]; [by apply prefix_nil_not in Hpre|].
  apply prefix_cons_inv_1 in Hpre as Hc. apply prefix_cons_inv_2 in Hpre.
  subst d. cbn [map app Re.match_here length drop].
  rewrite Ascii.eqb_refl. by apply IH.
Qed.

Lemma match_here_lit_no_prefix m r s :
  ~ m `prefix_of` s -> Re.match_here (map Re.RChar m ++ r) s = None.
Proof.
  revert s. induction m as [|c m IH]; intros s Hpre.
  - exfalso. apply Hpre, prefix_nil.
  - destruct s as [|d s]; [done|]. cbn [map app Re.match_here].
    destruct (Ascii.eqb d c) eqn:Hd; [|done].
    apply Ascii.eqb_eq in Hd as ->. apply IH. intros Hm. apply Hpre.
    by apply prefix_cons.
Qed.

Lemma line_comment_match marker s :
  Re.match_length (line_comment marker) s
  = if bool_decide (PyStr.chars marker `prefix_of` s) then Some (length s) else None.
Proof.
  unfold Re.match_length, line_comment, Re.lit. case_bool_decide as Hpre.
  - rewrite match_here_lit_prefix, greedy_to_end by done. cbn [length].
    by rewrite Nat.sub_0_r.
  - by rewrite match_here_lit_no_prefix.
Qed.

Lemma sub_from_skip_all r skip s : length s <= skip -> Re.sub_from r skip s = [].
Proof.
  revert skip. induction s as [|c s IH]; intros skip Hlen; [done|].
  cbn [Re.sub_from]. destruct skip as [|skip]; [cbn in Hlen; lia|].
  apply IH. cbn in Hlen. lia.
Qed.

Lemma sub_from_length r skip s : length (Re.sub_from r skip s) <= length s.
Proof.
  revert skip. induction s as [|c s IH]; intros skip; [done|].
  cbn [Re.sub_from]. destruct skip as [|skip].
  - destruct (Re.match_length r (c :: s)) as [[|n]|]; cbn [length];
      try (specialize (IH 0); lia). specialize (IH n). lia.
  - specialize (IH skip). cbn [length]. lia.
Qed.

Lemma sub_length r s : String.length (Re.sub r s) <= String.length s.
Proof.
  unfold Re.sub. rewrite of_chars_length, <- chars_length. apply sub_from_length.
Qed.

Lemma sub_line_comment marker s :
  Re.sub_from (line_comment marker) 0 s = before_first_chars (PyStr.chars marker) s.
Proof.
  induction s as [|c s IH]; [done|].
  cbn [Re.sub_from before_first_chars]. rewrite line_comment_match.
  destruct (bool_decide _); cbn [length].
  - by apply sub_from_skip_all.
  - by rewrite IH.
Qed.

Lemma before_first_chars_prefix m s : before_first_chars m s `prefix_of` s.
Proof.
  induction s as [|c s IH]; [done|]. cbn [before_first_chars].
  destruct (bool_decide _); [apply prefix_nil|]. by apply prefix_cons.
Qed.

Lemma before_first_chars_again m s :
  before_first_chars m (before_first_chars m s) = before_first_chars m s.
Proof.
  induction s as [|c s IH]; [done|]. cbn [before_first_chars].
  case_bool_decide as Hpre; [done|]. cbn [before_first_chars].
  rewrite bool_decide_eq_false_2; [by rewrite IH|].
  intros Hm. apply Hpre. etrans; [exact Hm|].
  apply prefix_cons, before_first_chars_prefix.
Qed.

Lemma sub_line_comment_string marker code :
  Re.sub (line_comment marker) code = before_first marker code.
Proof. unfold Re.sub, before_first. by rewrite sub_line_comment. Qed.

Lemma before_first_again marker code :
  before_first marker (before_first marker code) = before_first marker code.
Proof.
  unfold before_first. by rewrite chars_of_chars, before_first_chars_again.
Qed.

Lemma foldl_sub_length pats code :
  String.length (foldl (fun new_code pat => Re.sub pat new_code) code pats)
  <= String.length code.
Proof.
  revert code. induction pats as [|pat pats IH]; intros code; cbn [foldl]; [done|].
  etrans; [apply IH|apply sub_length].
Qed.

Lemma line_marker_first_pattern ext marker :
  line_marker ext = Some marker ->
  exists others, patterns ext = Some (line_comment marker :: others).
Proof.
  unfold line_marker, patterns. cbn [existsb].
  repeat match goal with
         | |- context [String.eqb ext ?s] =>
             let E := fresh "E" in
             destruct (String.eqb ext s) eqn:E;
             [apply String.eqb_eq in E; subst ext; cbn;
              intros [= <-]; by eexists|]
         end.
  done.
Qed.

(** X13.  For every language of the table whose first expression is one
    for line comments, the stripping deletes everything from the first
    comment marker to the end of the file, not to the end of the line:
    under [re.DOTALL] the [.*] of that expression runs across the line
    ends.  So the result for a file is the result for its text before the
    first marker, it is never longer than that text, and for [sh] and
    [bash] it is that text. *)
Theorem line_comment_takes_the_rest_of_the_file (code ext marker : string) :
  line_marker ext = Some marker ->
  remove_comments_from_code code ext
  = remove_comments_from_code (before_first marker code) ext
  /\ String.length (remove_comments_from_code code ext)
     <= String.length (before_first marker code)
  /\ (ext = "sh" \/ ext = "bash" ->
      remove_comments_from_code code ext = before_first "#" code).
Proof.
  intros Hm. destruct (line_marker_first_pattern ext marker Hm) as [others Hp].
  unfold remove_comments_from_code. rewrite Hp. cbn [foldl].
  rewrite !sub_line_comment_string, before_first_again.
  split; [done|]. split; [apply foldl_sub_length|].
  intros [-> | ->]; injection Hm as <-; vm_compute in Hp;
    injection Hp as <-; done.
Qed.

Lemma line_comment_takes_the_rest_of_the_file_witness :
  remove_comments_from_code two_lines "sh" = "x = 1 "
  /\ String.length (remove_comments_from_code two_lines "py") <= 6.
Proof.
  split.
  - rewrite (proj2 (proj2 (line_comment_takes_the_rest_of_the_file
                             two_lines "sh" "#" eq_refl))); [|by left].
    vm_compute. reflexivity.
  - apply (proj1 (proj2 (line_comment_takes_the_rest_of_the_file
                           two_lines "py" "#" eq_refl))).
Defined.

(* ===================================================================== *)
(** ** The full file tree                                                 *)
(* ===================================================================== *)

Lemma is_dir_in_true a p :
  is_dir_in a p = true <-> exists n, folder_tree_data a !! p = Some n /\ is_dir n = true.
Proof.
  unfold is_dir_in. destruct (folder_tree_data a !! p) as [n|].
  - split; [by exists n|]. by intros (m & [= <-] & ?).
  - split; [done|]. by intros (m & ? & _).
Qed.

Lemma elem_of_list_filter {A : Type} (f : A -> bool) (l : list A) x :
  x ∈ List.filter f l <-> x ∈ l /\ f x = true.
Proof. by rewrite !list_elem_of_In, filter_In. Qed.

Lemma full_tree_recurse_never_returns a path :
  PyStr.dirname path = path -> is_dir_in a path = true ->
  forall fuel prefix, full_tree_recurse fuel a path prefix = None.
Proof.
  intros Hself Hdir. induction fuel as [|fuel IH]; intros prefix; [done|].
  cbn [full_tree_recurse]. cbv zeta.
  match goal with
  | |- match ?f ?items with _ => _ end = None =>
      assert (path ∈ items) as Hin;
      [|assert (f items = None) as ->; [|done];
        revert Hin; generalize items as l]
  end.
  - apply elem_of_app. left. apply elem_of_sorted, elem_of_list_filter.
    split; [|done]. apply elem_of_list_filter. split; [|by apply String.eqb_eq].
    apply elem_of_tree_keys. apply is_dir_in_true in Hdir as (n & Hn & _).
    by exists n.
  - induction l as [|child rest IHr]; intros Hin; [by apply elem_of_nil in Hin|].
    apply elem_of_cons in Hin as [<-|Hin].
    + rewrite Hdir, IH. done.
    + rewrite (IHr Hin). by destruct (if is_dir_in a child then _ else _).
Qed.

Lemma full_tree_roots_never_returns fs a rf fuel roots :
  rf ∈ roots -> fs_exists fs rf = true -> in_tree rf a = true ->
  full_tree_recurse fuel a rf "" = None ->
  full_tree_roots fs fuel a roots = None.
Proof.
  intros Hin Hex Htree Hnone.
  induction roots as [|r roots IH]; [by apply elem_of_nil in Hin|].
  cbn [full_tree_roots]. cbv zeta.
  apply elem_of_cons in Hin as [<-|Hin].
  - by rewrite Hex, Htree, Hnone.
  - rewrite (IH Hin). by destruct (if _ && _ then _ else _).
Qed.

(** X14.  With a root folder whose path is its own parent, as [/] is,
    the full file tree cannot be written: the root is among its own
    children, so [recurse] calls itself on it again at every depth.  The
    export to the clipboard with "copy entire tree" ticked fails in the
    same way, after the validation of the check marks. *)
Theorem full_tree_loops_on_own_parent
        (fs : FS) (fence_label fence_text : string -> string)
        (a : App) (rf : string) (n : node) :
  rf ∈ root_folders a -> fs_exists fs rf = true ->
  folder_tree_data a !! rf = Some n -> is_dir n = true ->
  PyStr.dirname rf = rf ->
  forall fuel,
    build_full_file_tree_text fs fuel a = None
    /\ (copy_entire_tree_var a = true ->
        on_copy_to_clipboard fs fence_label fence_text fuel a = None).
Proof.
  intros Hroot Hex Hn Hdir Hself fuel.
  assert (forall b, root_folders b = root_folders a ->
                    (exists m, folder_tree_data b !! rf = Some m /\ is_dir m = true) ->
                    build_full_file_tree_text fs fuel b = None) as Hnone.
  { intros b Hroots Hb. unfold build_full_file_tree_text. rewrite Hroots.
    destruct (root_folders a) as [|r0 rs] eqn:Hr; [by apply elem_of_nil in Hroot|].
    apply (full_tree_roots_never_returns fs b rf); [done..| |].
    - apply in_tree_true. destruct Hb as (m & Hm & _). by exists m.
    - apply full_tree_recurse_never_returns; [done|]. by apply is_dir_in_true. }
  split; [apply Hnone; [done|by exists n]|].
  intros Hmode. unfold on_copy_to_clipboard. cbv zeta.
  destruct (validate_checked_items_settings a) as (Hr & _ & _ & _ & _ & Hc & _).
  rewrite <- Hc, Hmode. rewrite Hnone; [done|by rewrite <- Hr|].
  rewrite validate_checked_items_lookup, Hn. eexists. split; [reflexivity|].
  unfold validated. by destruct (filters_match a rf).
Qed.

Lemma full_tree_loops_on_own_parent_witness :
  build_full_file_tree_text (GraphFS.to_fs proj_graph) 1000 whole_disk_app = None.
Proof.
  apply (full_tree_loops_on_own_parent (GraphFS.to_fs proj_graph)
           (fun _ => "txt") (fun _ => "") whole_disk_app "/" (Node false true)).
  - vm_compute. apply list_elem_of_here.
  - vm_compute. reflexivity.
  - vm_compute. reflexivity.
  - reflexivity.
  - reflexivity.
Defined.

Lemma full_tree_recurse_ends M a :
  keys_well_founded M (folder_tree_data a) ->
  forall fuel path prefix,
    has_entry a path -> M < fuel + String.length path ->
    exists rest,
      full_tree_recurse fuel a path prefix
      = Some ((if String.eqb prefix "" then path
               else prefix +:+ (if String.eqb (PyStr.basename path) "" then path
                                else PyStr.basename path)) :: rest).
Proof.
  intros Hwf. induction fuel as [|fuel IH]; intros path prefix Hin Hfuel.
  { destruct (Hwf path Hin) as [_ Hlen]. cbn in Hfuel. lia. }
  cbn [full_tree_recurse]. cbv zeta.
  match goal with
  | |- exists rest, match ?f ?items with _ => _ end = _ =>
      assert (forall child, child ∈ items ->
                has_entry a child /\ PyStr.dirname child = path) as Hitems;
      [|assert (exists l, f items = Some l) as [l ->]; [|by eexists];
        revert Hitems; generalize items as l]
  end.
  - intros child Hc. apply elem_of_app in Hc.
    assert (child ∈ List.filter (fun p => String.eqb (PyStr.dirname p) path)
                                (tree_keys a)) as Hchild.
    { destruct Hc as [Hc|Hc]; apply elem_of_sorted, elem_of_list_filter in Hc;
        by destruct Hc. }
    apply elem_of_list_filter in Hchild as [Hkey Hpar].
    split; [by apply elem_of_tree_keys|by apply String.eqb_eq].
  - induction l as [|child rest IHr]; intros Hitems; [by eexists|].
    destruct IHr as [l2 ->].
    { intros c Hc. apply Hitems. by apply list_elem_of_further. }
    destruct (Hitems child) as [Hkey Hpar]; [apply list_elem_of_here|].
    destruct (is_dir_in a child); [|by eexists].
    edestruct (IH child) as [l1 ->]; [done| |by eexists].
    destruct (Hwf child Hkey) as [Hne Hlen].
    destruct (dirname_length child) as [Hle Heq]. rewrite Hpar in Hle, Heq.
    assert (String.length path <> String.length child)
      by (intros E; apply Hne; rewrite Hpar; by apply Heq).
    lia.
Qed.

(** X15.  In a tree where no key is its own parent, the full file tree
    is written, within a recursion depth of the longest key's length, and
    every root folder that exists and has an entry is one of its
    lines. *)
Theorem full_tree_is_written (fs : FS) (M fuel : nat) (a : App) :
  keys_well_founded M (folder_tree_data a) -> M < fuel ->
  exists lines,
    build_full_file_tree_text fs fuel a = Some lines
    /\ (root_folders a = [] -> lines = ["No folders selected."])
    /\ forall rf, rf ∈ root_folders a -> fs_exists fs rf = true ->
                  has_entry a rf -> rf ∈ lines.
Proof.
  intros Hwf Hfuel. unfold build_full_file_tree_text.
  assert (forall roots,
             exists lines,
               full_tree_roots fs fuel a roots = Some lines
               /\ forall rf, rf ∈ roots -> fs_exists fs rf = true ->
                             has_entry a rf -> rf ∈ lines) as Hroots.
  { induction roots as [|r roots (l2 & Hl2 & Hin2)].
    - exists []. split; [done|]. intros rf Hrf. by apply elem_of_nil in Hrf.
    - cbn [full_tree_roots]. cbv zeta. rewrite Hl2.
      destruct (fs_exists fs r && in_tree r a) eqn:Hhere.
      + apply andb_true_iff in Hhere as [Hex Htree]. apply in_tree_true in Htree.
        destruct (full_tree_recurse_ends M a Hwf fuel r "" Htree) as [rest ->]; [lia|].
        eexists. split; [reflexivity|]. cbn [String.eqb].
        intros rf Hrf Hexr Hentry. apply elem_of_cons in Hrf as [->|Hrf].
        * apply list_elem_of_here.
        * apply elem_of_app. right. by apply Hin2.
      + eexists. split; [reflexivity|]. cbn [app].
        intros rf Hrf Hexr Hentry. apply elem_of_cons in Hrf as [->|Hrf].
        * apply in_tree_true in Hentry. by rewrite Hexr, Hentry in Hhere.
        * by apply Hin2. }
  destruct (root_folders a) as [|r0 rs] eqn:Hr.
  - eexists. split; [reflexivity|]. split; [done|].
    intros rf Hrf. by apply elem_of_nil in Hrf.
  - destruct (Hroots (r0 :: rs)) as (lines & Hrun & Hin).
    exists lines. split; [done|]. split; [done|exact Hin].
Qed.

Lemma full_tree_is_written_witness :
  exists lines,
    build_full_file_tree_text (GraphFS.to_fs proj_graph) 15 proj_scanned = Some lines
    /\ "/proj" ∈ lines.
Proof.
  destruct (full_tree_is_written (GraphFS.to_fs proj_graph) 14 15 proj_scanned)
    as (lines & Hrun & _ & Hin).
  - apply keys_well_founded_test_spec. vm_compute. reflexivity.
  - lia.
  - exists lines. split; [done|]. apply Hin.
    + vm_compute. apply list_elem_of_here.
    + vm_compute. reflexivity.
    + vm_compute. by eexists.
Defined.

(* ===================================================================== *)
(** ** The default patterns                                               *)
(* ===================================================================== *)

Lemma chars_append s t : PyStr.chars (s +:+ t) = PyStr.chars s ++ PyStr.chars t.
Proof.
  unfold PyStr.chars. induction s as [|c s IH]; [done|].
  change (c :: list_ascii_of_string (s +:+ t)
          = c :: (list_ascii_of_string s ++ list_ascii_of_string t)).
  by rewrite IH.
Qed.

Lemma gmatch_lit lit toks s :
  Fnmatch.gmatch (map Fnmatch.GLit lit ++ toks) (lit ++ s) = Fnmatch.gmatch toks s.
Proof.
  induction lit as [|c lit IH]; [done|].
  cbn [map app Fnmatch.gmatch Fnmatch.tok_accepts].
  by rewrite Ascii.eqb_refl, IH.
Qed.

Lemma gmatch_star toks s :
  Fnmatch.gmatch (Fnmatch.GStar :: toks) s
  = Fnmatch.gmatch toks s
    || match s with
       | [] => false
       | _ :: s' => Fnmatch.gmatch (Fnmatch.GStar :: toks) s'
       end.
Proof. by destruct s. Qed.

Lemma gmatch_star_end s : Fnmatch.gmatch [Fnmatch.GStar] s = true.
Proof.
  induction s as [|c s IH]; [done|]. rewrite gmatch_star, IH. apply orb_true_r.
Qed.

Lemma gmatch_star_lit_star lit pre post :
  Fnmatch.gmatch (Fnmatch.GStar :: map Fnmatch.GLit lit ++ [Fnmatch.GStar])
                 (pre ++ lit ++ post) = true.
Proof.
  induction pre as [|c pre IH]; rewrite gmatch_star.
  - cbn [app]. by rewrite gmatch_lit, gmatch_star_end.
  - cbn [app]. rewrite IH. apply orb_true_r.
Qed.

Lemma any_pattern_matches_elem fpath pat pats :
  pat ∈ pats -> PyStr.strip pat <> "" ->
  Fnmatch.fnmatch fpath (PyStr.strip pat) = true ->
  any_pattern_matches fpath pats = true.
Proof.
  intros Hin Hne Hm. induction pats as [|p pats IH]; [by apply elem_of_nil in Hin|].
  cbn [any_pattern_matches]. cbv zeta.
  apply elem_of_cons in Hin as [<-|Hin].
  - rewrite Hm. apply String.eqb_neq in Hne. by rewrite Hne.
  - rewrite (IH Hin). by destruct (_ && _).
Qed.

(** X16.  With the system-folder filter on, everything inside a
    directory named [.git], [.venv], [__pycache__], [.vs], [.vscode],
    [.idea], [node_modules], [build], [dist] or [.svn] is ignored, at any
    depth, whatever the path before that directory and whatever the user
    patterns, also when the path is written with backslashes. *)
Theorem system_folder_contents_are_ignored
        (a : App) (path pre d post : string) :
  filter_system_folders a = true ->
  d ∈ system_folders ->
  PyStr.replace_char PyStr.backslash PyStr.slash path
  = pre +:+ ("/" +:+ d +:+ "/") +:+ post ->
  filters_match a path = true.
Proof.
  intros Hon Hd Hpath. unfold filters_match. cbv zeta. rewrite Hpath, Hon.
  destruct (any_pattern_matches _ (ignore_patterns a)); [done|].
  assert (any_pattern_matches (pre +:+ ("/" +:+ d +:+ "/") +:+ post)
                              default_ignore_patterns = true) as ->; [|done].
  unfold system_folders in Hd.
  repeat (apply elem_of_cons in Hd as [->|Hd]);
    [..|by apply elem_of_nil in Hd];
    match goal with
    | |- any_pattern_matches (_ +:+ ?mid +:+ _) _ = true =>
        apply (any_pattern_matches_elem _ ("*" +:+ mid +:+ "*"));
        [vm_compute; set_solver
        |vm_compute; discriminate
        |unfold Fnmatch.fnmatch; rewrite !chars_append;
         replace (Fnmatch.translate (PyStr.strip ("*" +:+ mid +:+ "*")))
           with (Fnmatch.GStar :: map Fnmatch.GLit (PyStr.chars mid)
                   ++ [Fnmatch.GStar])
           by (vm_compute; reflexivity);
         apply gmatch_star_lit_star]
    end.
Qed.

Lemma system_folder_contents_are_ignored_witness :
  filters_match initial_app "C:\proj\node_modules\left-pad\index.js" = true.
Proof.
  apply (system_folder_contents_are_ignored initial_app _ "C:/proj" "node_modules"
           "left-pad/index.js").
  - reflexivity.
  - vm_compute. set_solver.
  - vm_compute. reflexivity.
Defined.

(* ===================================================================== *)
(** ** A poll pass that finishes leaves nothing to do                     *)
(* ===================================================================== *)

Lemma kept_by_poll_grown a a' : kept_by_poll a a' -> grown a a'.
Proof.
  intros ((Hkeep & _ & Hvis) & Hs). split; [done|]. split; [done|].
  intros p [n Hn]. exists n. by apply Hkeep.
Qed.

Lemma kept_by_poll_refl a : kept_by_poll a a.
Proof. split; [apply only_added_refl|apply same_settings_refl]. Qed.

Section Replay.

Context {A : Type}.
Variable body : App -> A -> outcome.

Hypothesis body_grows : forall a x, grown a (state_of (body a x)).
Hypothesis body_settled :
  forall x a a' af, body a x = Finished a' -> grown a' af -> body af x = Finished af.

Lemma for_each_raising_grown l a : grown a (state_of (for_each_raising body l a)).
Proof.
  apply (for_each_raising_invariant (grown a)); [apply grown_refl|].
  intros b x Hb. eapply grown_trans; [exact Hb|apply body_grows].
Qed.

(** A loop that has finished does nothing when it is run again from
    the state it reached, or from one grown out of it. *)
Lemma for_each_raising_replay l a a' af :
  for_each_raising body l a = Finished a' -> grown a' af ->
  for_each_raising body l af = Finished af.
Proof.
  revert a. induction l as [|x l IH]; intros a; cbn [for_each_raising]; [done|].
  destruct (body a x) as [a1|a1] eqn:Hx; [|done].
  intros Hrest Hg.
  assert (grown a1 a') as H1.
  { pose proof (for_each_raising_grown l a1) as H. by rewrite Hrest in H. }
  rewrite (body_settled x a a1 af Hx (grown_trans _ _ _ H1 Hg)).
  by eapply IH.
Qed.

End Replay.

Section PollTwice.

Variable fs : FS.

Lemma poll_entry_grows as_dir root a name :
  grown a (state_of (poll_entry fs as_dir root a name)).
Proof. apply kept_by_poll_grown, poll_entry_only_adds, kept_by_poll_refl. Qed.

Lemma poll_triple_grows a t : grown a (state_of (poll_triple fs a t)).
Proof. apply kept_by_poll_grown, poll_triple_only_adds, kept_by_poll_refl. Qed.

Lemma grown_filters a a' p : grown a a' -> filters_match a p = filters_match a' p.
Proof. intros (Hs & _). by apply same_settings_filters. Qed.

Lemma grown_visited a a' x :
  grown a a' -> in_visited x a = true -> in_visited x a' = true.
Proof.
  intros (_ & Hv & _) Hx. apply in_visited_true. apply in_visited_true in Hx.
  set_solver.
Qed.

Lemma grown_in_tree a a' p :
  grown a a' -> in_tree p a = true -> in_tree p a' = true.
Proof.
  intros (_ & _ & He) Hp. apply in_tree_true. apply in_tree_true in Hp. by apply He.
Qed.

Lemma poll_entry_settled as_dir root name a a' af :
  poll_entry fs as_dir root a name = Finished a' -> grown a' af ->
  poll_entry fs as_dir root af name = Finished af.
Proof.
  intros Hrun Hg.
  assert (grown a af) as Hg0.
  { eapply grown_trans; [|exact Hg].
    pose proof (poll_entry_grows as_dir root a name) as H. by rewrite Hrun in H. }
  revert Hrun. unfold poll_entry. cbv zeta.
  rewrite <- (grown_filters a af _ Hg0).
  destruct (filters_match a _); cbn [orb]; [done|].
  destruct (in_visited _ a) eqn:Hvis.
  { intros _. by rewrite (grown_visited a af _ Hg0 Hvis). }
  destruct (in_visited _ af) eqn:Hvisf; [done|].
  destruct (fs_samefile fs root _) as [[]|]; [done| |done].
  destruct (in_tree _ a) eqn:Htree.
  { intros _. by rewrite (grown_in_tree a af _ Hg0 Htree). }
  intros [= <-]. exfalso.
  assert (in_visited (fs_realpath fs (PyStr.join root name)) af = true) as Hin.
  { eapply grown_visited; [exact Hg|]. apply in_visited_true. cbn. set_solver. }
  congruence.
Qed.

Lemma poll_triple_settled t a a' af :
  poll_triple fs a t = Finished a' -> grown a' af ->
  poll_triple fs af t = Finished af.
Proof.
  intros Hrun Hg.
  assert (grown a af) as Hg0.
  { eapply grown_trans; [|exact Hg].
    pose proof (poll_triple_grows a t) as H. by rewrite Hrun in H. }
  revert Hrun. destruct t as [[root dirs] files]. unfold poll_triple. cbv zeta.
  rewrite <- (grown_filters a af _ Hg0).
  destruct (filters_match a root); cbn [orb]; [done|].
  destruct (in_visited _ a) eqn:Hvis.
  { intros _. by rewrite (grown_visited a af _ Hg0 Hvis). }
  destruct (in_visited _ af) eqn:Hvisf; [done|].
  set (a1 := if in_tree root a then a else _).
  destruct (for_each_raising (poll_entry fs true root) dirs a1) as [a2|a2] eqn:Hdirs;
    [|done].
  intros Hfiles.
  assert (grown a2 a') as H2.
  { pose proof (for_each_raising_grown (poll_entry fs false root)
                  (poll_entry_grows false root) files a2) as H.
    by rewrite Hfiles in H. }
  assert (grown a1 a2) as H1.
  { pose proof (for_each_raising_grown (poll_entry fs true root)
                  (poll_entry_grows true root) dirs a1) as H.
    by rewrite Hdirs in H. }
  assert (in_tree root af = true) as ->.
  { eapply grown_in_tree; [exact (grown_trans _ _ _ H1 (grown_trans _ _ _ H2 Hg))|].
    subst a1. destruct (in_tree root a) eqn:Htree; [done|].
    apply in_tree_true. apply has_entry_insert. by left. }
  rewrite (for_each_raising_replay (poll_entry fs true root)
             (poll_entry_grows true root) (poll_entry_settled true root)
             dirs a1 a2 af Hdirs (grown_trans _ _ _ H2 Hg)).
  exact (for_each_raising_replay (poll_entry fs false root)
           (poll_entry_grows false root) (poll_entry_settled false root)
           files a2 a' af Hfiles Hg).
Qed.

Lemma poll_root_grows a folder :
  grown a (state_of (if negb (fs_exists fs folder) then Finished a
                     else for_each_raising (poll_triple fs) (fs_walk fs folder) a)).
Proof.
  destruct (negb _); [apply grown_refl|].
  apply for_each_raising_grown, poll_triple_grows.
Qed.

Lemma poll_root_settled folder a a' af :
  (if negb (fs_exists fs folder) then Finished a
   else for_each_raising (poll_triple fs) (fs_walk fs folder) a) = Finished a' ->
  grown a' af ->
  (if negb (fs_exists fs folder) then Finished af
   else for_each_raising (poll_triple fs) (fs_walk fs folder) af) = Finished af.
Proof.
  destruct (negb _); [done|].
  apply for_each_raising_replay; [apply poll_triple_grows|apply poll_triple_settled].
Qed.

End PollTwice.

(** X17.  A poll pass that runs to its end leaves nothing for the next
    one: while the disk stays as it is, every further pass finishes too
    and changes nothing, so after the first finished pass the tree, the
    check marks and [visited_dirs] stay as they are. *)
Theorem finished_poll_is_stable (fs : FS) (a a' : App) :
  poll_folder fs a = Finished a' ->
  poll_folder fs a' = Finished a'
  /\ forall n, schedule_folder_poll fs n a' = a'.
Proof.
  intros Hrun.
  assert (poll_folder fs a' = Finished a') as Hagain.
  { unfold poll_folder in *.
    assert (root_folders a' = root_folders a) as ->.
    { pose proof (for_each_raising_grown _ (poll_root_grows fs) (root_folders a) a) as H.
      rewrite Hrun in H. destruct H as ((Hr & _) & _). done. }
    eapply (for_each_raising_replay
              (fun a folder =>
                 if negb (fs_exists fs folder) then Finished a
                 else for_each_raising (poll_triple fs) (fs_walk fs folder) a));
      [apply poll_root_grows|apply poll_root_settled|exact Hrun|apply grown_refl]. }
  split; [done|].
  induction n as [|n IH]; [done|]. cbn [schedule_folder_poll]. by rewrite Hagain.
Qed.

Lemma finished_poll_is_stable_witness :
  exists a',
    poll_folder (GraphFS.to_fs proj_graph) (proj_app true) = Finished a'
    /\ has_entry a' "/proj/src"
    /\ forall n, schedule_folder_poll (GraphFS.to_fs proj_graph) n a' = a'.
Proof.
  eexists. split; [vm_compute; reflexivity|].
  split; [vm_compute; by eexists|].
  refine (proj2 (finished_poll_is_stable (GraphFS.to_fs proj_graph) (proj_app true) _ _)).
  vm_compute. reflexivity.
Defined.

(* ===================================================================== *)
(** ** Where polling looks                                                *)
(* ===================================================================== *)

Lemma for_each_raising_invariant_in {A : Type} (P : App -> Prop)
      (body : App -> A -> outcome) l a :
  P a ->
  (forall a x, x ∈ l -> P a -> P (state_of (body a x))) ->
  P (state_of (for_each_raising body l a)).
Proof.
  intros Ha Hbody. revert a Ha.
  induction l as [|x l IH]; intros a Ha; cbn [for_each_raising]; [done|].
  pose proof (Hbody a x (list_elem_of_here _ _) Ha) as Hx.
  destruct (body a x) as [a1|a1]; cbn in *; [|done].
  apply IH; [|done]. intros b y Hy. apply Hbody. by apply list_elem_of_further.
Qed.

Section PollLooks.

Variable fs : FS.
Variable a0 : App.

Lemma poll_adds_there_insert a q n (v : gset string) :
  poll_adds_there fs a0 a -> found_by_poll fs a0 q -> visited_dirs a ⊆ v ->
  poll_adds_there fs a0
    (with_visited v (with_tree (<[q := n]> (folder_tree_data a)) a)).
Proof.
  intros (Hg & Hq) Hfound Hv. split.
  - eapply grown_trans; [exact Hg|]. split; [by repeat split|].
    split; [done|]. intros p Hp. apply has_entry_insert. by right.
  - intros p Hp.
    apply (has_entry_insert (with_visited v a) q n p) in Hp as [->|Hp];
      [by right|by apply Hq].
Qed.

Lemma poll_entry_adds_there as_dir root dirs files a name :
  walked fs a0 (root, dirs, files) -> fs_realpath fs root ∉ visited_dirs a0 ->
  name ∈ dirs ++ files ->
  poll_adds_there fs a0 a ->
  poll_adds_there fs a0 (state_of (poll_entry fs as_dir root a name)).
Proof.
  intros Hw Hroot Hname Ha. unfold poll_entry. cbv zeta.
  destruct (_ || _); [done|].
  destruct (fs_samefile fs root _) as [[]|]; try done.
  destruct (in_tree _ a); [done|]. cbn [state_of].
  apply (poll_adds_there_insert a); [done| |cbn; set_solver].
  exists root, dirs, files. split; [done|]. split; [done|]. right. by exists name.
Qed.

Lemma poll_triple_adds_there a t :
  walked fs a0 t ->
  poll_adds_there fs a0 a ->
  poll_adds_there fs a0 (state_of (poll_triple fs a t)).
Proof.
  intros Hw Ha. destruct t as [[root dirs] files]. unfold poll_triple. cbv zeta.
  destruct (filters_match a root); cbn [orb]; [done|].
  destruct (in_visited _ a) eqn:Hvis; [done|].
  apply in_visited_false in Hvis.
  assert (fs_realpath fs root ∉ visited_dirs a0) as Hroot.
  { destruct Ha as ((_ & Hv & _) & _). set_solver. }
  set (a1 := if in_tree root a then a else _).
  assert (poll_adds_there fs a0 a1) as H1.
  { subst a1. destruct (in_tree root a); [done|].
    apply (poll_adds_there_insert a); [done| |cbn; set_solver].
    exists root, dirs, files. split; [done|]. split; [done|]. by left. }
  pose proof (for_each_raising_invariant_in (poll_adds_there fs a0)
                (poll_entry fs true root) dirs a1 H1) as H2.
  destruct (for_each_raising (poll_entry fs true root) dirs a1) as [a2|a2];
    cbn [state_of] in *.
  - apply for_each_raising_invariant_in.
    + apply H2. intros b name Hname.
      apply (poll_entry_adds_there true root dirs files); [done..| ].
      apply elem_of_app. by left.
    + intros b name Hname.
      apply (poll_entry_adds_there false root dirs files); [done..| ].
      apply elem_of_app. by right.
  - apply H2. intros b name Hname.
    apply (poll_entry_adds_there true root dirs files); [done..| ].
    apply elem_of_app. by left.
Qed.

Lemma poll_folder_adds_there a :
  poll_adds_there fs a0 a -> poll_adds_there fs a0 (state_of (poll_folder fs a)).
Proof.
  intros Ha. unfold poll_folder.
  assert (root_folders a = root_folders a0) as Hroots
    by (destruct Ha as (((Hr & _) & _) & _); done).
  apply for_each_raising_invariant_in; [done|].
  intros cur folder Hfolder Hcur. cbv beta.
  destruct (negb _); [done|].
  apply for_each_raising_invariant_in; [done|].
  intros b t Ht. apply poll_triple_adds_there.
  exists folder. split; [by rewrite <- Hroots|done].
Qed.

Lemma schedule_folder_poll_adds_there n a :
  poll_adds_there fs a0 a -> poll_adds_there fs a0 (schedule_folder_poll fs n a).
Proof.
  revert a. induction n as [|n IH]; intros a Ha; cbn [schedule_folder_poll]; [done|].
  pose proof (poll_folder_adds_there a Ha) as Ha'.
  destruct (poll_folder fs a) as [a'|a']; cbn [state_of] in *; [by apply IH|done].
Qed.

End PollLooks.

(** X18.  Polling looks only into directories it has not visited: an
    entry that any number of poll passes add is a directory that
    [os.walk] enters and whose canonical path was not in [visited_dirs]
    when polling began, or an item listed in such a directory.  So an
    item that appears in a directory which was scanned before, and which
    [os.walk] does not enter as a directory of its own, never gets an
    entry from polling. *)
Theorem polling_skips_visited_directories (fs : FS) (n : nat) (a : App) (q : string) :
  (has_entry (schedule_folder_poll fs n a) q ->
   has_entry a q \/ found_by_poll fs a q)
  /\ (~ has_entry a q ->
      (forall root dirs files,
          walked fs a (root, dirs, files) ->
          q <> root
          /\ (fs_realpath fs root ∈ visited_dirs a
              \/ forall name, name ∈ dirs ++ files -> q <> PyStr.join root name)) ->
      ~ has_entry (schedule_folder_poll fs n a) q).
Proof.
  assert (has_entry (schedule_folder_poll fs n a) q ->
          has_entry a q \/ found_by_poll fs a q) as Hfound.
  { apply (schedule_folder_poll_adds_there fs a n a).
    split; [apply grown_refl|]. intros p Hp. by left. }
  split; [exact Hfound|].
  intros Hno Hwalk Hin.
  destruct (Hfound Hin) as [?|(root & dirs & files & Hw & Hroot & Hq)]; [done|].
  destruct (Hwalk root dirs files Hw) as [Hne [Hvis|Hnames]].
  - done.
  - destruct Hq as [?|(name & Hname & ->)]; [done|]. by apply (Hnames name).
Qed.

Lemma polling_skips_visited_directories_witness :
  ~ has_entry (schedule_folder_poll (GraphFS.to_fs proj_graph_later) 3 proj_scanned)
              "/proj/src/new.py".
Proof.
  apply (proj2 (polling_skips_visited_directories
                  (GraphFS.to_fs proj_graph_later) 3 proj_scanned "/proj/src/new.py")).
  - vm_compute. by intros [? ?].
  - intros root dirs files (folder & Hfolder & Ht).
    vm_compute in Hfolder. apply list_elem_of_singleton in Hfolder as ->.
    vm_compute in Ht.
    repeat (apply elem_of_cons in Ht as [Ht|Ht]);
      [injection Ht as -> -> ->..|by apply elem_of_nil in Ht];
      (split; [discriminate|]);
      first [ left; refine (bool_decide_unpack _ _); vm_compute; exact I
            | right; intros name Hname;
              repeat (apply elem_of_cons in Hname as [->|Hname]);
              [discriminate..|by apply elem_of_nil in Hname] ].
Defined.

(* ===================================================================== *)
(** ** The order of a directory listing                                   *)
(* ===================================================================== *)

Lemma ascii_compare_eq c1 c2 : Ascii.compare c1 c2 = Eq -> c1 = c2.
Proof.
  unfold Ascii.compare. intros H. apply N.compare_eq_iff in H.
  apply (f_equal ascii_of_N) in H. by rewrite !ascii_N_embedding in H.
Qed.

Lemma string_leb_trans a b c :
  String.leb a b = true -> String.leb b c = true -> String.leb a c = true.
Proof.
  unfold String.leb. revert b c.
  induction a as [|c1 a IH]; intros [|c2 b] [|c3 c]; cbn [String.compare]; try done.
  destruct (Ascii.compare c1 c2) eqn:H12; [| |done].
  - apply ascii_compare_eq in H12 as ->.
    destruct (Ascii.compare c2 c3) eqn:H23; [apply IH|done|done].
  - destruct (Ascii.compare c2 c3) eqn:H23; [| |done].
    + apply ascii_compare_eq in H23 as ->. by rewrite H12.
    + intros _ _. unfold Ascii.compare in *.
      change (N_of_ascii c1 < N_of_ascii c2)%N in H12.
      change (N_of_ascii c2 < N_of_ascii c3)%N in H23.
      assert ((N_of_ascii c1 ?= N_of_ascii c3)%N = Lt) as ->; [|done].
      change (N_of_ascii c1 < N_of_ascii c3)%N. lia.
Qed.

Lemma str_le_trans : Transitive str_le.
Proof. intros a b c. apply string_leb_trans. Qed.

Lemma str_le_antisymm : AntiSymm eq str_le.
Proof. intros a b. apply String.leb_antisym. Qed.

Lemma str_le_total : Total str_le.
Proof. intros a b. apply String.leb_total. Qed.

(** [sorted] depends on the names, not on their order. *)
Lemma sorted_permutation l l' : l ≡ₚ l' -> sorted l = sorted l'.
Proof.
  intros Hp. unfold sorted.
  apply (@Sorted_unique _ str_le str_le_trans str_le_antisymm).
  - apply (@Sorted_merge_sort _ str_le _ str_le_total).
  - apply (@Sorted_merge_sort _ str_le _ str_le_total).
  - by rewrite !merge_sort_Permutation.
Qed.

Lemma for_each_ext {A : Type} (body body' : App -> A -> option App) l a :
  (forall a x, body a x = body' a x) -> for_each body l a = for_each body' l a.
Proof.
  intros Hb. revert a. induction l as [|x l IH]; intros a; cbn [for_each]; [done|].
  rewrite Hb. destruct (body' a x); [apply IH|done].
Qed.

Section ListingOrder.

Variable fs : FS.
Variable shuffle : string -> list string -> list string.
Hypothesis shuffle_permutes : forall p l, shuffle p l ≡ₚ l.

Lemma add_directory_contents_shuffled fuel d a :
  add_directory_contents (with_listing_order shuffle fs) fuel d a
  = add_directory_contents fs fuel d a.
Proof.
  revert d a. induction fuel as [|fuel IH]; intros d a; [done|].
  cbn [add_directory_contents]. cbv zeta.
  change (is_potentially_problematic_path (with_listing_order shuffle fs))
    with (is_potentially_problematic_path fs).
  change (check_folder_access_with_timeout (with_listing_order shuffle fs))
    with (check_folder_access_with_timeout fs).
  cbn [with_listing_order fs_exists fs_isdir fs_listdir fs_realpath].
  destruct (negb _); [done|].
  destruct (fs_listdir fs d) as [items|]; cbn [fmap option_fmap option_map]; [|done].
  rewrite (sorted_permutation _ _ (shuffle_permutes d items)).
  erewrite for_each_ext; [reflexivity|].
  intros b item. unfold add_item. cbv zeta.
  change (is_potentially_problematic_path (with_listing_order shuffle fs))
    with (is_potentially_problematic_path fs).
  cbn [with_listing_order fs_isdir fs_realpath fs_samefile].
  destruct (filters_match b _); [done|].
  destruct (fs_samefile fs d _) as [[]|]; try done.
  destruct (_ && _); [done|].
  destruct (fs_isdir fs _); [|done].
  destruct (negb _); [apply IH|done].
Qed.

Lemma build_tree_for_shuffled fuel a folder :
  build_tree_for (with_listing_order shuffle fs) fuel a folder
  = build_tree_for fs fuel a folder.
Proof.
  unfold build_tree_for. cbv zeta.
  change (check_folder_access_with_timeout (with_listing_order shuffle fs))
    with (check_folder_access_with_timeout fs).
  cbn [with_listing_order fs_realpath].
  destruct (negb _); [done|]. destruct (in_visited _ a); [done|].
  apply add_directory_contents_shuffled.
Qed.

End ListingOrder.

(** X19.  The scan does not depend on the order in which the system
    lists a directory: when every listing is given in another order, the
    rebuild ends in the same state, with the same entries, the same
    [visited_dirs] and the same directories expanded in the same order
    (which of two names of one directory gets the entry is decided by
    [sorted], not by the system). *)
Theorem scan_ignores_listing_order
        (fs : FS) (shuffle : string -> list string -> list string)
        (fuel : nat) (a : App) :
  (forall p l, shuffle p l ≡ₚ l) ->
  build_all_trees (with_listing_order shuffle fs) fuel a = build_all_trees fs fuel a.
Proof.
  intros Hperm. unfold build_all_trees. cbv zeta.
  erewrite for_each_ext; [reflexivity|].
  intros b folder. cbv beta. cbn [with_listing_order fs_exists].
  destruct (negb _); [done|]. by apply build_tree_for_shuffled.
Qed.

Lemma scan_ignores_listing_order_witness :
  build_all_trees (with_listing_order (fun _ l => rev l) (GraphFS.to_fs cyclic_graph)) 4
                  (configure ["/a"] [] true initial_app)
  = build_all_trees (GraphFS.to_fs cyclic_graph) 4
                    (configure ["/a"] [] true initial_app).
Proof.
  apply (scan_ignores_listing_order (GraphFS.to_fs cyclic_graph) (fun _ l => rev l)).
  intros p l. symmetry. apply Permutation_rev.
Defined.

(* ===================================================================== *)
(** ** Network folders                                                    *)
(* ===================================================================== *)

Lemma prefix_append p s t :
  String.prefix p s = true -> String.prefix p (s +:+ t) = true.
Proof.
  revert s. induction p as [|c p IH]; intros s.
  - intros _. by destruct (s +:+ t).
  - destruct s as [|d s]; [done|].
    change (String.prefix (String c p) (String d s) = true ->
            String.prefix (String c p) (String d (s +:+ t)) = true).
    cbn [String.prefix]. destruct (ascii_dec c d); [apply IH|done].
Qed.

Lemma join_keeps_prefix root item pre :
  PyStr.startswith item "/" = false -> PyStr.startswith root pre = true ->
  PyStr.startswith (PyStr.join root item) pre = true.
Proof.
  unfold PyStr.join, PyStr.startswith. intros -> Hpre.
  destruct (_ || _); by apply prefix_append.
Qed.

Lemma network_path_join root item :
  PyStr.startswith item "/" = false -> network_path root = true ->
  network_path (PyStr.join root item) = true.
Proof.
  unfold network_path. intros Hitem [H|H]%orb_true_iff.
  - by rewrite (join_keeps_prefix root item _ Hitem H).
  - rewrite (join_keeps_prefix root item "//" Hitem H). apply orb_true_r.
Qed.

Lemma network_path_flagged fs p :
  network_path p = true -> is_potentially_problematic_path fs p = true.
Proof. unfold network_path, is_potentially_problematic_path. by intros ->. Qed.

Section NetworkRoot.

Variable fs : FS.
Variable root : string.
Hypothesis root_network : network_path root = true.
Hypothesis names_plain : plain_names fs.

Lemma one_level_insert a cur items item n (v : gset string) :
  fs_listdir fs root = Some items -> item ∈ items ->
  one_level fs root a cur -> visited_dirs cur ⊆ v ->
  one_level fs root a
    (with_visited v (with_tree (<[PyStr.join root item := n]> (folder_tree_data cur)) cur)).
Proof.
  intros Hl Hitem (Hg & Hent & Hexp) Hv. split; [|split; [|done]].
  - eapply grown_trans; [exact Hg|]. split; [by repeat split|].
    split; [done|]. intros p Hp. apply has_entry_insert. by right.
  - intros q Hq.
    apply (has_entry_insert (with_visited v cur)) in Hq as [->|Hq]; [|by apply Hent].
    right. right. by exists items, item.
Qed.

Lemma add_item_one_level recurse a cur items item :
  fs_listdir fs root = Some items -> item ∈ items ->
  one_level fs root a cur ->
  exists cur', add_item fs recurse root cur item = Some cur'
               /\ one_level fs root a cur'.
Proof.
  intros Hl Hitem Hcur. unfold add_item. cbv zeta.
  destruct (filters_match cur _); [by eexists|].
  destruct (fs_samefile fs root _) as [[]|]; try by eexists.
  destruct (_ && _); [by eexists|].
  assert (one_level fs root a
            (with_tree (<[PyStr.join root item :=
                            Node false (fs_isdir fs (PyStr.join root item))]>
                          (folder_tree_data cur)) cur)) as Hins.
  { apply (one_level_insert a cur items item _ (visited_dirs cur) Hl Hitem Hcur).
    done. }
  destruct (fs_isdir fs _) eqn:Hdir; [|by eexists].
  rewrite network_path_flagged; cbn [negb].
  - eexists. split; [reflexivity|].
    apply (one_level_insert a cur items item _ _ Hl Hitem Hcur). cbn. set_solver.
  - apply network_path_join; [|done]. by eapply names_plain.
Qed.

End NetworkRoot.

(** X21.  A root folder given as a network path, one that starts with
    two slashes or two backslashes, is scanned one level deep: every
    item below it is flagged too, so no subdirectory is expanded.
    [build_tree_for] returns at the first level of recursion, and what it
    enters is the root folder and items that the listing of the root
    folder itself names; the root folder is the only directory it
    expands. *)
Theorem network_root_is_scanned_one_level_deep
        (fs : FS) (fuel : nat) (a : App) (root : string) :
  network_path root = true ->
  plain_names fs ->
  exists a',
    build_tree_for fs (S fuel) a root = Some a'
    /\ grown a a'
    /\ (forall q, has_entry a' q ->
                  has_entry a q \/ q = root
                  \/ exists items item,
                       fs_listdir fs root = Some items /\ item ∈ items
                       /\ q = PyStr.join root item)
    /\ (expanded a' = expanded a \/ expanded a' = expanded a ++ [fs_realpath fs root]).
Proof.
  intros Hnet Hnames. unfold build_tree_for. cbv zeta.
  assert (forall b, grown b b /\ (forall q, has_entry b q ->
                      has_entry b q \/ q = root
                      \/ exists items item,
                           fs_listdir fs root = Some items /\ item ∈ items
                           /\ q = PyStr.join root item)) as Hsame
    by (intros b; split; [apply grown_refl|by left]).
  destruct (negb _).
  { exists a. destruct (Hsame a) as [Hg Hent].
    split; [done|]. split; [exact Hg|]. split; [exact Hent|by left]. }
  destruct (in_visited _ a).
  { exists a. destruct (Hsame a) as [Hg Hent].
    split; [done|]. split; [exact Hg|]. split; [exact Hent|by left]. }
  set (a2 := if in_tree root _ then _ else _).
  assert (grown a a2 /\ expanded a2 = expanded a
          /\ forall q, has_entry a2 q -> has_entry a q \/ q = root) as (Hg2 & He2 & Hent2).
  { subst a2. destruct (in_tree root _).
    - split; [apply grown_visit|]. split; [done|]. intros q Hq. by left.
    - split; [|split; [done|]].
      + eapply grown_trans; [apply grown_visit|]. apply grown_insert.
      + intros q Hq. apply has_entry_insert in Hq as [->|Hq]; [by right|by left]. }
  cbn [add_directory_contents]. cbv zeta.
  set (a3 := with_expanded _ a2).
  assert (one_level fs root a a3) as H3.
  { split; [|split].
    - eapply grown_trans; [exact Hg2|]. by repeat split.
    - intros q Hq. destruct (Hent2 q Hq) as [?|?]; [by left|right; by left].
    - cbn. by rewrite He2. }
  destruct (negb _).
  { exists a3. destruct H3 as (Hg3 & Hent3 & Hexp3).
    split; [done|]. split; [exact Hg3|]. split; [exact Hent3|by right]. }
  destruct (fs_listdir fs root) as [items|] eqn:Hl.
  2:{ exists a3. destruct H3 as (Hg3 & _ & Hexp3).
      split; [done|]. split; [exact Hg3|]. split; [|by right].
      intros q Hq. destruct (Hent2 q Hq) as [?|?]; [by left|right; by left]. }
  destruct (for_each_invariant (one_level fs root a)
              (add_item fs (add_directory_contents fs fuel) root)
              (sorted items) a3 H3) as (a4 & -> & (Hg4 & Hent4 & Hexp4)).
  { intros cur item Hcur Hitem. apply (add_item_one_level fs root Hnet Hnames _ a cur items);
      [done| |done]. by apply (proj1 (elem_of_sorted _ _)). }
  eexists. split; [reflexivity|]. split; [|split].
  - eapply grown_trans; [exact Hg4|]. by repeat split.
  - intros q Hq.
    destruct (Hent4 q Hq) as [?|[?|(items0 & item & Hl0 & Hit & ->)]];
      [by left|right; by left|].
    right. right. exists items0, item. split; [congruence|done].
  - right. exact Hexp4.
Qed.

Lemma network_root_is_scanned_one_level_deep_witness :
  exists a',
    build_tree_for (GraphFS.to_fs proj_graph) 5
                   (configure ["//proj"] [] true initial_app) "//proj" = Some a'
    /\ has_entry a' "//proj/src"
    /\ ~ has_entry a' "//proj/src/a.py".
Proof.
  destruct (network_root_is_scanned_one_level_deep (GraphFS.to_fs proj_graph) 4
              (configure ["//proj"] [] true initial_app) "//proj")
    as (a' & Hrun & _ & Hent & _).
  - reflexivity.
  - intros d items item Hl Hitem. cbn in Hl. unfold GraphFS.g_listdir in Hl.
    destruct (GraphFS.resolve proj_graph d) as [n|]; [|done].
    do 8 (destruct n as [|n]; [vm_compute in Hl; try discriminate;
                               injection Hl as <-;
                               repeat (apply elem_of_cons in Hitem as [->|Hitem]);
                               try reflexivity; by apply elem_of_nil in Hitem|]).
    vm_compute in Hl. discriminate.
  - exists a'. split; [done|]. split.
    + vm_compute in Hrun. injection Hrun as <-. vm_compute. by eexists.
    + intros Hin. destruct (Hent _ Hin) as [Hq|[Hq|(items & item & Hl & Hitem & Hq)]].
      * vm_compute in Hq. by destruct Hq.
      * discriminate.
      * vm_compute in Hl. injection Hl as <-.
        repeat (apply elem_of_cons in Hitem as [->|Hitem]);
          [discriminate..|by apply elem_of_nil in Hitem].
Defined.

(* ===================================================================== *)
(** ** Nothing checked is left out of an export                           *)
(* ===================================================================== *)

Lemma child_lines_complete cs c : c ∈ cs -> drawn_in c (child_lines cs).
Proof.
  induction cs as [|c0 [|c1 rest] IH]; cbn [child_lines].
  - intros H. by apply elem_of_nil in H.
  - intros ->%list_elem_of_singleton. right. apply list_elem_of_here.
  - intros [->|Hin]%elem_of_cons; [left; apply list_elem_of_here|].
    destruct (IH Hin) as [H|H]; [left|right]; by apply list_elem_of_further.
Qed.

Lemma remove_first_other x l y : y ∈ l -> y <> x -> y ∈ remove_first x l.
Proof.
  intros Hin Hne. induction l as [|z l IH]; cbn [remove_first]; [done|].
  destruct (String.eqb x z) eqn:Hx.
  - apply String.eqb_eq in Hx as <-.
    apply elem_of_cons in Hin as [?|?]; done.
  - apply elem_of_cons in Hin as [->|Hin]; [apply list_elem_of_here|].
    apply list_elem_of_further. by apply IH.
Qed.

Lemma foldl_remove_first_other xs l y :
  y ∈ l -> y ∉ xs -> y ∈ foldl (fun cf child => remove_first child cf) l xs.
Proof.
  revert l. induction xs as [|x xs IH]; intros l Hin Hno; cbn [foldl]; [done|].
  apply IH.
  - apply remove_first_other; [done|]. intros ->. apply Hno, list_elem_of_here.
  - intros H. apply Hno. by apply list_elem_of_further.
Qed.

Lemma checked_dir_steps_complete dirs lines files :
  let '(lines', files') := foldl checked_dir_step (lines, files) dirs in
  (forall l, l ∈ lines -> l ∈ lines')
  /\ (forall d, d ∈ dirs -> d ∈ lines')
  /\ (forall f, f ∈ files -> f ∈ files' \/ drawn_in f lines').
Proof.
  revert lines files. induction dirs as [|d dirs IH]; intros lines files; cbn [foldl].
  - split; [done|]. split; [|by left]. intros d Hd. by apply elem_of_nil in Hd.
  - unfold checked_dir_step at 2.
    set (cf := sorted (List.filter (fun f => String.eqb (PyStr.dirname f) d) files)).
    specialize (IH (lines ++ [d] ++ child_lines cf)
                   (foldl (fun cf child => remove_first child cf) files cf)).
    destruct (foldl checked_dir_step _ dirs) as [lines' files'].
    destruct IH as (Hl & Hd & Hf). split; [|split].
    + intros l Hin. apply Hl, elem_of_app. by left.
    + intros d' [->|Hin]%elem_of_cons; [|by apply Hd].
      apply Hl, elem_of_app. right. apply list_elem_of_here.
    + intros f Hin. destruct (decide (f ∈ cf)) as [Hcf|Hcf].
      * right. destruct (child_lines_complete cf f Hcf) as [H|H]; [left|right];
          apply Hl, elem_of_app; right; by apply list_elem_of_further.
      * apply Hf. by apply foldl_remove_first_other.
Qed.

(** X20.  No checked entry is left out of an export: in the
    checked-tree text every checked directory is a line, and every
    checked file is a line, either by its path or, under its checked
    directory, by its base name behind a tee or an elbow; and every
    checked file has its block, headed by its path, in the file
    contents. *)
Theorem checked_entries_are_exported
        (fence_label fence_text : string -> string) (a : App) (p : string) (n : node) :
  root_folders a <> [] ->
  folder_tree_data a !! p = Some n -> checked n = true ->
  (is_dir n = true -> p ∈ build_checked_file_tree_text a)
  /\ (is_dir n = false ->
      (p ∈ build_checked_file_tree_text a
       \/ drawn_in p (build_checked_file_tree_text a))
      /\ ("File: " +:+ p) ∈ build_file_contents_text fence_label fence_text a).
Proof.
  intros Hroots Hn Hc.
  assert (p ∈ sorted_paths_where checked a) as Hp
    by (apply elem_of_sorted_paths_where; by exists n).
  assert (is_dir_in a p = is_dir n) as Hkind by (unfold is_dir_in; by rewrite Hn).
  unfold build_checked_file_tree_text.
  destruct (root_folders a) as [|r0 rs]; [done|]. cbv zeta.
  destruct (sorted_paths_where checked a) as [|p0 paths'] eqn:Hpaths;
    [by apply elem_of_nil in Hp|].
  rewrite <- Hpaths in *. clear Hpaths. set (paths := sorted_paths_where checked a) in *.
  pose proof (checked_dir_steps_complete (List.filter (is_dir_in a) paths) []
                (List.filter (fun q => negb (is_dir_in a q)) paths)) as H.
  destruct (foldl checked_dir_step _ _) as [lines remaining].
  destruct H as (_ & Hd & Hf). split.
  - intros Hdir. apply elem_of_app. left. apply Hd, elem_of_list_filter.
    split; [done|]. by rewrite Hkind.
  - intros Hfile. split.
    + destruct (Hf p) as [Hin|[Hin|Hin]].
      * apply elem_of_list_filter. split; [done|]. by rewrite Hkind, Hfile.
      * left. apply elem_of_app. by right.
      * right. left. apply elem_of_app. by left.
      * right. right. apply elem_of_app. by left.
    + unfold build_file_contents_text. apply list_elem_of_In, in_concat.
      exists (file_block fence_label fence_text p). split.
      * apply in_map, list_elem_of_In. unfold checked_files.
        apply elem_of_sorted_paths_where. exists n. split; [done|].
        by rewrite Hc, Hfile.
      * left. reflexivity.
Qed.

Lemma checked_entries_are_exported_witness :
  drawn_in "/proj/src/a.py"
           (build_checked_file_tree_text
              (with_tree (<["/proj/src" := Node true true]>
                            (folder_tree_data proj_in_use)) proj_in_use))
  \/ "/proj/src/a.py" ∈
       build_checked_file_tree_text
         (with_tree (<["/proj/src" := Node true true]>
                       (folder_tree_data proj_in_use)) proj_in_use).
Proof.
  destruct (checked_entries_are_exported (fun _ => "txt") (fun _ => "")
              (with_tree (<["/proj/src" := Node true true]>
                            (folder_tree_data proj_in_use)) proj_in_use)
              "/proj/src/a.py" (Node true false)) as [_ Hfile].
  - discriminate.
  - vm_compute. reflexivity.
  - reflexivity.
  - destruct (Hfile eq_refl) as [[H|H] _]; [by right|by left].
Defined.

(* ===================================================================== *)
(** ** Skip and Cancel at start-up                                        *)
(* ===================================================================== *)

Lemma clicks_stay_cancelled d bs :
  cancelled d = CSkip \/ cancelled d = CCancel ->
  DisableTimeoutsButton ∉ bs ->
  cancelled (clicks d bs) = CSkip \/ cancelled (clicks d bs) = CCancel.
Proof.
  unfold clicks. revert d.
  induction bs as [|b bs IH]; intros d Hd Hno; cbn [foldl]; [done|].
  apply IH.
  - destruct b; cbn; auto. exfalso. apply Hno, list_elem_of_here.
  - intros Hin. apply Hno. by apply list_elem_of_further.
Qed.

(** Under a dialog that holds Skip or Cancel the loop is left in its
    first turn, with the dialog still holding one of the two. *)
Lemma first_turn_leaves t ticks a d :
  cancelled d = CSkip \/ cancelled d = CCancel ->
  DisableTimeoutsButton ∉ t_clicks t ->
  exists st,
    watch_loop (t :: ticks)
               {| w_app := a; w_dialog := d;
                  w_timeouts_disabled := false; w_cancel_flag := false |}
    = LoopLeft st
    /\ (cancelled (w_dialog st) = CSkip \/ cancelled (w_dialog st) = CCancel)
    /\ current_profile (w_app st) = current_profile a.
Proof.
  intros Hd Hno. pose proof (clicks_stay_cancelled d (t_clicks t) Hd Hno) as Hd'.
  cbn [watch_loop]. unfold watch_turn. cbv zeta.
  cbn [w_app w_dialog w_timeouts_disabled w_cancel_flag].
  assert (current_profile (worker_write (t_worker_sets_enable t) a)
          = current_profile a) as Hp by (by destruct (t_worker_sets_enable t)).
  destruct (t_alive t); cbn [negb]; [|by eexists].
  destruct (t_update_ok t); cbn [negb]; [|by eexists].
  unfold is_cancelled, get_cancel_type.
  destruct Hd' as [Hv|Hv]; rewrite Hv; cbn; eexists; (split; [reflexivity|]);
    cbn; rewrite Hv; auto.
Qed.

Lemma watch_finish_cancelled j st :
  cancelled (w_dialog st) = CSkip \/ cancelled (w_dialog st) = CCancel ->
  j_alive_after_wait j = false ->
  watch_finish j st = (UserCancelled, st).
Proof.
  intros Hd Hj. unfold watch_finish, is_cancelled, get_cancel_type.
  rewrite Hj, andb_false_r. by destruct Hd as [-> | ->].
Qed.

Lemma load_minimal_settings_spec a files :
  let '(a', files') := load_minimal_settings a files in
  current_profile a' = current_profile a
  /\ root_folders a' = [] /\ folder_tree_data a' = ∅
  /\ ignore_patterns a' = default_initial_ignore_patterns
  /\ (s_root_folders <$> files' !! current_profile a) = Some []
  /\ forall name, name <> current_profile a -> files' !! name = files !! name.
Proof.
  unfold load_minimal_settings. cbv zeta. repeat split.
  - by rewrite lookup_insert_eq.
  - intros name Hne. by rewrite lookup_insert_ne.
Qed.

(** X22.  Cancel at start-up overwrites the default profile: when the
    first attempt fails with the dialog holding Cancel, the application
    switches to the profile [default], resets the settings to the
    minimal ones and saves them at once, so the settings file of the
    default profile now names no root folder, whatever it held before;
    no other settings file is written. *)
Theorem cancel_overwrites_the_default_profile
        (fs : FS) (read_profile : string -> profile_file)
        (available_profiles : list string) (first second : attempt)
        (a : App) (files : gmap string Settings)
        (r : watch_result) (a1 : App) (d : LoadingDialog) :
  watched_load first a new_dialog = (r, a1, d) ->
  r = WorkerFailed \/ r = UserCancelled \/ r = TimedOut ->
  cancelled d = CCancel ->
  exists a' files',
    load_settings_with_timeout fs read_profile available_profiles first second a files
    = Some (a', files')
    /\ current_profile a' = "default"
    /\ root_folders a' = [] /\ folder_tree_data a' = ∅
    /\ (s_root_folders <$> files' !! "default") = Some []
    /\ forall name, name <> "default" -> files' !! name = files !! name.
Proof.
  intros Hfirst Hr Hd. unfold load_settings_with_timeout. cbv zeta. rewrite Hfirst.
  unfold is_cancelled, get_cancel_type. rewrite Hd.
  pose proof (load_minimal_settings_spec (with_current_profile "default" a1) files) as H.
  destruct (load_minimal_settings _ files) as [a' files'].
  destruct H as (Hp & Hroots & Htree & _ & Hfile & Hrest).
  exists a', files'.
  split; [by destruct Hr as [-> | [-> | ->]]|]. done.
Qed.

Lemma cancel_overwrites_the_default_profile_witness :
  (s_root_folders <$> two_profiles !! "default") = Some ["/proj"]
  /\ exists a' files',
       load_settings_with_timeout (GraphFS.to_fs proj_graph)
         (fun _ => Readable ["/proj"]) ["default"; "work"]
         (idle_attempt [cancel_clicked_at 1]) (idle_attempt [])
         (with_current_profile "work" initial_app) two_profiles
       = Some (a', files')
       /\ current_profile a' = "default"
       /\ root_folders a' = [] /\ folder_tree_data a' = ∅
       /\ (s_root_folders <$> files' !! "default") = Some []
       /\ forall name, name <> "default" -> files' !! name = two_profiles !! name.
Proof.
  split; [vm_compute; reflexivity|].
  eapply (cancel_overwrites_the_default_profile (GraphFS.to_fs proj_graph)).
  - vm_compute. reflexivity.
  - right. by left.
  - reflexivity.
Defined.

(** X23.  Skip at start-up never loads the fallback profile: the
    fallback attempt runs under the dialog of the failed attempt, which
    still holds Skip, so it is reported as cancelled in its first turn
    (unless Disable Timeouts is clicked in that turn), whatever the
    worker has loaded.  The application then resets the settings to the
    minimal ones under the name of the fallback profile and saves them
    at once: the settings file of the fallback profile now names no root
    folder, and no other settings file is written. *)
Theorem skip_overwrites_the_fallback_profile
        (fs : FS) (read_profile : string -> profile_file)
        (available_profiles : list string) (first second : attempt)
        (a : App) (files : gmap string Settings)
        (r : watch_result) (a1 : App) (d : LoadingDialog)
        (t : tick) (ts : list tick) :
  watched_load first a new_dialog = (r, a1, d) ->
  r = WorkerFailed \/ r = UserCancelled \/ r = TimedOut ->
  cancelled d = CSkip ->
  at_ticks second = t :: ts ->
  DisableTimeoutsButton ∉ t_clicks t ->
  j_alive_after_wait (at_after second) = false ->
  (forall x, current_profile (at_worker second x) = current_profile x) ->
  exists a' files',
    load_settings_with_timeout fs read_profile available_profiles first second a files
    = Some (a', files')
    /\ current_profile a'
       = find_working_fallback_profile fs read_profile a1 available_profiles
    /\ root_folders a' = [] /\ folder_tree_data a' = ∅
    /\ (s_root_folders
          <$> files' !! find_working_fallback_profile fs read_profile a1
                          available_profiles) = Some []
    /\ forall name,
         name <> find_working_fallback_profile fs read_profile a1 available_profiles ->
         files' !! name = files !! name.
Proof.
  intros Hfirst Hr Hd Hticks Hno Hj Hworker.
  set (fb := find_working_fallback_profile fs read_profile a1 available_profiles).
  assert (load_settings_with_timeout fs read_profile available_profiles first second
                                     a files
          = load_fallback second fb a1 d files) as ->.
  { unfold load_settings_with_timeout. cbv zeta. rewrite Hfirst.
    unfold is_cancelled, get_cancel_type. rewrite Hd.
    by destruct Hr as [-> | [-> | ->]]. }
  unfold load_fallback, watched_load, load_settings_windows_timeout_with_dialog.
  rewrite Hticks.
  destruct (first_turn_leaves t ts (with_current_profile fb a1) d) as (st & -> & Hst & Hp);
    [by left|done|].
  rewrite (watch_finish_cancelled _ st Hst Hj).
  pose proof (load_minimal_settings_spec (at_worker second (w_app st)) files) as H.
  destruct (load_minimal_settings _ files) as [a' files'].
  rewrite Hworker, Hp in H. cbn [current_profile with_current_profile] in H.
  destruct H as (Hcur & Hroots & Htree & _ & Hfile & Hrest).
  by exists a', files'.
Qed.

Lemma skip_overwrites_the_fallback_profile_witness :
  (s_root_folders <$> two_profiles !! "default") = Some ["/proj"]
  /\ exists a' files',
       load_settings_with_timeout (GraphFS.to_fs proj_graph)
         (fun _ => Readable ["/proj"]) ["default"; "work"]
         (idle_attempt [skip_clicked_at 1]) (idle_attempt [worker_finished_at 2])
         (with_current_profile "work" initial_app) two_profiles
       = Some (a', files')
       /\ current_profile a' = "default"
       /\ root_folders a' = [] /\ folder_tree_data a' = ∅
       /\ (s_root_folders <$> files' !! "default") = Some []
       /\ forall name, name <> "default" -> files' !! name = two_profiles !! name.
Proof.
  split; [vm_compute; reflexivity|].
  eapply (skip_overwrites_the_fallback_profile (GraphFS.to_fs proj_graph)
            (fun _ => Readable ["/proj"]) ["default"; "work"]
            (idle_attempt [skip_clicked_at 1]) (idle_attempt [worker_finished_at 2])
            (with_current_profile "work" initial_app) two_profiles
            UserCancelled (with_current_profile "work" initial_app)
            (on_skip new_dialog) (worker_finished_at 2) []).
  - vm_compute. reflexivity.
  - right. by left.
  - reflexivity.
  - reflexivity.
  - cbn. apply not_elem_of_nil.
  - reflexivity.
  - done.
Defined.

(* ===================================================================== *)
(** ** The initial ignore patterns                                        *)
(* ===================================================================== *)

(** A pattern whose last token is a literal matches only names that end
    with that character. *)
Lemma gmatch_last_lit toks c s :
  Fnmatch.gmatch (toks ++ [Fnmatch.GLit c]) s = true -> exists r, rev s = c :: r.
Proof.
  revert s. induction toks as [|tok toks IH]; intros s.
  - destruct s as [|d [|e s]]; cbn; try done.
    + rewrite andb_true_r. intros ->%Ascii.eqb_eq. by exists [].
    + by rewrite andb_false_r.
  - assert (forall d s', Fnmatch.gmatch (toks ++ [Fnmatch.GLit c]) s' = true ->
                         exists r, rev (d :: s') = c :: r) as Hcons.
    { intros d s' Hm. destruct (IH s' Hm) as [r Hr]. exists (r ++ [d]).
      cbn [rev]. by rewrite Hr. }
    destruct tok.
    + induction s as [|d s IHs]; cbn [app]; rewrite gmatch_star.
      * rewrite orb_false_r. apply IH.
      * intros [Hm|Hm]%orb_true_iff; [by apply IH|].
        destruct (IHs Hm) as [r Hr]. exists (r ++ [d]). cbn [rev]. by rewrite Hr.
    + destruct s as [|d s]; cbn [app Fnmatch.gmatch]; [done|].
      intros [_ Hm]%andb_true_iff. by apply Hcons.
    + destruct s as [|d s]; cbn [app Fnmatch.gmatch]; [done|].
      intros [_ Hm]%andb_true_iff. by apply Hcons.
    + destruct s as [|d s]; cbn [app Fnmatch.gmatch]; [done|].
      intros [_ Hm]%andb_true_iff. by apply Hcons.
Qed.

(** X24.  The lines of the initial ignore list that name a directory,
    the ones that end with a slash such as [**/node_modules/], match no
    path that does not itself end with a slash; so on the paths that the
    scan and the polls build, which are joined from listed names, they
    hide nothing. *)
Theorem initial_directory_patterns_match_nothing (pat path : string) :
  pat ∈ default_initial_ignore_patterns ->
  PyStr.endswith_slash pat = true ->
  PyStr.endswith_slash path = false ->
  Fnmatch.fnmatch path (PyStr.strip pat) = false.
Proof.
  intros Hin Hpat Hpath.
  destruct (Fnmatch.fnmatch path (PyStr.strip pat)) eqn:E; [exfalso|done].
  assert (exists r, rev (PyStr.chars path) = PyStr.slash :: r) as [r Hr].
  { unfold default_initial_ignore_patterns in Hin. unfold Fnmatch.fnmatch in E.
    repeat (apply elem_of_cons in Hin as [->|Hin]);
      [..|by apply elem_of_nil in Hin];
      vm_compute in Hpat; try discriminate Hpat;
      match type of E with
      | Fnmatch.gmatch ?T _ = true =>
          let T' := eval vm_compute in T in
          let front := eval vm_compute in (removelast T') in
          change T with (front ++ [Fnmatch.GLit PyStr.slash]) in E
      end;
      by apply gmatch_last_lit in E. }
  unfold PyStr.endswith_slash in Hpath. rewrite Hr in Hpath.
  by rewrite Ascii.eqb_refl in Hpath.
Qed.

Lemma initial_directory_patterns_match_nothing_witness :
  Fnmatch.fnmatch "/proj/node_modules" (PyStr.strip "**/node_modules/") = false.
Proof.
  apply initial_directory_patterns_match_nothing.
  - vm_compute. set_solver.
  - reflexivity.
  - reflexivity.
Defined.

(* ===================================================================== *)
(** ** The check marks across a restart                                   *)
(* ===================================================================== *)

(** What [_delayed_apply_remaining_checks] does to one entry is what
    [apply_saved_checks] does to it. *)
Lemma delayed_apply_lookup a p :
  folder_tree_data (_delayed_apply_remaining_checks a) !! p
  = restored a p <$> folder_tree_data a !! p.
Proof.
  unfold _delayed_apply_remaining_checks, restored. cbn [folder_tree_data with_tree].
  revert p.
  apply (map_fold_weak_ind
           (fun (t : gmap string node) (saved : gmap string bool) =>
              forall p, t !! p
                = (fun n => match saved !! p with
                            | Some chk => if filters_match a p then n
                                          else set_checked chk n
                            | None => n
                            end) <$> folder_tree_data a !! p)).
  - intros p. rewrite lookup_empty. by destruct (folder_tree_data a !! p).
  - intros path chk saved t Hfresh IH p.
    destruct (decide (path = p)) as [->|Hne].
    + rewrite lookup_insert_eq.
      pose proof (IH p) as Hp. rewrite Hfresh in Hp.
      destruct (t !! p) as [n|] eqn:Ht.
      * destruct (folder_tree_data a !! p) as [m|] eqn:Hm; [|done].
        cbn in Hp. injection Hp as ->.
        destruct (filters_match a p); cbn.
        -- rewrite andb_false_r. by rewrite Ht.
        -- rewrite andb_true_r.
           destruct (Bool.eqb (checked m) chk) eqn:He; cbn.
           ++ rewrite Ht. f_equal. apply eqb_prop in He.
              destruct m as [c d]. cbn in *. by subst.
           ++ by rewrite lookup_alter_eq, Ht.
      * rewrite Ht. by destruct (folder_tree_data a !! p).
    + rewrite lookup_insert_ne by done.
      destruct (t !! path) as [n|]; [|apply IH].
      destruct (_ && _); [rewrite lookup_alter_ne by done|]; apply IH.
Qed.

(** The first root folder is entered whenever it can be accessed:
    [visited_dirs] is empty when its turn comes. *)
Lemma build_all_trees_first_root fs fuel a a' r rest :
  build_all_trees fs fuel a = Some a' ->
  root_folders a = r :: rest -> fs_exists fs r = true ->
  check_folder_access_with_timeout fs r = true ->
  has_entry a' r.
Proof.
  unfold build_all_trees. cbv zeta.
  cbn [root_folders with_listed with_expanded with_visited with_tree].
  intros Hrun Hroots Hex Hacc. rewrite Hroots in Hrun. cbn [for_each] in Hrun.
  rewrite Hex in Hrun. cbn [negb] in Hrun.
  destruct (build_tree_for fs fuel _ r) as [a1|] eqn:H1; [|discriminate].
  destruct (for_each _ rest a1) as [a2|] eqn:H2; [|discriminate].
  injection Hrun as <-. apply apply_saved_checks_has_entry.
  assert (forall cur p isd,
             has_entry cur r ->
             has_entry (with_tree (<[p := Node false isd]> (folder_tree_data cur)) cur) r)
    as Hins by (intros cur p isd Hc; apply has_entry_insert; by right).
  assert (has_entry a1 r) as He1.
  { unfold build_tree_for in H1. cbv zeta in H1. rewrite Hacc in H1. cbn [negb] in H1.
    match type of H1 with
    | (if in_visited ?x ?s then _ else _) = _ =>
        assert (in_visited x s = false) as Hv
          by (apply in_visited_false; cbn; set_solver)
    end.
    rewrite Hv in H1.
    match type of H1 with
    | context [in_tree r ?s] =>
        assert (in_tree r s = false) as Hin
          by (apply in_tree_false; intros [n Hn]; cbn in Hn;
              by rewrite lookup_empty in Hn)
    end.
    rewrite Hin in H1.
    eapply (add_directory_contents_preserves fs (fun cur => has_entry cur r));
      [done|done|done|exact Hins|exact H1|].
    apply has_entry_insert. by left. }
  eapply (for_each_preserves (fun cur => has_entry cur r)); [|exact H2|exact He1].
  intros cur folder cur'. cbv beta. destruct (negb _); [by intros [= <-]|].
  by apply (build_tree_for_preserves fs (fun cur => has_entry cur r)).
Qed.

(** A check mark found after a poll pass was there before the pass. *)
Lemma only_added_checked a a' p :
  only_added a a' ->
  is_checked (folder_tree_data a') p = is_checked (folder_tree_data a) p.
Proof.
  intros (Hkeep & Hnew & _). unfold is_checked.
  destruct (folder_tree_data a !! p) as [n|] eqn:Hn.
  - by rewrite (Hkeep p n Hn).
  - destruct (folder_tree_data a' !! p) as [m|] eqn:Hm; [|done].
    by apply (Hnew p m).
Qed.

(** C9 (as amended).  [save_settings] writes into [folder_checks] one
    entry per path of [folder_tree_data], with its check mark.  Loading
    what was saved always returns: the tree is rebuilt (the first root
    folder, if it can be accessed, and what the listings give), and a path
    is checked exactly when it has an entry in the rebuilt tree, was saved
    as checked and is not matched by the filters.  The saved marks are all
    still in [saved_folder_checks] then, those of the paths without an
    entry too.  At start-up the first poll pass comes next and the timer
    [_delayed_apply_remaining_checks] after it: no entry is lost, and
    when the timer has run a path is checked exactly when it has an entry
    in the tree as the poll pass left it, was saved as checked and is not
    matched by the filters.  Once [_clear_saved_checks] has run, poll
    passes change no check mark, and a path without an entry is not in a
    later save. *)
Theorem checks_survive_save_and_load
        (fs : FS) (all_dirs : gset string) (a : App) (fuel : nat) :
  (forall p, fs_isdir fs p = true -> fs_realpath fs p ∈ all_dirs) ->
  size all_dirs < fuel ->
  (forall p, s_folder_checks (save_settings a) !! p
             = checked <$> folder_tree_data a !! p)
  /\ exists a1,
      load_settings fs fuel (save_settings a) a = Some a1
      /\ (forall more, load_settings fs (fuel + more) (save_settings a) a = Some a1)
      /\ (forall r rest,
             root_folders a = r :: rest -> fs_exists fs r = true ->
             check_folder_access_with_timeout fs r = true -> has_entry a1 r)
      /\ entries_enumerated fs a1
      /\ listings_settled fs a1
      /\ (forall p, is_checked (folder_tree_data a1) p = true <->
                    has_entry a1 p /\ is_checked (folder_tree_data a) p = true
                    /\ filters_match a p = false)
      /\ (forall p, saved_folder_checks a1 !! p = checked <$> folder_tree_data a !! p)
      /\ (forall a3,
             start_up fs fuel (save_settings a) a = Some (Finished a3) ->
             (forall p, has_entry a1 p -> has_entry a3 p)
             /\ (forall p, is_checked (folder_tree_data a3) p = true <->
                           has_entry a3 p /\ is_checked (folder_tree_data a) p = true
                           /\ filters_match a p = false)
             /\ forall n,
                  let a5 := schedule_folder_poll fs n (_clear_saved_checks a3) in
                  saved_folder_checks a5 = ∅
                  /\ (forall p, is_checked (folder_tree_data a5) p
                                = is_checked (folder_tree_data a3) p)
                  /\ (forall p, ~ has_entry a5 p ->
                                s_folder_checks (save_settings a5) !! p = None)).
Proof.
  intros Hdirs Hfuel. split; [apply save_settings_folder_checks|].
  unfold start_up, load_settings.
  match goal with
  | |- context [build_all_trees fs fuel ?x] => set (b := x)
  end.
  destruct (build_all_trees_spec fs all_dirs Hdirs fuel b Hfuel)
    as (a1 & Hrun & (_ & _ & Henum & Hset) & Hs).
  assert (forall p, saved_folder_checks a1 !! p = checked <$> folder_tree_data a !! p)
    as Hsaved.
  { intros p. destruct Hs as (_ & _ & _ & <- & _). apply save_settings_folder_checks. }
  assert (forall x p, same_settings a1 x -> filters_match x p = filters_match a p)
    as Hfilters.
  { intros x p Hx. rewrite <- (same_settings_filters a1 x p Hx).
    rewrite <- (same_settings_filters b a1 p Hs). by apply filters_match_ext. }
  assert (forall p, is_checked (folder_tree_data a1) p = true <->
                    has_entry a1 p /\ is_checked (folder_tree_data a) p = true
                    /\ filters_match a p = false) as Hiff1.
  { intros p. destruct (build_all_trees_checks fs fuel b a1 p Hrun) as (_ & ->).
    change (saved_folder_checks b) with (s_folder_checks (save_settings a)).
    rewrite save_settings_checked.
    assert (filters_match b p = filters_match a p) as -> by (by apply filters_match_ext).
    done. }
  exists a1. rewrite Hrun. split; [done|]. split.
  { intros more. eapply build_all_trees_mono; [|exact Hrun]. lia. }
  split.
  { intros r rest Hroots Hex Hacc.
    by apply (build_all_trees_first_root fs fuel b a1 r rest Hrun). }
  split; [exact Henum|]. split; [exact Hset|]. split; [exact Hiff1|].
  split; [exact Hsaved|].
  intros a3 Hstart.
  destruct (poll_folder fs a1) as [a2|a2] eqn:Hpoll; [|discriminate].
  injection Hstart as <-.
  pose proof (poll_folder_only_adds fs a1 a1 (kept_by_poll_refl a1)) as Hk.
  rewrite Hpoll in Hk. cbn [state_of] in Hk. destruct Hk as (Hadd & Hs12).
  assert (forall p, has_entry (_delayed_apply_remaining_checks a2) p <-> has_entry a2 p)
    as Hentries.
  { intros p. unfold has_entry. rewrite delayed_apply_lookup. apply fmap_is_Some. }
  split; [|split].
  - intros p Hp. apply Hentries. destruct Hadd as (Hkeep & _).
    destruct Hp as [n Hn]. exists n. by apply Hkeep.
  - intros p. rewrite Hentries.
    pose proof (only_added_checked a1 a2 p Hadd) as Hchk.
    pose proof (Hiff1 p) as Hp1.
    unfold is_checked, has_entry in *. rewrite delayed_apply_lookup. unfold restored.
    assert (saved_folder_checks a2 = saved_folder_checks a1) as ->
      by (by destruct Hs12 as (_ & _ & _ & <- & _)).
    rewrite Hsaved, (Hfilters a2 p Hs12).
    destruct (folder_tree_data a2 !! p) as [n|] eqn:Hn; cbn [fmap option_fmap option_map].
    2:{ split; [done|]. by intros ([? ?] & _). }
    destruct (folder_tree_data a !! p) as [[c d]|] eqn:Ha;
      cbn [fmap option_fmap option_map checked] in *.
    + destruct (filters_match a p) eqn:Hf.
      * split; [|by intros (_ & _ & ?)].
        intros Hc. rewrite Hc in Hchk.
        destruct (proj1 Hp1 (eq_sym Hchk)) as (_ & _ & Hx). discriminate.
      * destruct n as [cn dn]. cbn. split; [by eauto|]. by intros (_ & ? & _).
    + split; [|by intros (_ & ? & _)].
      intros Hc. rewrite Hc in Hchk.
      destruct (proj1 Hp1 (eq_sym Hchk)) as (_ & Hx & _). discriminate.
  - intros n. cbv zeta.
    set (a4 := _clear_saved_checks (_delayed_apply_remaining_checks a2)).
    pose proof (schedule_folder_poll_only_adds fs a4 n a4 (kept_by_poll_refl a4))
      as (Hadd5 & Hs5).
    split; [by destruct Hs5 as (_ & _ & _ & <- & _)|]. split.
    + intros p. by rewrite (only_added_checked a4 _ p Hadd5).
    + intros p Hp. rewrite save_settings_folder_checks.
      unfold has_entry in Hp. destruct (folder_tree_data _ !! p); [|done].
      exfalso. apply Hp. by eexists.
Qed.

Lemma checks_survive_save_and_load_witness :
  exists a1 a3,
    load_settings (GraphFS.to_fs proj_graph) 5 (save_settings proj_in_use) proj_in_use
    = Some a1
    /\ is_checked (folder_tree_data proj_in_use) "/proj/gone.txt" = true
    /\ ~ has_entry a1 "/proj/gone.txt"
    /\ is_checked (folder_tree_data a1) "/proj/src/a.py" = true
    /\ (forall p, is_checked (folder_tree_data a1) p = true <->
                  has_entry a1 p /\ is_checked (folder_tree_data proj_in_use) p = true
                  /\ filters_match proj_in_use p = false)
    /\ start_up (GraphFS.to_fs proj_graph) 5 (save_settings proj_in_use) proj_in_use
       = Some (Finished a3)
    /\ is_checked (folder_tree_data a3) "/proj/src/a.py" = true
    /\ (forall p, is_checked (folder_tree_data a3) p = true <->
                  has_entry a3 p /\ is_checked (folder_tree_data proj_in_use) p = true
                  /\ filters_match proj_in_use p = false).
Proof.
  destruct (checks_survive_save_and_load (GraphFS.to_fs proj_graph)
              (GraphFS.canonical_dirs proj_graph) proj_in_use 5)
    as (_ & a1 & Hrun & _ & _ & _ & _ & Hiff & _ & Hstart).
  - apply graph_dirs_complete.
  - vm_compute. lia.
  - assert (exists a3, start_up (GraphFS.to_fs proj_graph) 5
                         (save_settings proj_in_use) proj_in_use
                       = Some (Finished a3)) as [a3 H3]
      by (eexists; vm_compute; reflexivity).
    destruct (Hstart a3 H3) as (_ & Hiff3 & _).
    exists a1, a3. split; [exact Hrun|]. split; [reflexivity|].
    vm_compute in Hrun. injection Hrun as <-.
    split; [intros [n Hn]; vm_compute in Hn; discriminate|].
    split; [vm_compute; reflexivity|]. split; [exact Hiff|].
    split; [exact H3|]. split; [|exact Hiff3].
    vm_compute in H3. injection H3 as <-. vm_compute. reflexivity.
Defined.

(** C9 (the claim as stated fails).  The file [/proj/.cache/sub/f.txt]
    lies below a hidden directory, so the scan does not come to it; it is
    saved as checked.  After the load it has no entry and no check mark.
    The first poll pass enters it, as [os.walk] goes on below the hidden
    directory, and the timer then gives it its saved check mark: it is
    checked again, and it is in the next save as checked. *)
Lemma saved_mark_restored_after_first_poll :
  let fs := GraphFS.to_fs cache_graph in
  exists a1 a3,
    is_checked (folder_tree_data cache_in_use) "/proj/.cache/sub/f.txt" = true
    /\ load_settings fs 5 (save_settings cache_in_use) cache_in_use = Some a1
    /\ ~ has_entry a1 "/proj/.cache/sub/f.txt"
    /\ start_up fs 5 (save_settings cache_in_use) cache_in_use = Some (Finished a3)
    /\ is_checked (folder_tree_data a3) "/proj/.cache/sub/f.txt" = true
    /\ s_folder_checks (save_settings (_clear_saved_checks a3))
         !! "/proj/.cache/sub/f.txt" = Some true.
Proof.
  cbv zeta. eexists _, _. split; [reflexivity|].
  split; [vm_compute; reflexivity|].
  split; [intros [n Hn]; vm_compute in Hn; discriminate|].
  split; [vm_compute; reflexivity|].
  split; vm_compute; reflexivity.
Qed.

(* ===================================================================== *)
(** ** The exported texts                                                 *)
(* ===================================================================== *)

Lemma string_append_assoc (s t u : string) : (s +:+ t) +:+ u = s +:+ (t +:+ u).
Proof.
  induction s as [|c s IH]; [done|].
  change (String c ((s +:+ t) +:+ u) = String c (s +:+ (t +:+ u))).
  by rewrite IH.
Qed.

(** Validation keeps the keys and the kinds. *)
Lemma validate_checked_items_shape a :
  same_shape (folder_tree_data a) (folder_tree_data (validate_checked_items a)).
Proof.
  intros q. rewrite validate_checked_items_lookup. unfold validated.
  destruct (folder_tree_data a !! q) as [[c d]|]; [|done].
  by destruct (filters_match a q).
Qed.

Lemma reached_shape t t' path q :
  same_shape t t' -> reached t path q -> reached t' path q.
Proof.
  intros Hshape. induction 1 as [|q Hq _ IH Hpar]; [constructor|].
  apply reached_child; [by eapply same_shape_is_Some|done|].
  destruct Hpar as [?|(d & Hd & Hdir)]; [by left|right].
  pose proof (Hshape (PyStr.dirname q)) as Hp. rewrite Hd in Hp.
  destruct (t' !! PyStr.dirname q) as [d'|]; [|done].
  exists d'. split; [done|]. cbn in Hp. congruence.
Qed.

(** What is reached from a child of [path] is reached from [path]. *)
Lemma reached_from_child t path c q :
  is_Some (t !! c) -> PyStr.dirname c = path ->
  reached t c q -> q = c \/ (exists d, t !! c = Some d /\ is_dir d = true) ->
  reached t path q.
Proof.
  intros Hc Hpar. induction 1 as [|q Hq Hr IH Hside]; intros Hdir.
  - apply reached_child; [done|rewrite Hpar; constructor|by left].
  - destruct Hdir as [->|Hdir].
    { apply reached_child; [done|rewrite Hpar; constructor|by left]. }
    apply reached_child; [done|apply IH; by right|].
    destruct Hside as [->|?]; by right.
Qed.

(** What is reached from [path] is [path], a child of [path], or
    reached from a child of [path] that is a directory entry. *)
Lemma reached_children t path q :
  reached t path q ->
  q = path
  \/ exists c, is_Some (t !! c) /\ PyStr.dirname c = path
               /\ (q = c
                   \/ ((exists d, t !! c = Some d /\ is_dir d = true)
                       /\ reached t c q)).
Proof.
  induction 1 as [|q Hq Hr IH Hside]; [by left|]. right.
  destruct Hside as [Hpar|Hdir]; [exists q; by eauto|].
  destruct IH as [Heq|(c & Hc & Hpar & Hcase)]; [exists q; by eauto|].
  exists c. split; [done|]. split; [done|]. right.
  destruct Hcase as [Heq|[Hcdir Hrc]].
  - rewrite <- Heq. split; [done|].
    apply reached_child; [done|constructor|by left].
  - split; [done|]. apply reached_child; [done..|by right].
Qed.

Lemma full_tree_first_line q prefix :
  branch_marks prefix ->
  full_tree_line q
    (if String.eqb prefix "" then q
     else prefix +:+ (if String.eqb (PyStr.basename q) "" then q
                      else PyStr.basename q)).
Proof.
  intros Hm. destruct (String.eqb prefix "") eqn:He.
  - exists "". split; [constructor|by left].
  - exists prefix. split; [done|].
    destruct (String.eqb (PyStr.basename q) ""); [by left|by right].
Qed.

(** The lines that [recurse] writes: for every entry it comes to its
    line, and no other line. *)
Lemma full_tree_recurse_lines a fuel :
  forall path prefix lines,
    branch_marks prefix ->
    full_tree_recurse fuel a path prefix = Some lines ->
    (forall q, reached (folder_tree_data a) path q ->
               exists line, line ∈ lines /\ full_tree_line q line)
    /\ (forall line, line ∈ lines ->
                     exists q, reached (folder_tree_data a) path q
                               /\ full_tree_line q line).
Proof.
  induction fuel as [|fuel IH]; intros path prefix lines Hmarks Hrun; [done|].
  cbn [full_tree_recurse] in Hrun. cbv zeta in Hrun.
  match type of Hrun with
  | match ?f ?items with _ => _ end = _ =>
      assert (forall c, c ∈ items <->
                has_entry a c /\ PyStr.dirname c = path) as Hitems;
      [|assert (forall its l,
                   f its = Some l ->
                   (forall c, c ∈ its ->
                      exists b, branch_marks (prefix +:+ b)
                        /\ if is_dir_in a c
                           then exists l1,
                                  full_tree_recurse fuel a c (prefix +:+ b) = Some l1
                                  /\ forall x, x ∈ l1 -> x ∈ l
                           else (prefix +:+ b) +:+ PyStr.basename c ∈ l)
                   /\ (forall x, x ∈ l ->
                         exists c b, c ∈ its /\ branch_marks (prefix +:+ b)
                           /\ if is_dir_in a c
                              then exists l1,
                                     full_tree_recurse fuel a c (prefix +:+ b) = Some l1
                                     /\ x ∈ l1
                              else x = (prefix +:+ b) +:+ PyStr.basename c)) as Heach;
        [|destruct (f items) as [l|] eqn:Hl; [|discriminate];
          destruct (Heach items l Hl) as [Hall Hfrom]; clear Heach]]
  end.
  - intros c. rewrite elem_of_app, !elem_of_sorted, !elem_of_list_filter.
    rewrite elem_of_tree_keys, String.eqb_eq.
    destruct (is_dir_in a c); cbn [negb]; intuition discriminate.
  - clear Hrun Hitems.
    induction its as [|child rest IHr]; intros l Hl.
    { injection Hl as <-. split; intros x Hx; by apply elem_of_nil in Hx. }
    set (b := match rest with [] => "└── " | _ :: _ => "├── " end) in *.
    assert (branch_marks (prefix +:+ b)) as Hb
      by (subst b; destruct rest; by constructor).
    match type of Hl with
    | match ?here with _ => _ end = _ => destruct here as [l1|] eqn:Hhere
    end; [|discriminate].
    match type of Hl with
    | match ?more with _ => _ end = _ => destruct more as [l2|] eqn:Hmore
    end; [|discriminate].
    injection Hl as <-. destruct (IHr l2 eq_refl) as [Hall2 Hfrom2]. split.
    + intros c [->|Hc]%elem_of_cons.
      * exists b. split; [done|]. destruct (is_dir_in a child).
        -- exists l1. split; [done|]. intros x Hx. apply elem_of_app. by left.
        -- injection Hhere as <-. apply elem_of_app. left.
           rewrite string_append_assoc. apply list_elem_of_here.
      * destruct (Hall2 c Hc) as (b' & Hb' & Hcase). exists b'. split; [done|].
        destruct (is_dir_in a c).
        -- destruct Hcase as (l1' & Hl1' & Hsub). exists l1'. split; [done|].
           intros x Hx. apply elem_of_app. right. by apply Hsub.
        -- apply elem_of_app. by right.
    + intros x [Hx|Hx]%elem_of_app.
      * exists child, b. split; [apply list_elem_of_here|]. split; [done|].
        destruct (is_dir_in a child).
        -- by exists l1.
        -- injection Hhere as <-. apply list_elem_of_singleton in Hx.
           by rewrite string_append_assoc.
      * destruct (Hfrom2 x Hx) as (c & b' & Hc & Hb' & Hcase).
        exists c, b'. split; [by apply list_elem_of_further|]. by split.
  - injection Hrun as <-. split.
    + intros q Hq. apply reached_children in Hq as [->|(c & Hc & Hpar & Hcase)].
      { eexists. split; [apply list_elem_of_here|]. by apply full_tree_first_line. }
      destruct (Hall c) as (b & Hb & Hdrawn); [by apply Hitems|].
      destruct (is_dir_in a c) eqn:Hdir.
      * destruct Hdrawn as (l1 & Hl1 & Hsub).
        destruct (IH c (prefix +:+ b) l1 Hb Hl1) as [Hcomplete _].
        destruct (Hcomplete q) as (line & Hline & Hfor).
        { destruct Hcase as [->|[_ ?]]; [constructor|done]. }
        exists line. split; [|done]. apply list_elem_of_further. by apply Hsub.
      * destruct Hcase as [->|[(d & Hd & Hisd) _]].
        -- eexists. split; [apply list_elem_of_further; exact Hdrawn|].
           exists (prefix +:+ b). split; [done|by right].
        -- unfold is_dir_in in Hdir. rewrite Hd in Hdir. congruence.
    + intros line [->|Hline]%elem_of_cons.
      { exists path. split; [constructor|by apply full_tree_first_line]. }
      destruct (Hfrom line Hline) as (c & b & Hc & Hb & Hcase).
      apply Hitems in Hc as [Hentry Hpar].
      destruct (is_dir_in a c) eqn:Hdir.
      * destruct Hcase as (l1 & Hl1 & Hin).
        destruct (IH c (prefix +:+ b) l1 Hb Hl1) as [_ Hsound].
        destruct (Hsound line Hin) as (q & Hq & Hfor).
        exists q. split; [|done].
        apply (reached_from_child _ path c q); [done..|].
        right. by apply is_dir_in_true.
      * exists c. split.
        -- apply (reached_from_child _ path c c); [done|done|constructor|by left].
        -- exists (prefix +:+ b). split; [done|by right].
Qed.

(** The same for the loop over the root folders. *)
Lemma full_tree_roots_lines fs a fuel roots :
  forall lines,
    full_tree_roots fs fuel a roots = Some lines ->
    (forall rf q, rf ∈ roots -> fs_exists fs rf = true -> has_entry a rf ->
                  reached (folder_tree_data a) rf q ->
                  exists line, line ∈ lines /\ full_tree_line q line)
    /\ (forall line, line ∈ lines ->
                     exists rf q, rf ∈ roots /\ fs_exists fs rf = true
                                  /\ has_entry a rf
                                  /\ reached (folder_tree_data a) rf q
                                  /\ full_tree_line q line).
Proof.
  induction roots as [|r roots IH]; intros lines Hrun.
  { injection Hrun as <-. split.
    - intros rf q Hrf. by apply elem_of_nil in Hrf.
    - intros line Hline. by apply elem_of_nil in Hline. }
  cbn [full_tree_roots] in Hrun. cbv zeta in Hrun.
  destruct (if fs_exists fs r && in_tree r a then _ else _) as [l1|] eqn:Hhere;
    [|discriminate].
  destruct (full_tree_roots fs fuel a roots) as [l2|]; [|discriminate].
  injection Hrun as <-. destruct (IH l2 eq_refl) as [Hall2 Hfrom2].
  destruct (fs_exists fs r && in_tree r a) eqn:Hcond.
  - apply andb_true_iff in Hcond as [Hex Htree]. apply in_tree_true in Htree.
    destruct (full_tree_recurse_lines a fuel r "" l1 marks_none Hhere)
      as [Hall1 Hfrom1].
    split.
    + intros rf q [->|Hrf]%elem_of_cons Hexr Hentry Hq.
      * destruct (Hall1 q Hq) as (line & Hline & Hfor). exists line.
        split; [|done]. apply elem_of_app. by left.
      * destruct (Hall2 rf q Hrf Hexr Hentry Hq) as (line & Hline & Hfor).
        exists line. split; [|done]. apply elem_of_app. by right.
    + intros line [Hline|Hline]%elem_of_app.
      * destruct (Hfrom1 line Hline) as (q & Hq & Hfor).
        exists r, q. split; [apply list_elem_of_here|]. done.
      * destruct (Hfrom2 line Hline) as (rf & q & Hrf & Hrest).
        exists rf, q. split; [by apply list_elem_of_further|done].
  - injection Hhere as <-. split.
    + intros rf q [->|Hrf]%elem_of_cons Hexr Hentry Hq.
      * apply in_tree_true in Hentry. by rewrite Hexr, Hentry in Hcond.
      * by apply (Hall2 rf q).
    + intros line Hline. cbn [app] in Hline.
      destruct (Hfrom2 line Hline) as (rf & q & Hrf & Hrest).
      exists rf, q. split; [by apply list_elem_of_further|done].
Qed.

(** The full tree is written when no key is its own parent. *)
Lemma full_tree_roots_ends fs M a fuel roots :
  keys_well_founded M (folder_tree_data a) -> M < fuel ->
  exists lines, full_tree_roots fs fuel a roots = Some lines.
Proof.
  intros Hwf Hfuel. induction roots as [|r roots (l2 & Hl2)]; [by eexists|].
  cbn [full_tree_roots]. cbv zeta. rewrite Hl2.
  destruct (fs_exists fs r && in_tree r a) eqn:Hhere; [|by eexists].
  apply andb_true_iff in Hhere as [_ Htree]. apply in_tree_true in Htree.
  destruct (full_tree_recurse_ends M a Hwf fuel r "" Htree) as [rest ->]; [lia|].
  by eexists.
Qed.

(** C10 (as amended).  [validate_checked_items] removes the check mark
    of every entry whose path the filters match and changes nothing
    else.  When "copy entire tree" is off, the file tree that is then
    exported is drawn from checked entries only, each of them not
    matched by the filters; and the file contents are those of the
    checked files, none of them matched by the filters.  When "copy
    entire tree" is on, the file tree is drawn without a look at the
    check marks or the filters: if no key is its own parent the export
    returns, and its file tree has a line for every root folder that
    exists and has an entry and for every entry reached from such a root
    folder, from parent to child through the root's children and the
    children of directory entries; every line of it is the line of such
    an entry. *)
Theorem validated_exports_skip_filtered_paths
        (fs : FS) (fence_label fence_text : string -> string)
        (a : App) (fuel : nat) :
  let a' := validate_checked_items a in
  (forall p, folder_tree_data a' !! p = validated a p <$> folder_tree_data a !! p)
  /\ (forall p n, folder_tree_data a' !! p = Some n ->
                  filters_match a p = true -> checked n = false)
  /\ (copy_entire_tree_var a = false ->
      exists file_tree,
        on_copy_to_clipboard fs fence_label fence_text fuel a
        = Some (file_tree, build_file_contents_text fence_label fence_text a', a')
        /\ forall line, line ∈ file_tree ->
             line = "No folders selected." \/ line = "(No items selected)"
             \/ exists p, has_entry a p /\ is_checked (folder_tree_data a) p = true
                          /\ filters_match a p = false
                          /\ (line = p
                              \/ line = "    ├── " +:+ PyStr.basename p
                              \/ line = "    └── " +:+ PyStr.basename p))
  /\ build_file_contents_text fence_label fence_text a'
     = concat (map (file_block fence_label fence_text) (checked_files a'))
  /\ (forall p, p ∈ checked_files a' ->
                has_entry a p /\ is_checked (folder_tree_data a) p = true
                /\ filters_match a p = false)
  /\ (copy_entire_tree_var a = true ->
      forall M, keys_well_founded M (folder_tree_data a) -> M < fuel ->
      exists file_tree,
        on_copy_to_clipboard fs fence_label fence_text fuel a
        = Some (file_tree, build_file_contents_text fence_label fence_text a', a')
        /\ (root_folders a = [] -> file_tree = ["No folders selected."])
        /\ (forall rf q,
               rf ∈ root_folders a -> fs_exists fs rf = true -> has_entry a rf ->
               reached (folder_tree_data a) rf q ->
               exists line, line ∈ file_tree /\ full_tree_line q line)
        /\ (root_folders a <> [] ->
            forall line, line ∈ file_tree ->
              exists rf q,
                rf ∈ root_folders a /\ fs_exists fs rf = true /\ has_entry a rf
                /\ reached (folder_tree_data a) rf q /\ full_tree_line q line)).
Proof.
  cbv zeta. split; [apply validate_checked_items_lookup|].
  split; [|split; [|split; [|split]]].
  - intros p n. rewrite validate_checked_items_lookup. unfold validated.
    destruct (folder_tree_data a !! p) as [m|]; [|done]. cbn.
    intros [= <-] ->. done.
  - intros Hmode. unfold on_copy_to_clipboard. cbv zeta.
    assert (copy_entire_tree_var (validate_checked_items a) = false) as ->.
    { unfold validate_checked_items. by destruct (foldl _ _ _). }
    eexists. split; [reflexivity|].
    intros line Hline. apply build_checked_file_tree_text_lines in Hline
      as [?|[?|(p & Hp & Hl)]]; [by left|right; by left|]. right. right.
    apply elem_of_sorted_paths_where in Hp as (n & Hn & Hc).
    exists p.
    destruct (validate_checked_items_checked a p) as (He & Hc' & Hf);
      [unfold is_checked; by rewrite Hn|]. done.
  - reflexivity.
  - intros p Hp. apply elem_of_sorted_paths_where in Hp as (n & Hn & Hc).
    apply andb_true_iff in Hc as [Hc _].
    apply validate_checked_items_checked. unfold is_checked. by rewrite Hn.
  - intros Hmode M Hwf Hfuel. unfold on_copy_to_clipboard. cbv zeta.
    pose proof (validate_checked_items_shape a) as Hshape.
    destruct (validate_checked_items_settings a) as (Hroots & _ & _ & _ & _ & Hcopy & _).
    set (a' := validate_checked_items a) in *.
    rewrite <- Hcopy, Hmode. unfold build_full_file_tree_text. rewrite <- Hroots.
    destruct (root_folders a) as [|r rs] eqn:Hr.
    { eexists. split; [reflexivity|]. split; [done|]. split; [|done].
      intros rf q Hrf. by apply elem_of_nil in Hrf. }
    destruct (full_tree_roots_ends fs M a' fuel (r :: rs)) as (lines & Hl);
      [by eapply keys_well_founded_shape|done|].
    rewrite Hl. exists lines. split; [reflexivity|]. split; [done|].
    destruct (full_tree_roots_lines fs a' fuel (r :: rs) lines Hl) as [Hall Hfrom].
    split.
    + intros rf q Hrf Hex Hentry Hq. apply (Hall rf q); [done|done| |].
      * by eapply same_shape_is_Some.
      * by eapply reached_shape.
    + intros _ line Hline.
      destruct (Hfrom line Hline) as (rf & q & Hrf & Hex & Hentry & Hq & Hfor).
      exists rf, q. split; [done|]. split; [done|].
      apply same_shape_sym in Hshape.
      split; [by eapply same_shape_is_Some|]. split; [by eapply reached_shape|done].
Qed.

Lemma validated_exports_skip_filtered_paths_witness :
  (exists file_tree,
      on_copy_to_clipboard (GraphFS.to_fs proj_graph) (fun _ => "txt") (fun _ => "") 5
                           proj_stale_app
      = Some (file_tree,
              build_file_contents_text (fun _ => "txt") (fun _ => "")
                                       (validate_checked_items proj_stale_app),
              validate_checked_items proj_stale_app)
      /\ forall line, line ∈ file_tree ->
           line = "No folders selected." \/ line = "(No items selected)"
           \/ exists p, has_entry proj_stale_app p
                        /\ is_checked (folder_tree_data proj_stale_app) p = true
                        /\ filters_match proj_stale_app p = false
                        /\ (line = p
                            \/ line = "    ├── " +:+ PyStr.basename p
                            \/ line = "    └── " +:+ PyStr.basename p))
  /\ filters_match proj_stale_full_app "/proj/src/a.py~" = true
  /\ (exists file_tree,
         on_copy_to_clipboard (GraphFS.to_fs proj_graph) (fun _ => "txt") (fun _ => "") 16
                              proj_stale_full_app
         = Some (file_tree,
                 build_file_contents_text (fun _ => "txt") (fun _ => "")
                                          (validate_checked_items proj_stale_full_app),
                 validate_checked_items proj_stale_full_app)
         /\ exists line, line ∈ file_tree /\ full_tree_line "/proj/src/a.py~" line).
Proof.
  split; [|split; [reflexivity|]].
  - refine (proj1 (proj2 (proj2 (validated_exports_skip_filtered_paths
                                   (GraphFS.to_fs proj_graph)
                                   (fun _ => "txt") (fun _ => "")
                                   proj_stale_app 5))) _).
    reflexivity.
  - destruct (proj2 (proj2 (proj2 (proj2 (proj2
                (validated_exports_skip_filtered_paths
                   (GraphFS.to_fs proj_graph) (fun _ => "txt") (fun _ => "")
                   proj_stale_full_app 16))))) eq_refl 15)
      as (file_tree & Hrun & _ & Hall & _).
    + apply keys_well_founded_test_spec. vm_compute. reflexivity.
    + lia.
    + exists file_tree. split; [exact Hrun|].
      apply (Hall "/proj" "/proj/src/a.py~").
      * apply list_elem_of_here.
      * vm_compute. reflexivity.
      * vm_compute. by eexists.
      * apply reached_child; [vm_compute; by eexists| |].
        -- change (PyStr.dirname "/proj/src/a.py~") with "/proj/src".
           apply reached_child; [vm_compute; by eexists|constructor|by left].
        -- right. exists (Node false true). split; vm_compute; reflexivity.
Defined.

(** The backup file loses its check mark and stays out of both texts. *)
Example stale_check_is_dropped :
  is_checked (folder_tree_data proj_stale_app) "/proj/src/a.py~" = true
  /\ option_map (fun r => (fst (fst r)))
       (on_copy_to_clipboard (GraphFS.to_fs proj_graph) (fun _ => "txt") (fun _ => "") 5
                proj_stale_app)
     = Some ["/proj/src/a.py"]
  /\ checked_files (validate_checked_items proj_stale_app) = ["/proj/src/a.py"].
Proof. repeat split; vm_compute; reflexivity. Qed.

(** With "copy entire tree" ticked the backup file loses its check mark
    all the same and stays out of the file contents, and the file tree
    lists it. *)
Example stale_file_is_in_the_full_tree :
  option_map (fun r => (fst (fst r)))
    (on_copy_to_clipboard (GraphFS.to_fs proj_graph) (fun _ => "txt") (fun _ => "") 16
                          proj_stale_full_app)
  = Some ["/proj"; "└── src"; "└── ├── a.py"; "└── └── a.py~"]
  /\ checked_files (validate_checked_items proj_stale_full_app) = ["/proj/src/a.py"].
Proof. split; vm_compute; reflexivity. Qed.

(** An entry whose parent has no entry is not reached: after the poll
    pass of [cache_graph] the tree has three entries, and the full file
    tree has the line of the root folder only. *)
Example full_tree_leaves_out_what_is_not_reached :
  sorted (tree_keys cache_polled)
  = ["/proj"; "/proj/.cache/sub"; "/proj/.cache/sub/f.txt"]
  /\ build_full_file_tree_text (GraphFS.to_fs cache_graph) 30 cache_polled
     = Some ["/proj"].
Proof. split; vm_compute; reflexivity. Qed.

(** C10 (the claim as stated fails).  The root folder [/proj/build]
    matches the pattern [*/build] and "copy entire tree" is ticked: after
    the scan, the exported file tree starts with [/proj/build]. *)
Lemma full_tree_export_lists_filtered_root :
  let fs := GraphFS.to_fs build_graph in
  exists a1 file_tree file_contents a2,
    build_all_trees fs 4 build_root_app = Some a1
    /\ on_copy_to_clipboard fs (fun _ => "txt") (fun _ => "") 5 a1
       = Some (file_tree, file_contents, a2)
    /\ "/proj/build" ∈ file_tree
    /\ has_entry a2 "/proj/build"
    /\ filters_match a2 "/proj/build" = true.
Proof.
  cbv zeta. eexists _, _, _, _. split; [vm_compute; reflexivity|].
  split; [vm_compute; reflexivity|].
  split; [apply list_elem_of_here|]. split; vm_compute; eauto.
Qed.
